(** * MARS flight-system firmware: register store, command ingestion, arm token

    A shallow embedding of the parts of the firmware that the specification
    talks about:

    - [Cxx]: the pieces of the C and C++ standard library that the handlers
      rely on ([std::string] searching and slicing, [std::getline],
      [std::stod], [operator<<] on a [float], [itoa], [atoi]);
    - [Ptam]: the register store [SharedMemory];
    - [LegacyPtam]: the deprecated array-based store of
      [deprecated/temp_access_mem.cpp];
    - [Broadcast]: the HTTP handlers of [Comms/_broadcast.cpp];
    - [Endpoints], [Ota]: the other handlers of the same file, the firmware
      update among them;
    - [Text], [Logger]: the event logger of [Logging/logger.cpp] and the
      library functions it searches, prints and parses with;
    - [LegacyTables]: the tables of the array-based store once they hold a
      pair;
    - [Hal]: the fan relay of [Fan_cooling/fan_relay.cpp] and the servos of
      [Servo/mg90s_servo.cpp].

    A C++ [double] is a primitive binary64 [float]; a C++ [float] is a
    [spec_float] that satisfies [binary32]; a [std::string] is a [string]
    whose characters are its bytes. *)

From Stdlib Require Import ZArith Floats String Ascii DecimalString DecimalN DecimalPos
  List Lia Bool.
From stdpp Require Import base gmap strings list.

Local Open Scope string_scope.
Local Open Scope Z_scope.

(* ===================================================================== *)
(** * The C++ library functions the firmware calls *)
(* ===================================================================== *)

Module Cxx.

(** Exceptions thrown by the standard library calls in the decoder. *)
Inductive exn : Type :=
| out_of_range (what : string)
| invalid_argument (what : string).

(** A call that either returns or throws. *)
Inductive result (A : Type) : Type :=
| Ok (a : A)
| Throw (e : exn).
Arguments Ok {A} a.
Arguments Throw {A} e.

(** ** [std::string] *)

(** [std::string::npos] on the 32-bit target. *)
Definition npos : Z := 4294967295.

Definition size (s : string) : Z := Z.of_nat (String.length s).

Fixpoint mem_char (c : ascii) (chars : string) : bool :=
  match chars with
  | EmptyString => false
  | String d rest => if Ascii.eqb c d then true else mem_char c rest
  end.

Fixpoint find_first_of_from (chars : string) (i : Z) (s : string) : Z :=
  match s with
  | EmptyString => npos
  | String c rest =>
      if mem_char c chars then i else find_first_of_from chars (i + 1) rest
  end.

(** [s.find_first_of(chars)]: index of the first character of [s] that
    occurs in [chars], [npos] when there is none. *)
Definition find_first_of (s chars : string) : Z :=
  find_first_of_from chars 0 s.

Fixpoint string_take (n : nat) (s : string) : string :=
  match n, s with
  | S k, String c rest => String c (string_take k rest)
  | _, _ => EmptyString
  end.

Fixpoint string_drop (n : nat) (s : string) : string :=
  match n, s with
  | S k, String _ rest => string_drop k rest
  | _, _ => s
  end.

(** [s.substr(pos, count)]: throws [std::out_of_range] when [pos > size()],
    otherwise the [min count (size() - pos)] characters from [pos]. *)
Definition substr (s : string) (pos count : Z) : result string :=
  if size s <? pos then Throw (out_of_range "basic_string::substr")
  else Ok (string_take (Z.to_nat (Z.min count (size s - pos)))
             (string_drop (Z.to_nat pos) s)).

(** Text up to the first occurrence of [delim], and what follows that
    occurrence when there is one. *)
Fixpoint split_delim (delim : ascii) (s : string) : string * option string :=
  match s with
  | EmptyString => (EmptyString, None)
  | String c rest =>
      if Ascii.eqb c delim then (EmptyString, Some rest)
      else let '(item, tail) := split_delim delim rest in (String c item, tail)
  end.

(** [std::getline(ss, item, delim)] on a stream whose unread characters are
    [ss]: fails (returns [None]) when nothing is left to read, otherwise gives
    the item read and the characters left unread.  The delimiter is consumed
    and not stored. *)
Definition getline (ss : string) (delim : ascii) : option (string * string) :=
  match ss with
  | EmptyString => None
  | _ => let '(item, tail) := split_delim delim ss in
         Some (item, default EmptyString tail)
  end.

(** The C string held in a [char] buffer: the bytes before the first NUL. *)
Fixpoint c_str (buf : string) : string :=
  match buf with
  | EmptyString => EmptyString
  | String c rest => if Ascii.eqb c zero then EmptyString else String c (c_str rest)
  end.

(** ** Characters and digits *)

Definition digit_char (d : Z) : ascii :=
  match d with
  | 0 => "0" | 1 => "1" | 2 => "2" | 3 => "3" | 4 => "4"
  | 5 => "5" | 6 => "6" | 7 => "7" | 8 => "8" | _ => "9"
  end%char.

Definition digit_val (c : ascii) : option Z :=
  let n := Z.of_N (N_of_ascii c) in
  if (48 <=? n) && (n <=? 57) then Some (n - 48) else None.

Definition hex_val (c : ascii) : option Z :=
  let n := Z.of_N (N_of_ascii c) in
  if (48 <=? n) && (n <=? 57) then Some (n - 48)
  else if (97 <=? n) && (n <=? 102) then Some (n - 87)
  else if (65 <=? n) && (n <=? 70) then Some (n - 55)
  else None.

(** [isalnum] in the C locale. *)
Definition is_alnum (c : ascii) : bool :=
  let n := Z.of_N (N_of_ascii c) in
  ((48 <=? n) && (n <=? 57)) || ((65 <=? n) && (n <=? 90))
    || ((97 <=? n) && (n <=? 122)).

(** Do all the characters of [s] satisfy [p]? *)
Fixpoint all_chars (p : ascii -> bool) (s : string) : bool :=
  match s with
  | EmptyString => true
  | String c rest => p c && all_chars p rest
  end.

Definition is_digit (c : ascii) : bool := mem_char c "0123456789".

Definition not_underscore (c : ascii) : bool := negb (Ascii.eqb c "_").

(** The characters that the output of a finite [float] is made of. *)
Definition is_output_char (c : ascii) : bool := mem_char c "0123456789.e+-".

(** [isspace] in the C locale. *)
Definition isspace (c : ascii) : bool :=
  let n := Z.of_N (N_of_ascii c) in
  (n =? 32) || ((9 <=? n) && (n <=? 13)).

Definition lower (c : ascii) : ascii :=
  let n := N_of_ascii c in
  if ((65 <=? n) && (n <=? 90))%N then ascii_of_N (n + 32) else c.

Fixpoint skip_space (s : string) : string :=
  match s with
  | String c rest => if isspace c then skip_space rest else s
  | EmptyString => s
  end.

(** Longest prefix of digits in the given base, as (value, number of digits,
    rest). *)
Fixpoint read_digits (val : ascii -> option Z) (base acc n : Z) (s : string)
  : Z * Z * string :=
  match s with
  | String c rest =>
      match val c with
      | Some d => read_digits val base (base * acc + d) (n + 1) rest
      | None => (acc, n, s)
      end
  | EmptyString => (acc, n, s)
  end.

(** The number that the decimal digits [s] make, [acc] standing in front of
    them. *)
Definition digits_value (s : string) (acc : Z) : Z :=
  fst (fst (read_digits digit_val 10 acc 0 s)).

(** Does [s] start with [p], ignoring case ([p] in lower case)? Gives the rest. *)
Fixpoint strip_prefix_ci (p s : string) : option string :=
  match p, s with
  | EmptyString, _ => Some s
  | String a p', String b s' =>
      if Ascii.eqb a (lower b) then strip_prefix_ci p' s' else None
  | String _ _, EmptyString => None
  end.

(** An optional [+] or [-]: the sign read and the rest. *)
Definition read_sign (s : string) : bool * string :=
  match s with
  | String "-" rest => (true, rest)
  | String "+" rest => (false, rest)
  | _ => (false, s)
  end.

(** ** Binary floating point *)

(** C++ [float]: IEEE binary32, precision 24, maximal exponent 128.  The type
    is that of the binary numbers of any precision; the values of a [float]
    are those that satisfy [binary32] below. *)
Definition float32 : Type := spec_float.
Definition prec32 : Z := 24.
Definition emax32 : Z := 128.

(** The values of a [float]: a finite one has a mantissa of 24 binary
    digits, or fewer at the least exponent -149, and an exponent of at most
    104. *)
Definition binary32 (v : float32) : bool := SpecFloat.valid_binary prec32 emax32 v.

(** Implicit conversion [double -> float] at a call site: round to nearest
    even at binary32. *)
Definition double_to_float (d : float) : float32 :=
  match Prim2SF d with
  | S754_finite s m e => binary_round prec32 emax32 s m e
  | x => x
  end.

(** The least exponent of a [double]. *)
Definition emin64 : Z := -1074.

(** The canonical mantissa of 53 bits of the number [m * 2 ^ e]: [m] shifted
    to 53 binary digits. *)
Definition mantissa53 (m : positive) : positive :=
  Z.to_pos (Zpos m * 2 ^ (53 - Zpos (digits2_pos m))).

(** Implicit conversion [float -> double]: exact, the rounding to a double
    of a number that is one. *)
Definition float_to_double (v : float32) : float :=
  match v with
  | S754_finite s m e => SF2Prim (binary_round prec emax s m e)
  | _ => SF2Prim v
  end.

Definition is_finite (v : float32) : bool :=
  match v with
  | S754_zero _ | S754_finite _ _ _ => true
  | _ => false
  end.

Definition sf_set_sign (neg : bool) (x : spec_float) : spec_float :=
  match x with
  | S754_zero _ => S754_zero neg
  | S754_infinity _ => S754_infinity neg
  | S754_finite _ m e => S754_finite neg m e
  | S754_nan => S754_nan
  end.

(** The double nearest to [m * 10 ^ e10] ([m >= 0]), before the sign is
    applied: an integer is rounded directly, a proper fraction by one
    correctly rounded division of two exact integers. *)
Definition decimal_to_sf (m e10 : Z) : spec_float :=
  match m with
  | Zpos pm =>
      if 0 <=? e10 then binary_normalize prec emax (m * 10 ^ e10) 0 false
      else SFdiv prec emax (S754_finite false pm 0)
             (S754_finite false (Z.to_pos (10 ^ (- e10))) 0)
  | _ => S754_zero false
  end.

(** The double nearest to [m * 2 ^ e2] ([m >= 0]). *)
Definition binary_to_sf (m e2 : Z) : spec_float :=
  binary_normalize prec emax m e2 false.

(** An exponent suffix: the marker already read, then an optional sign and
    at least one digit; without a digit the suffix is not part of the number. *)
Definition read_exponent (s : string) : Z :=
  let '(eneg, s1) := read_sign s in
  let '(ev, en, _) := read_digits digit_val 10 0 0 s1 in
  if en =? 0 then 0 else if eneg then - ev else ev.

Definition exponent_after (marker : ascii) (s : string) : Z :=
  match s with
  | String c rest => if Ascii.eqb (lower c) marker then read_exponent rest else 0
  | EmptyString => 0
  end.

(** Digits, an optional point, more digits; then the exponent.  Gives the
    mantissa as an integer, the number of digits read and the exponent of the
    base ([fracw] is what one fractional digit weighs in that exponent). *)
Definition read_number (val : ascii -> option Z) (base fracw : Z) (marker : ascii)
    (s : string) : Z * Z * Z :=
  let '(ip, ni, s1) := read_digits val base 0 0 s in
  let '(m, nf, s2) :=
    match s1 with
    | String "." rest => read_digits val base ip 0 rest
    | _ => (ip, 0, s1)
    end in
  if ni + nf =? 0 then (0, 0, 0)
  else (m, ni + nf, exponent_after marker s2 - fracw * nf).

(** The number [m * base ^ e] as a fraction of two integers. *)
Definition scaled (m base e : Z) : Z * Z :=
  if 0 <=? e then (m * base ^ e, 1) else (m, base ^ (- e)).

(** The absolute value of the finite, non-zero [float] [v] is the decimal
    number [N * 10 ^ j]. *)
Definition holds_decimal (v : float32) (N j : Z) : Prop :=
  match v with
  | S754_finite _ m e =>
      let '(dn, dd) := scaled N 10 j in
      let '(bn, bd) := scaled (Zpos m) 2 e in
      dn * bd = bn * dd
  | _ => False
  end.

(** A finite [float] that six significant decimal digits represent: zero, or
    a number whose absolute value is [N * 10 ^ j] for a whole number [N] of
    at most six digits. *)
Definition six_digits (v : float32) : Prop :=
  match v with
  | S754_zero _ => True
  | S754_finite _ _ _ => exists N j : Z, 0 < N < 10 ^ 6 /\ holds_decimal v N j
  | _ => False
  end.

(** Does [num / den] round to a double above the largest one?  It does from
    [2^1024 - 2^970] on, half a unit in the last place above [DBL_MAX]. *)
Definition overflows (num den : Z) : bool :=
  (2 ^ 1024 - 2 ^ 970) * den <=? num.

(** Is [num / den], rounded to 53 bits, below [DBL_MIN = 2^-1022]?  It is
    below [2^-1022 - 2^-1076], half a unit in the last place under
    [DBL_MIN]. *)
Definition tiny (num den : Z) : bool :=
  num * 2 ^ 1076 <? (2 ^ 54 - 1) * den.

(** Is the double [x] the number [num / den] itself? *)
Definition exactly (num den : Z) (x : spec_float) : bool :=
  match x with
  | S754_zero _ => num =? 0
  | S754_finite _ mx ex => let '(n, d) := scaled (Zpos mx) 2 ex in num * d =? n * den
  | _ => false
  end.

(** Range errors of [strtod] for the number [num / den >= 0] that was read
    and the double [x] nearest to it.  A number that rounds above [DBL_MAX]
    sets [ERANGE].  Whether one that rounds below [DBL_MIN] does is left to
    the implementation by the C standard (7.22.1.3); the rule taken here is
    that of glibc, with which [std::stod] throws for [1e-310]: [ERANGE] when
    the number is below [DBL_MIN] once rounded to 53 bits and [x], zero or
    subnormal, is not the number itself.  A library that reports a range
    error for a result of zero only accepts more texts than this model. *)
Definition range_checked (num den : Z) (x : spec_float) (neg : bool) : result float :=
  if overflows num den then Throw (out_of_range "stod")
  else if tiny num den && negb (exactly num den x) then Throw (out_of_range "stod")
  else Ok (SF2Prim (sf_set_sign neg x)).

Definition starts_hex (s : string) : option string :=
  match s with
  | String "0" (String x rest) =>
      if Ascii.eqb (lower x) "x" then
        match rest with
        | String c rest' =>
            match hex_val c, c, rest' with
            | Some _, _, _ => Some rest
            | None, "."%char, String c' _ =>
                match hex_val c' with Some _ => Some rest | None => None end
            | _, _, _ => None
            end
        | EmptyString => None
        end
      else None
  | _ => None
  end.

(** [std::stod(s)]: [strtod] on the whole string, the unparsed tail ignored.
    Leading white space and a sign are skipped; then [inf], [nan], a
    hexadecimal or a decimal number.  Throws [std::invalid_argument] when no
    number can be read and [std::out_of_range] on a range error. *)
Definition stod (s : string) : result float :=
  let '(neg, body) := read_sign (skip_space s) in
  match strip_prefix_ci "inf" body, strip_prefix_ci "nan" body with
  | Some _, _ => Ok (SF2Prim (S754_infinity neg))
  | _, Some _ => Ok nan
  | None, None =>
      match starts_hex body with
      | Some digits =>
          let '(m, _, e2) := read_number hex_val 16 4 "p" digits in
          let '(num, den) := scaled m 2 e2 in
          range_checked num den (binary_to_sf m e2) neg
      | None =>
          let '(m, n, e10) := read_number digit_val 10 1 "e" body in
          if n =? 0 then Throw (invalid_argument "stod")
          else
            let '(num, den) := scaled m 10 e10 in
            range_checked num den (decimal_to_sf m e10) neg
      end
  end.

(** ** Decimal output *)

(** The decimal digits of [n >= 0], most significant first. *)
Definition decimal (n : Z) : string :=
  NilZero.string_of_uint (N.to_uint (Z.to_N n)).

(** [itoa(value, str, 10)]: the text written to [str]. *)
Definition itoa (value : Z) : string :=
  if value <? 0 then String "-" (decimal (- value)) else decimal value.

Definition INT_MAX : Z := 2147483647.
Definition INT_MIN : Z := -2147483648.

(** [atoi(s)], that is [(int) strtol(s, NULL, 10)]: white space, an optional
    sign, digits; 0 when there is no digit; clamped to the range of [long]. *)
Definition atoi (s : string) : Z :=
  let '(neg, body) := read_sign (skip_space s) in
  let '(v, _, _) := read_digits digit_val 10 0 0 body in
  let r := if neg then - v else v in
  Z.max INT_MIN (Z.min INT_MAX r).

Fixpoint strip_zeros (s : string) : string :=
  match s with
  | EmptyString => EmptyString
  | String c rest =>
      match strip_zeros rest with
      | EmptyString => if Ascii.eqb c "0" then EmptyString else String c EmptyString
      | kept => String c kept
      end
  end.

Fixpoint zeros (n : nat) : string :=
  match n with
  | O => EmptyString
  | S k => String "0" (zeros k)
  end.

(** A fractional part with its decimal point, nothing when it is empty. *)
Definition with_point (frac : string) : string :=
  match frac with
  | EmptyString => EmptyString
  | _ => String "." frac
  end.

Definition round_half_even (num den : Z) : Z :=
  let '(q, r) := Z.div_eucl num den in
  match 2 * r ?= den with
  | Lt => q
  | Gt => q + 1
  | Eq => if Z.even q then q else q + 1
  end.

(** [floor (log10 (num / den))] for positive [num] and [den]: one less than
    the number of digits of the integer part when there is one; otherwise the
    opposite of the least [k] with [10 ^ k >= den / num], which is the number
    of digits of [ceil (den / num) - 1]. *)
Definition exp10 (num den : Z) : Z :=
  if den <=? num then size (decimal (num / den)) - 1
  else - size (decimal ((den + num - 1) / num - 1)).

(** [num / den] rounded to [p] significant decimal digits: the digits as an
    integer in [10^(p-1), 10^p) and the decimal exponent of the first one. *)
Definition significant (p num den : Z) : Z * Z :=
  let x := exp10 num den in
  let q := if p - 1 <=? x then round_half_even num (den * 10 ^ (x - (p - 1)))
           else round_half_even (num * 10 ^ (p - 1 - x)) den in
  if q =? 10 ^ p then (10 ^ (p - 1), x + 1) else (q, x).

(** The [%g] conversion of a positive number [m * 2 ^ e] at precision [p]:
    scientific notation when the decimal exponent is below -4 or at least
    [p], fixed notation otherwise; trailing zeros of the fraction and a
    trailing point are removed. *)
Definition format_g (p : Z) (m : positive) (e : Z) : string :=
  let '(num, den) := if 0 <=? e then (Zpos m * 2 ^ e, 1) else (Zpos m, 2 ^ (- e)) in
  let '(q, x) := significant p num den in
  let ds := decimal q in
  if (x <? -4) || (p <=? x) then
    string_take 1 ds ++ with_point (strip_zeros (string_drop 1 ds))
      ++ String "e" (String (if x <? 0 then "-" else "+")
           (if Z.abs x <? 10 then String "0" (decimal (Z.abs x)) else decimal (Z.abs x)))
  else if 0 <=? x then
    string_take (Z.to_nat (x + 1)) ds
      ++ with_point (strip_zeros (string_drop (Z.to_nat (x + 1)) ds))
  else
    String "0" (String "." (zeros (Z.to_nat (- x - 1)) ++ strip_zeros ds)).

(** [os << value] for a [float] on a stream in its default state: the [%g]
    conversion at precision 6. *)
Definition format_float (value : float32) : string :=
  match value with
  | S754_zero s => if s then "-0" else "0"
  | S754_infinity s => if s then "-inf" else "inf"
  | S754_nan => "nan"
  | S754_finite s m e =>
      if s then String "-" (format_g 6 m e) else format_g 6 m e
  end.

(** [int(d)]: truncation towards zero; the conversion is undefined ([None])
    when the truncated value does not fit an [int]. *)
Definition double_to_int (d : float) : option Z :=
  match Prim2SF d with
  | S754_zero _ => Some 0
  | S754_finite s m e =>
      let mag := if 0 <=? e then Zpos m * 2 ^ e else Zpos m / 2 ^ (- e) in
      let z := if s then - mag else mag in
      if (INT_MIN <=? z) && (z <=? INT_MAX) then Some z else None
  | _ => None
  end.

(** [double(n)] for an [int]. *)
Definition int_to_double (n : Z) : float :=
  SF2Prim (binary_normalize prec emax n 0 false).

End Cxx.

(* ===================================================================== *)
(** * The register store *)
(* ===================================================================== *)

Module Ptam.

(** Modelled from the spec: the class [SharedMemory] (header [_ptam.h]) is not
    among the sources; only its callers are.  The specification describes it
    as a process-wide store in which each of four value kinds (64-bit floating
    point, unsigned 8-bit integer, unsigned 32-bit integer, text) has its own
    mapping from string keys to values: a set inserts or overwrites, a get
    returns the value last set or a sentinel (zero, the empty string) when the
    key is absent, and a clear removes the key.  [clearData] receives a key
    and no kind, so it removes the key from every mapping. *)
Record SharedMemory : Type := mkSharedMemory {
  doubleData : gmap string float;
  uint8Data : gmap string Z;
  uint32Data : gmap string Z;
  stringData : gmap string string
}.

(** Modelled from the spec: the store at process start; entries are created on
    first write. *)
Definition empty : SharedMemory :=
  {| doubleData := ∅; uint8Data := ∅; uint32Data := ∅; stringData := ∅ |}.

(** Modelled from the spec: [SharedMemory::storeDouble] and the sets of the
    other three kinds insert the key into the mapping of their kind or
    overwrite its value there, and touch no other mapping. *)
Definition storeDouble (key : string) (value : float) (m : SharedMemory) : SharedMemory :=
  {| doubleData := <[key := value]> (doubleData m); uint8Data := uint8Data m;
     uint32Data := uint32Data m; stringData := stringData m |}.

Definition storeUint8 (key : string) (value : Z) (m : SharedMemory) : SharedMemory :=
  {| doubleData := doubleData m; uint8Data := <[key := value mod 2 ^ 8]> (uint8Data m);
     uint32Data := uint32Data m; stringData := stringData m |}.

Definition storeInt (key : string) (value : Z) (m : SharedMemory) : SharedMemory :=
  {| doubleData := doubleData m; uint8Data := uint8Data m;
     uint32Data := <[key := value mod 2 ^ 32]> (uint32Data m); stringData := stringData m |}.

Definition storeString (key : string) (value : string) (m : SharedMemory) : SharedMemory :=
  {| doubleData := doubleData m; uint8Data := uint8Data m;
     uint32Data := uint32Data m; stringData := <[key := value]> (stringData m) |}.

(** Modelled from the spec: [SharedMemory::clearData] removes the key where
    it is present and does nothing where it is absent. *)
Definition clearData (key : string) (m : SharedMemory) : SharedMemory :=
  {| doubleData := delete key (doubleData m); uint8Data := delete key (uint8Data m);
     uint32Data := delete key (uint32Data m); stringData := delete key (stringData m) |}.

(** Modelled from the spec: [SharedMemory::getLastDouble], [getLastInt] and
    [getLastString] return the value last set for the key in the mapping of
    their kind, and the sentinel of the kind (zero, the empty string) when the
    key is absent from it. *)
Definition getLastDouble (key : string) (m : SharedMemory) : float :=
  default 0%float (doubleData m !! key).

Definition getLastUint8 (key : string) (m : SharedMemory) : Z :=
  default 0 (uint8Data m !! key).

Definition getLastInt (key : string) (m : SharedMemory) : Z :=
  default 0 (uint32Data m !! key).

Definition getLastString (key : string) (m : SharedMemory) : string :=
  default EmptyString (stringData m !! key).

(** All four mappings agree on [key] in [m] and [m']. *)
Definition same_register (key : string) (m m' : SharedMemory) : Prop :=
  doubleData m' !! key = doubleData m !! key /\
  uint8Data m' !! key = uint8Data m !! key /\
  uint32Data m' !! key = uint32Data m !! key /\
  stringData m' !! key = stringData m !! key.

(** The store operations a handler performs, as data: a task that is
    scheduled between two of them sees the store as the earlier ones left
    it. *)
Inductive store_op : Type :=
| OpClear (key : string)
| OpStoreDouble (key : string) (value : float)
| OpStoreString (key : string) (value : string).

Definition apply_op (m : SharedMemory) (op : store_op) : SharedMemory :=
  match op with
  | OpClear key => clearData key m
  | OpStoreDouble key value => storeDouble key value m
  | OpStoreString key value => storeString key value m
  end.

Definition apply_ops (m : SharedMemory) (ops : list store_op) : SharedMemory :=
  fold_left apply_op ops m.

(** The stores another task can observe while [ops] are carried out from
    [m]: one per point between two operations, first and last included. *)
Fixpoint observable (m : SharedMemory) (ops : list store_op) : list SharedMemory :=
  match ops with
  | [] => [m]
  | op :: rest => m :: observable (apply_op m op) rest
  end.

End Ptam.

(* ===================================================================== *)
(** * The HTTP handlers of the wireless server *)
(* ===================================================================== *)

Module Broadcast.
Import Cxx Ptam.

Definition MAX_DATA_LEN : Z := 100.

Inductive esp_err_t : Type := ESP_OK | ESP_FAIL.

Inductive http_method : Type :=
  HTTP_DELETE | HTTP_GET | HTTP_HEAD | HTTP_POST | HTTP_PUT.

(** The fields of ESP-IDF's [httpd_req_t] that the handlers read.
    [content_len] is a [size_t], 32 bits wide on the target. *)
Record httpd_req_t : Type := mkReq {
  method : http_method;
  content_len : Z
}.

Definition is_post (req : httpd_req_t) : bool :=
  match method req with HTTP_POST => true | _ => false end.

(** [int total_len = req->content_len]: the conversion of a [size_t] to a
    32-bit [int] keeps the low 32 bits and reads them as two's complement. *)
Definition int_of_size_t (n : Z) : Z := (n + 2 ^ 31) mod 2 ^ 32 - 2 ^ 31.

(** Error codes of [httpd_req_recv]. *)
Inductive sock_err : Type := SOCK_ERR_FAIL | SOCK_ERR_INVALID | SOCK_ERR_TIMEOUT.

Definition HTTPD_SOCK_ERR_FAIL : Z := -1.
Definition HTTPD_SOCK_ERR_INVALID : Z := -2.
Definition HTTPD_SOCK_ERR_TIMEOUT : Z := -3.

(** What one call of [httpd_req_recv] yields: bytes of the body (none when
    the peer closed the connection) or an error. *)
Inductive recv_event : Type :=
| Received (bytes : string)
| SockErr (e : sock_err).

Definition recv_ret (ev : recv_event) : Z :=
  match ev with
  | Received bytes => size bytes
  | SockErr SOCK_ERR_FAIL => HTTPD_SOCK_ERR_FAIL
  | SockErr SOCK_ERR_INVALID => HTTPD_SOCK_ERR_INVALID
  | SockErr SOCK_ERR_TIMEOUT => HTTPD_SOCK_ERR_TIMEOUT
  end.

Definition recv_bytes (ev : recv_event) : string :=
  match ev with
  | Received bytes => bytes
  | SockErr _ => EmptyString
  end.

Inductive http_response : Type :=
| Response (body : string)
| ErrorResponse (status : Z) (msg : string).

(** The states of the flight state machine, as the handlers name them. *)
Inductive State_t : Type := PREP | ARMED | BYPASS.

(** Ways in which a handler leaves defined behaviour. *)
Inductive fault : Type :=
| Uncaught (e : exn)
| VectorOutOfRange (index : Z) (len : Z)
| BufferOverrun
| UndefinedConversion.

Inductive outcome (A : Type) : Type :=
| Done (a : A)
| Fault (f : fault)
| Blocked.
Arguments Done {A} a.
Arguments Fault {A} f.
Arguments Blocked {A}.

(** Everything a handler reads or changes: the register store with the log of
    the operations performed on it, what the socket will deliver, the
    responses sent, the calls made to the state machine, and the hardware
    random number generator. *)
Record world : Type := mkWorld {
  mem : SharedMemory;
  oplog : list store_op;
  rx : list recv_event;
  tx : list http_response;
  sm_calls : list State_t;
  entropy : nat -> Z;
  draws : nat
}.

Definition handler (A : Type) : Type := world -> outcome A * world.

Definition ret {A} (a : A) : handler A := fun w => (Done a, w).

Definition bind {A B} (m : handler A) (k : A -> handler B) : handler B :=
  fun w =>
    match m w with
    | (Done a, w') => k a w'
    | (Fault f, w') => (Fault f, w')
    | (Blocked, w') => (Blocked, w')
    end.

Declare Scope handler_scope.
Delimit Scope handler_scope with handler.
Notation "x <- m ;; k" := (bind m (fun x => k))
  (at level 100, m at next level, right associativity) : handler_scope.
Notation "m ;; k" := (bind m (fun _ => k))
  (at level 100, right associativity) : handler_scope.
Local Open Scope handler_scope.

Definition raise {A} (f : fault) : handler A := fun w => (Fault f, w).

(** One operation on the shared store. *)
Definition sharedMemory (op : store_op) : handler unit :=
  fun w =>
    (Done tt,
     {| mem := apply_op (mem w) op; oplog := oplog w ++ [op]; rx := rx w;
        tx := tx w; sm_calls := sm_calls w; entropy := entropy w;
        draws := draws w |}).

Definition sharedMemory_getLastString (key : string) : handler string :=
  fun w => (Done (getLastString key (mem w)), w).

Definition respond (r : http_response) : handler unit :=
  fun w =>
    (Done tt,
     {| mem := mem w; oplog := oplog w; rx := rx w; tx := tx w ++ [r];
        sm_calls := sm_calls w; entropy := entropy w; draws := draws w |}).

Definition httpd_resp_send (body : string) : handler unit :=
  respond (Response body).

Definition HTTPD_404_NOT_FOUND : Z := 404.

Definition httpd_resp_send_err (status : Z) (msg : string) : handler unit :=
  respond (ErrorResponse status msg).

(** [STATE::updateState]: the class is not among the sources, so only the
    call is recorded, in [sm_calls].  What the transition then writes (the
    code and the label of the state, by section 4.2 of the specification) is
    not part of this model: after a call, [mem] and [oplog] hold what the
    handler itself has done to the store, not what the state machine has. *)
Definition updateState (s : State_t) : handler unit :=
  fun w =>
    (Done tt,
     {| mem := mem w; oplog := oplog w; rx := rx w; tx := tx w;
        sm_calls := sm_calls w ++ [s]; entropy := entropy w; draws := draws w |}).

(** [esp_random()]: the next 32-bit word of the hardware generator. *)
Definition esp_random : handler Z :=
  fun w =>
    (Done (entropy w (draws w) mod 2 ^ 32),
     {| mem := mem w; oplog := oplog w; rx := rx w; tx := tx w;
        sm_calls := sm_calls w; entropy := entropy w; draws := S (draws w) |}).

(** [values[i]] on a [std::vector<double>]: defined inside the vector only. *)
Definition at_index (values : list float) (i : nat) : handler float :=
  match values !! i with
  | Some v => ret v
  | None => raise (VectorOutOfRange (Z.of_nat i) (Z.of_nat (length values)))
  end.

(** [x != 0] on doubles. *)
Definition nonzero (x : float) : bool := negb (PrimFloat.eqb x 0).

(** ** Packing and decoding *)

Definition packData (id1 : string) (value1 : float32)
                    (id2 : string) (value2 : float32)
                    (id3 : string) (value3 : float32)
                    (id4 : string) (value4 : float32) : string :=
  id1 ++ format_float value1 ++ "_" ++ id2 ++ format_float value2 ++ "_"
      ++ id3 ++ format_float value3 ++ "_" ++ id4 ++ format_float value4.

Definition numeric_chars : string := "0123456789.-".

Definition not_numeric (c : ascii) : bool := negb (mem_char c numeric_chars).

(** A character that neither starts a number nor separates two items. *)
Definition is_id_char (c : ascii) : bool := not_numeric c && not_underscore c.

(** One turn of the decoding loop on an item read by [getline]. *)
Definition extract_item (item : string) : result (string * float) :=
  match substr item 0 (find_first_of item numeric_chars) with
  | Throw e => Throw e
  | Ok id =>
      match substr item (find_first_of item numeric_chars) npos with
      | Throw e => Throw e
      | Ok text =>
          match stod text with
          | Throw e => Throw e
          | Ok value => Ok (id, value)
          end
      end
  end.

(** The loop [while (getline(ss, item, '_'))]; every successful [getline]
    consumes a character, so [fuel] above the length of [ss] is never used
    up. *)
Fixpoint extract_loop (fuel : nat) (ss : string)
    (ids : list string) (values : list float)
  : result (list string * list float) :=
  match fuel with
  | O => Ok (ids, values)
  | S f =>
      match getline ss "_" with
      | None => Ok (ids, values)
      | Some (item, ss') =>
          match extract_item item with
          | Throw e => Throw e
          | Ok (id, value) => extract_loop f ss' (ids ++ [id]) (values ++ [value])
          end
      end
  end.

Definition extractValuesAndIds (data : string)
    (ids : list string) (values : list float)
  : result (list string * list float) :=
  extract_loop (S (String.length data)) data ids values.

(** The items of a wire message, joined by the separator. *)
Fixpoint join (items : list string) : string :=
  match items with
  | [] => EmptyString
  | [a] => a
  | a :: rest => a ++ String "_" (join rest)
  end.

(** What the decoding loop computes on a list of items. *)
Fixpoint extract_items (items : list string)
    (ids : list string) (values : list float)
  : result (list string * list float) :=
  match items with
  | [] => Ok (ids, values)
  | item :: rest =>
      match extract_item item with
      | Throw e => Throw e
      | Ok (id, value) => extract_items rest (ids ++ [id]) (values ++ [value])
      end
  end.

(** An item that [getline] reads back as it is: not empty, no separator. *)
Definition plain_item (item : string) : Prop :=
  item <> EmptyString /\ all_chars not_underscore item = true.

(** ** Receiving a body *)

Inductive recv_status : Type :=
| RecvDone (received_data : string)
| RecvFail
| RecvOverrun
| RecvBlocked.

(** The loop [while (received < total_len)] over what the socket delivers;
    [received] is the length of what has been written to the buffer.  A
    timeout is retried, any other non-positive result ends the request; there
    is no way out while the socket delivers nothing. *)
Fixpoint recv_loop (total_len : Z) (received_data : string)
    (pending : list recv_event) : recv_status * list recv_event :=
  match pending with
  | [] =>
      if size received_data <? total_len then (RecvBlocked, [])
      else (RecvDone received_data, [])
  | ev :: rest =>
      if size received_data <? total_len then
        let cur_len := recv_ret ev in
        if cur_len <=? 0 then
          if cur_len =? HTTPD_SOCK_ERR_TIMEOUT
          then recv_loop total_len received_data rest
          else (RecvFail, rest)
        else if MAX_DATA_LEN <? size received_data + cur_len
        then (RecvOverrun, rest)
        else recv_loop total_len (received_data ++ recv_bytes ev) rest
      else (RecvDone received_data, pending)
  end.

(** The receive loop followed by [received_data[received] = 0]: the buffer
    on success, [None] when the handler has to return [ESP_FAIL]. *)
Definition receive (total_len : Z) : handler (option string) :=
  fun w =>
    let '(status, rest) := recv_loop total_len EmptyString (rx w) in
    let w' := {| mem := mem w; oplog := oplog w; rx := rest; tx := tx w;
                 sm_calls := sm_calls w; entropy := entropy w; draws := draws w |} in
    match status with
    | RecvDone received_data =>
        if MAX_DATA_LEN <=? size received_data then (Fault BufferOverrun, w')
        else (Done (Some received_data), w')
    | RecvFail => (Done None, w')
    | RecvOverrun => (Fault BufferOverrun, w')
    | RecvBlocked => (Blocked, w')
    end.

(** [extractValuesAndIds(data, ids, values)] on two empty vectors; an
    exception is not caught by any handler. *)
Definition decode (data : string) : handler (list string * list float) :=
  match extractValuesAndIds data [] [] with
  | Ok r => ret r
  | Throw e => raise (Uncaught e)
  end.

(** [if (v != 0) { clearData(key); storeDouble(key, v); }] *)
Definition update_register (key : string) (v : float) : handler unit :=
  if nonzero v then
    sharedMemory (OpClear key) ;; sharedMemory (OpStoreDouble key v)
  else ret tt.

(** ** Telemetry *)

#[local] Set Warnings "-inexact-float".

(** [handle_GPS_request]: four constants, narrowed from [double] to the
    [float] parameters of [packData]. *)
Definition handle_GPS_request (req : httpd_req_t) : handler esp_err_t :=
  if is_post req then
    let packed_data :=
      packData "LAT" (double_to_float 56) "LONG" (double_to_float 78.50)
               "SAT" (double_to_float 72.34) "ALT" (double_to_float 48.2) in
    httpd_resp_send packed_data ;;
    ret ESP_OK
  else
    httpd_resp_send_err HTTPD_404_NOT_FOUND "Not Found" ;;
    ret ESP_OK.

(** ** Arm token *)

(** The two methods of [CONTROLLER_TASKS] that the token handler calls.  The
    class is not among the sources, so what the methods return is a parameter
    of the handler. *)
Record CONTROLLER_TASKS : Type := mkTasks {
  verifyFlightConfiguration : Z;
  generateRandomAlphanumericToken : Z -> Z -> Z -> string
}.

(** Modelled from the spec: [CONTROLLER_TASKS::generateRandomAlphanumericToken]
    is not among the sources.  The specification says that it derives a
    fixed-length alphanumeric token from the two seeds: the token has the
    requested length and consists of letters and digits. *)
Definition token_contract (cobj : CONTROLLER_TASKS) : Prop :=
  forall seed1 seed2 len, 0 <= len ->
    size (generateRandomAlphanumericToken cobj seed1 seed2 len) = len /\
    all_chars is_alnum (generateRandomAlphanumericToken cobj seed1 seed2 len) = true.

Definition handle_arm_token_request (cobj : CONTROLLER_TASKS) (req : httpd_req_t)
  : handler esp_err_t :=
  if is_post req then
    seed1 <- esp_random ;;
    seed2 <- esp_random ;;
    (if negb (verifyFlightConfiguration cobj =? 0) then
       let packed_data := generateRandomAlphanumericToken cobj seed1 seed2 6 in
       sharedMemory (OpClear "arm_token") ;;
       sharedMemory (OpStoreString "arm_token" packed_data) ;;
       httpd_resp_send packed_data
     else ret tt) ;;
    ret ESP_OK
  else
    httpd_resp_send_err HTTPD_404_NOT_FOUND "Not Found" ;;
    ret ESP_OK.

(** ** Command ingestion *)

(** The request is a POST under the cap whose body the socket delivers in
    full: the receive loop ends with [received_data = buf], leaving [rest]
    unread, and the terminating NUL fits the buffer. *)
Definition body_received (req : httpd_req_t) (w : world)
    (buf : string) (rest : list recv_event) : Prop :=
  method req = HTTP_POST /\
  int_of_size_t (content_len req) < MAX_DATA_LEN /\
  recv_loop (int_of_size_t (content_len req)) EmptyString (rx w) = (RecvDone buf, rest) /\
  size buf < MAX_DATA_LEN.

(** The store after [update_register key v]. *)
Definition register_after (key : string) (v : float) (m : SharedMemory) : SharedMemory :=
  if nonzero v then storeDouble key v (clearData key m) else m.

(** The store after [update_register] on each key with the value at the
    same position, in order. *)
Definition registers_after (keys : list string) (values : list float)
    (m : SharedMemory) : SharedMemory :=
  fold_left (fun acc kv => register_after (fst kv) (snd kv) acc) (zip keys values) m.

Definition SWP_registers : list string := ["TLat"; "TLong"; "TAlt"; "CAlt"; "TVel"].
Definition SYS_registers : list string := ["WingFL"; "WingFR"; "WingRL"; "WingRR"; "THR"].

Definition handle_SWP_incoming (req : httpd_req_t) : handler esp_err_t :=
  if is_post req then
    let total_len := int_of_size_t (content_len req) in
    if MAX_DATA_LEN <=? total_len then ret ESP_FAIL
    else
      r <- receive total_len ;;
      match r with
      | None => ret ESP_FAIL
      | Some received_data =>
          decoded <- decode (c_str received_data) ;;
          let values := snd decoded in
          (* ESP_LOGI("TAG", "%f", values[0]) *)
          logged <- at_index values 0 ;;
          v0 <- at_index values 0 ;; update_register "TLat" v0 ;;
          v1 <- at_index values 1 ;; update_register "TLong" v1 ;;
          v2 <- at_index values 2 ;; update_register "TAlt" v2 ;;
          v3 <- at_index values 3 ;; update_register "CAlt" v3 ;;
          v4 <- at_index values 4 ;; update_register "TVel" v4 ;;
          ret ESP_OK
      end
  else
    httpd_resp_send_err HTTPD_404_NOT_FOUND "Not Found" ;;
    ret ESP_OK.

Definition handle_SYS_incoming (req : httpd_req_t) : handler esp_err_t :=
  if is_post req then
    let total_len := int_of_size_t (content_len req) in
    if MAX_DATA_LEN <=? total_len then ret ESP_FAIL
    else
      r <- receive total_len ;;
      match r with
      | None => ret ESP_FAIL
      | Some received_data =>
          decoded <- decode (c_str received_data) ;;
          let values := snd decoded in
          (* ESP_LOGI("TAG", "%f", values[0]) *)
          logged <- at_index values 0 ;;
          v0 <- at_index values 0 ;; update_register "WingFL" v0 ;;
          v1 <- at_index values 1 ;; update_register "WingFR" v1 ;;
          v2 <- at_index values 2 ;; update_register "WingRL" v2 ;;
          v3 <- at_index values 3 ;; update_register "WingRR" v3 ;;
          v4 <- at_index values 4 ;; update_register "THR" v4 ;;
          ret ESP_OK
      end
  else
    httpd_resp_send_err HTTPD_404_NOT_FOUND "Not Found" ;;
    ret ESP_OK.

(** The [case] labels of the switch in [handle_STATE_incoming]. *)
Definition state_of_code (n : Z) : option State_t :=
  match n with
  | 1 => Some PREP
  | 2 => Some ARMED
  | 3 => Some BYPASS
  | _ => None
  end.

(** [switch (int(v)) { case 1: ... case 2: ... case 3: ... }] *)
Definition switch_state (v : float) : handler unit :=
  match double_to_int v with
  | None => raise UndefinedConversion
  | Some n =>
      match state_of_code n with
      | Some s => updateState s
      | None => ret tt
      end
  end.

Definition handle_STATE_incoming (req : httpd_req_t) : handler esp_err_t :=
  if is_post req then
    let total_len := int_of_size_t (content_len req) in
    if MAX_DATA_LEN <=? total_len then ret ESP_FAIL
    else
      r <- receive total_len ;;
      match r with
      | None => ret ESP_FAIL
      | Some received_data =>
          decoded <- decode (c_str received_data) ;;
          let values := snd decoded in
          v0 <- at_index values 0 ;;
          (if nonzero v0 then switch_state v0 else ret tt) ;;
          (* if (values[1] != 0) {} ... if (values[4] != 0) {} *)
          v1 <- at_index values 1 ;;
          v2 <- at_index values 2 ;;
          v3 <- at_index values 3 ;;
          v4 <- at_index values 4 ;;
          ret ESP_OK
      end
  else
    httpd_resp_send_err HTTPD_404_NOT_FOUND "Not Found" ;;
    ret ESP_OK.

(** ** Token comparison *)

(** The four store operations of the branch that arms the vehicle. *)
Definition arm_ops : list store_op :=
  [OpClear "state"; OpStoreDouble "state" 2;
   OpClear "stateDescript"; OpStoreString "stateDescript" "ARMED"].

Definition handle_AUTH_incoming (req : httpd_req_t) : handler esp_err_t :=
  if is_post req then
    let total_len := int_of_size_t (content_len req) in
    if MAX_DATA_LEN <=? total_len then ret ESP_FAIL
    else
      r <- receive total_len ;;
      match r with
      | None => ret ESP_FAIL
      | Some received_data =>
          token_saved <- sharedMemory_getLastString "arm_token" ;;
          (if negb (String.eqb (c_str received_data) token_saved) then
             httpd_resp_send "STATE-CHANGE-FAIL"
           else
             sharedMemory (OpClear "state") ;;
             sharedMemory (OpStoreDouble "state" 2) ;;
             sharedMemory (OpClear "stateDescript") ;;
             sharedMemory (OpStoreString "stateDescript" "ARMED") ;;
             httpd_resp_send "STATE-CHANGE-SUCCESS") ;;
          ret ESP_OK
      end
  else
    httpd_resp_send_err HTTPD_404_NOT_FOUND "Not Found" ;;
    ret ESP_OK.

(** The store operations that a handler adds to the log when run from [w]. *)
Definition performed {A} (h : handler A) (w : world) : list store_op :=
  drop (length (oplog w)) (oplog (snd (h w))).

(** A store is consistent about arming when the code 2 in [state] comes
    with the label ["ARMED"] in [stateDescript]. *)
Definition armed_consistent (m : SharedMemory) : Prop :=
  getLastDouble "state" m = 2%float -> getLastString "stateDescript" m = "ARMED".

(** ** The logger's view of the flight state *)

(** The two registers that [Logger::EVENT_LOG_SSL] and [EVENT_LOG_SDD] query
    for the machine state: the label, and the code with an integer get. *)
Definition logged_state (m : SharedMemory) : string * Z :=
  (getLastString "stateDescript" m, getLastInt "state" m).

(** ** Worlds and collaborators to run the handlers in *)

(** A world with store [m] and socket [pending] in which nothing has
    happened yet; the generator yields zeros. *)
Definition quiet (m : SharedMemory) (pending : list recv_event) : world :=
  {| mem := m; oplog := []; rx := pending; tx := []; sm_calls := [];
     entropy := fun _ => 0; draws := 0%nat |}.

(** A store in which a token has been issued and the machine is in [PREP],
    the code kept in the integer mapping. *)
Definition issued_store : SharedMemory :=
  storeString "stateDescript" "PREP"
    (storeInt "state" 1 (storeString "arm_token" "ABC123" Ptam.empty)).

(** The same with the code kept in the double mapping, where the AUTH
    handler writes it. *)
Definition prep_store : SharedMemory :=
  storeString "stateDescript" "PREP"
    (storeDouble "state" 1 (storeString "arm_token" "ABC123" Ptam.empty)).

Definition prep_command : string := "S1_A0_B0_C0_D0".

Definition waypoint_command : string := "LAT51.5_LONG0_ALT120_CALT0_VEL-7".

Definition waypoint_store : SharedMemory :=
  storeDouble "TLong" 13.25 (storeDouble "TLat" 48 Ptam.empty).

Fixpoint digits_from (n : nat) (start step : Z) : string :=
  match n with
  | O => EmptyString
  | S k => String (digit_char ((start mod 10 + 10) mod 10))
             (digits_from k (start + step) step)
  end.

(** A stand-in for [CONTROLLER_TASKS] that meets [token_contract]: the
    configuration check is the given value, the token a run of digits drawn
    from the seeds. *)
Definition digit_tasks (check : Z) : CONTROLLER_TASKS :=
  {| verifyFlightConfiguration := check;
     generateRandomAlphanumericToken :=
       fun seed1 seed2 len => digits_from (Z.to_nat len) seed1 (seed2 + 1) |}.

End Broadcast.

(* ===================================================================== *)
(** * The deprecated array-based store *)
(* ===================================================================== *)

Module LegacyPtam.
Import Cxx.

(** A [char*] is an address; the heap maps the addresses of C strings to
    their text.  Two pointers are equal when the addresses are, whatever the
    text they point to. *)
Definition ptr : Type := Z.
Definition NULL : ptr := 0.

Inductive fault : Type :=
| OutOfBounds (index : Z)
| IndeterminatePointer
| InvalidPointer (p : ptr)
| UndefinedConversion
| Endless.

Inductive outcome (A : Type) : Type :=
| Done (a : A)
| Fault (f : fault).
Arguments Done {A} a.
Arguments Fault {A} f.

(** One of the four static arrays with its fill counter (a [uint8_t]). *)
Record table : Type := mkTable {
  slots : list ptr;
  LEN : Z
}.

Record memory : Type := mkMemory {
  heap : gmap Z string;
  floatingP : table;
  eight_bit : table;
  thirtytwo_bit : table;
  character : table
}.

Section Arrays.

(** The macro [length] of [temp_access_mem.h], the size of each array; the
    header is not among the sources. *)
Variable length : Z.

(** Static storage is zero-initialised. *)
Definition fresh_table : table :=
  {| slots := replicate (Z.to_nat length) NULL; LEN := 0 |}.

Definition fresh : memory :=
  {| heap := ∅; floatingP := fresh_table; eight_bit := fresh_table;
     thirtytwo_bit := fresh_table; character := fresh_table |}.

(** [arr[i] = p] for an [int] index [i]. *)
Definition write_slot (i : Z) (p : ptr) (arr : list ptr) : outcome (list ptr) :=
  if (0 <=? i) && (i <? length) then Done (<[Z.to_nat i := p]> arr)
  else Fault (OutOfBounds i).

(** [arr[LEN - 2] = baseID; arr[LEN - 1] = value; LEN += 2;] *)
Definition add_pair (baseID value : ptr) (t : table) : outcome table :=
  match write_slot (LEN t - 2) baseID (slots t) with
  | Fault f => Fault f
  | Done arr1 =>
      match write_slot (LEN t - 1) value arr1 with
      | Fault f => Fault f
      | Done arr2 => Done {| slots := arr2; LEN := (LEN t + 2) mod 2 ^ 8 |}
      end
  end.

(** The loop [for (uint8_t i = 0; i < length; i += 2)] that looks for a slot
    holding the pointer [baseID] and takes the pointer next to it.  After 128
    turns [i] is 0 again and the loop repeats itself. *)
Fixpoint scan_from (fuel : nat) (arr : list ptr) (baseID : ptr) (i : Z)
  : outcome (option ptr) :=
  match fuel with
  | O => Fault Endless
  | S f =>
      if i <? length then
        match arr !! Z.to_nat i with
        | None => Fault (OutOfBounds i)
        | Some p =>
            if p =? baseID then
              match arr !! Z.to_nat (i + 1) with
              | Some q => Done (Some q)
              | None => Fault (OutOfBounds (i + 1))
              end
            else scan_from f arr baseID ((i + 2) mod 2 ^ 8)
        end
      else Done None
  end.

(** The pointer left in [temp_data] by the loop; the variable is not
    initialised, so it holds nothing defined when no slot matched. *)
Definition find_data (t : table) (baseID : ptr) : outcome ptr :=
  match scan_from 128 (slots t) baseID 0 with
  | Done (Some q) => Done q
  | Done None => Fault IndeterminatePointer
  | Fault f => Fault f
  end.

(** [atoi(temp_data)] *)
Definition atoi_at (h : gmap Z string) (p : ptr) : outcome Z :=
  match h !! p with
  | Some text => Done (atoi text)
  | None => Fault (InvalidPointer p)
  end.

Definition set_floatingP (t : table) (h : gmap Z string) (st : memory) : memory :=
  {| heap := h; floatingP := t; eight_bit := eight_bit st;
     thirtytwo_bit := thirtytwo_bit st; character := character st |}.

Definition set_eight_bit (t : table) (h : gmap Z string) (st : memory) : memory :=
  {| heap := h; floatingP := floatingP st; eight_bit := t;
     thirtytwo_bit := thirtytwo_bit st; character := character st |}.

Definition set_thirtytwo_bit (t : table) (h : gmap Z string) (st : memory) : memory :=
  {| heap := h; floatingP := floatingP st; eight_bit := eight_bit st;
     thirtytwo_bit := t; character := character st |}.

Definition set_character (t : table) (st : memory) : memory :=
  {| heap := heap st; floatingP := floatingP st; eight_bit := eight_bit st;
     thirtytwo_bit := thirtytwo_bit st; character := t |}.

(** [PTAM_ADD_BASE_DOUBLE(baseID, data)].  The local [converted] is never
    initialised, so that the write of [itoa] through it is undefined whatever
    it holds.  The three functions that convert are followed past that write
    in the run that is kindest to them: [converted] is the address the
    pointer happens to hold, taken to be that of memory to which [itoa] may
    write the digits of [int(data)].  A [Done] of these functions is
    therefore a run that the language does not promise; what the code does
    wrong after the write shows in it.  The result is [sizeof(data)]. *)
Definition PTAM_ADD_BASE_DOUBLE (baseID : ptr) (data : float) (converted : ptr)
    (st : memory) : outcome (Z * memory) :=
  match double_to_int data with
  | None => Fault UndefinedConversion
  | Some n =>
      let h := <[converted := itoa n]> (heap st) in
      match add_pair baseID converted (floatingP st) with
      | Fault f => Fault f
      | Done t => Done (8, set_floatingP t h st)
      end
  end.

Definition PTAM_ADD_BASE_8 (baseID : ptr) (data : Z) (converted : ptr)
    (st : memory) : outcome (Z * memory) :=
  let h := <[converted := itoa (data mod 2 ^ 8)]> (heap st) in
  match add_pair baseID converted (eight_bit st) with
  | Fault f => Fault f
  | Done t => Done (1, set_eight_bit t h st)
  end.

Definition PTAM_ADD_BASE_32 (baseID : ptr) (data : Z) (converted : ptr)
    (st : memory) : outcome (Z * memory) :=
  let h := <[converted := itoa ((data + 2 ^ 31) mod 2 ^ 32 - 2 ^ 31)]> (heap st) in
  match add_pair baseID converted (thirtytwo_bit st) with
  | Fault f => Fault f
  | Done t => Done (4, set_thirtytwo_bit t h st)
  end.

Definition PTAM_ADD_BASE_CHAR (baseID data : ptr) (st : memory)
  : outcome (Z * memory) :=
  match add_pair baseID data (character st) with
  | Fault f => Fault f
  | Done t => Done (4, set_character t st)
  end.

Definition PTAM_RETRIEVE_BASE_CHAR (baseID : ptr) (st : memory) : outcome ptr :=
  find_data (character st) baseID.

Definition PTAM_RETRIEVE_BASE_8 (baseID : ptr) (st : memory) : outcome Z :=
  match find_data (eight_bit st) baseID with
  | Fault f => Fault f
  | Done temp_data =>
      match atoi_at (heap st) temp_data with
      | Fault f => Fault f
      | Done n => Done (n mod 2 ^ 8)
      end
  end.

Definition PTAM_RETRIEVE_BASE_32 (baseID : ptr) (st : memory) : outcome Z :=
  match find_data (thirtytwo_bit st) baseID with
  | Fault f => Fault f
  | Done temp_data =>
      match atoi_at (heap st) temp_data with
      | Fault f => Fault f
      | Done n => Done (n mod 2 ^ 32)
      end
  end.

Definition PTAM_RETRIEVE_BASE_DOUBLE (baseID : ptr) (st : memory) : outcome float :=
  match find_data (floatingP st) baseID with
  | Fault f => Fault f
  | Done temp_data =>
      match atoi_at (heap st) temp_data with
      | Fault f => Fault f
      | Done n => Done (int_to_double n)
      end
  end.

(** The store in which one pair has been added to the floating-point table,
    had the writes below the array been harmless: the counter is 2 and no
    slot is filled. *)
Definition after_first_add (h : gmap Z string) : memory :=
  {| heap := h; floatingP := {| slots := replicate (Z.to_nat length) NULL; LEN := 2 |};
     eight_bit := fresh_table; thirtytwo_bit := fresh_table;
     character := fresh_table |}.

End Arrays.

End LegacyPtam.

(* ===================================================================== *)
(** * Searching, reading and printing text *)
(* ===================================================================== *)

Module Text.
Import Cxx.

Definition LF : string := String "010" EmptyString.
Definition TAB : string := String "009" EmptyString.

Definition not_LF (c : ascii) : bool := negb (Ascii.eqb c "010").

(** [pat] is a prefix of [s]. *)
Fixpoint starts_with (pat s : string) : bool :=
  match pat, s with
  | EmptyString, _ => true
  | String a p, String b r => if Ascii.eqb a b then starts_with p r else false
  | String _ _, EmptyString => false
  end.

(** Where [pat] first occurs in [s]. *)
Fixpoint index_of (pat s : string) : option nat :=
  if starts_with pat s then Some O
  else match s with
       | EmptyString => None
       | String _ rest => option_map S (index_of pat rest)
       end.

(** [s.find(pat, pos)] *)
Definition find (s pat : string) (pos : Z) : Z :=
  if size s <? pos then npos
  else match index_of pat (string_drop (Z.to_nat pos) s) with
       | Some k => pos + Z.of_nat k
       | None => npos
       end.

(** [pat] and [s] differ at a position that both have: whatever follows
    [s], [pat] is not a prefix of it. *)
Fixpoint diverges (pat s : string) : bool :=
  match pat, s with
  | String a p, String b r => if Ascii.eqb a b then diverges p r else true
  | _, _ => false
  end.

(** No occurrence of [pat] can begin inside [a], whatever follows [a]. *)
Fixpoint clear_of (pat a : string) : bool :=
  match a with
  | EmptyString => true
  | String _ rest => diverges pat a && clear_of pat rest
  end.

(** In a text that goes on with [pat] after [pre], the first occurrence of
    [pat] is the one after [pre]. *)
Definition first_at (pat pre : string) : Prop :=
  forall tail, index_of pat (pre ++ pat ++ tail) = Some (String.length pre).

(** [std::stoul] and [std::stoull] in base 10, that is [strtoul] and
    [strtoull]: white space, an optional sign, digits; [std::invalid_argument]
    when there is no digit, [std::out_of_range] when the digits exceed the
    type, and a minus sign negates in the unsigned type.  [unsigned long] has
    32 bits on the target. *)
Definition stou (bits : Z) (what : string) (s : string) : result Z :=
  let '(neg, body) := read_sign (skip_space s) in
  let '(v, n, _) := read_digits digit_val 10 0 0 body in
  if n =? 0 then Throw (invalid_argument what)
  else if 2 ^ bits <=? v then Throw (out_of_range what)
  else Ok (if neg then (2 ^ bits - v) mod 2 ^ bits else v).

Definition stoul : string -> result Z := stou 32 "stoul".
Definition stoull : string -> result Z := stou 64 "stoull".

(** The conversion of a 32-bit unsigned value to [int]. *)
Definition int_of_unsigned (n : Z) : Z := (n + 2 ^ 31) mod 2 ^ 32 - 2 ^ 31.

(** [std::to_string] on an [int] and on a [uint64_t]. *)
Definition to_string_int (n : Z) : string := itoa n.
Definition to_string_uint64 (n : Z) : string := decimal n.

Definition pad_left (width : nat) (s : string) : string :=
  zeros (width - String.length s) ++ s.

(** ["%f"] on the finite double [m * 2^e]: six digits after the point,
    rounded to nearest, ties to even. *)
Definition format_f (m : positive) (e : Z) : string :=
  let '(num, den) := if 0 <=? e then (Zpos m * 2 ^ e, 1) else (Zpos m, 2 ^ (- e)) in
  let q := round_half_even (num * 1000000) den in
  decimal (q / 1000000) ++ String "." (pad_left 6 (decimal (q mod 1000000))).

(** [std::to_string] on a [double]. *)
Definition to_string_double (d : float) : string :=
  match Prim2SF d with
  | S754_zero s => if s then "-0.000000" else "0.000000"
  | S754_infinity s => if s then "-inf" else "inf"
  | S754_nan => "nan"
  | S754_finite s m e => if s then String "-" (format_f m e) else format_f m e
  end.

(** The number that a digit sequence denotes after the digits of [acc]. *)
Fixpoint uint_value (d : Decimal.uint) (acc : Z) : Z :=
  match d with
  | Decimal.Nil => acc
  | Decimal.D0 r => uint_value r (10 * acc + 0)
  | Decimal.D1 r => uint_value r (10 * acc + 1)
  | Decimal.D2 r => uint_value r (10 * acc + 2)
  | Decimal.D3 r => uint_value r (10 * acc + 3)
  | Decimal.D4 r => uint_value r (10 * acc + 4)
  | Decimal.D5 r => uint_value r (10 * acc + 5)
  | Decimal.D6 r => uint_value r (10 * acc + 6)
  | Decimal.D7 r => uint_value r (10 * acc + 7)
  | Decimal.D8 r => uint_value r (10 * acc + 8)
  | Decimal.D9 r => uint_value r (10 * acc + 9)
  end.

(** The text does not go on with a digit. *)
Definition no_leading_digit (s : string) : Prop :=
  match s with
  | EmptyString => True
  | String c _ => digit_val c = None
  end.

End Text.

(* ===================================================================== *)
(** * The event logger *)
(* ===================================================================== *)

Module Logger.
Import Cxx Ptam Text.

(** The lines that the three kinds of event have in common.  [timer] is what
    [esp_timer_get_time()] returned, an [int64_t] that the caller keeps in a
    [uint64_t]. *)
Definition log_head (log_ev ID : string) (timer : Z) : string :=
  (LF ++ LF ++ log_ev ++ ":" ++ LF)
  ++ (TAB ++ "{" ++ LF)
  ++ (TAB ++ TAB ++ "ID: " ++ ID ++ LF)
  ++ (TAB ++ TAB ++ "TIME: " ++ to_string_uint64 (timer mod 2 ^ 64) ++ LF).

Definition log_foot : string := TAB ++ "}" ++ LF ++ LF.

(** [int state_data = obj.getLastInt("state")] *)
Definition state_data (obj : SharedMemory) : Z :=
  int_of_unsigned (getLastInt "state" obj).

Definition EVENT_LOG_SDD (obj : SharedMemory) (timer : Z) : string :=
  let ID := getLastString "stateDescript" obj in
  let FLS := getLastDouble "WingFL" obj in
  let FRS := getLastDouble "WingFR" obj in
  let RLS := getLastDouble "WingRL" obj in
  let RRS := getLastDouble "WingRR" obj in
  log_head "LOG_SDD" ID timer
  ++ (TAB ++ TAB ++ "DATA: " ++ to_string_int (state_data obj) ++ LF)
  ++ (TAB ++ TAB ++ "MACHINE-STATE: " ++ to_string_int (state_data obj) ++ LF)
  ++ (TAB ++ TAB ++ "WING-FL-POS: " ++ to_string_double FLS ++ LF)
  ++ (TAB ++ TAB ++ "WING-FR-POS: " ++ to_string_double FRS ++ LF)
  ++ (TAB ++ TAB ++ "WING-RL-POS: " ++ to_string_double RLS ++ LF)
  ++ (TAB ++ TAB ++ "WING-RR-POS: " ++ to_string_double RRS ++ LF)
  ++ log_foot.

Definition EVENT_LOG_SSL (obj : SharedMemory) (timer : Z) : string :=
  let state := getLastString "stateDescript" obj in
  let ID := "LOG_SSL_ID" in
  log_head "LOG_SSL" ID timer
  ++ (TAB ++ TAB ++ "MACHINE-STATE: " ++ to_string_int (state_data obj) ++ LF)
  ++ (TAB ++ TAB ++ "STATE: " ++ state ++ LF)
  ++ log_foot.

(** [exception_type] is the value of the enumerator: the enumeration is
    declared in a header that is not among the sources, and the log prints
    [std::to_string(exception_type)].  The name that the [switch] selects is
    kept in a local that is not read again. *)
Definition EVENT_LOG_SEL (obj : SharedMemory) (timer : Z)
    (ID : string) (exception_type : Z) (additional_info : string) : string :=
  log_head "LOG_SEL" ID timer
  ++ (TAB ++ TAB ++ "MACHINE-STATE: " ++ to_string_int (state_data obj) ++ LF)
  ++ (TAB ++ TAB ++ "EXCEPTION-TYPE: " ++ to_string_int exception_type ++ LF)
  ++ (TAB ++ TAB ++ "INFO: " ++ additional_info ++ LF)
  ++ log_foot.

(** The text between the end of the first [marker] and the next line feed,
    as the four parsers cut it out; [skip] is what they add to the position
    of the marker. *)
Definition field (formatted_data marker : string) (skip : Z)
  : result (option string) :=
  let start := find formatted_data marker 0 in
  if negb (start =? npos) then
    let start := (start + skip) mod 2 ^ 32 in
    let end_ := find formatted_data LF start in
    if negb (end_ =? npos) then
      match substr formatted_data start (end_ - start) with
      | Ok text => Ok (Some text)
      | Throw e => Throw e
      end
    else Ok None
  else Ok None.

Definition get_event_id (formatted_data : string) : result string :=
  match field formatted_data "ID: " 4 with
  | Ok (Some ID) => Ok ID
  | Ok None => Ok EmptyString
  | Throw e => Throw e
  end.

Definition get_event_time (formatted_data : string) : result Z :=
  match field formatted_data "TIME: " 6 with
  | Ok (Some timeStr) => stoull timeStr
  | Ok None => Ok 0
  | Throw e => Throw e
  end.

Definition get_event_state (formatted_data : string) : result Z :=
  match field formatted_data "MACHINE-STATE: " 15 with
  | Ok (Some stateStr) =>
      match stoul stateStr with
      | Ok n => Ok (n mod 2 ^ 8)
      | Throw e => Throw e
      end
  | Ok None => Ok 0
  | Throw e => Throw e
  end.

Definition get_event_exptn (formatted_data : string) : result Z :=
  match field formatted_data "EXCEPTION-TYPE: " 16 with
  | Ok (Some stateStr) =>
      match stoul stateStr with
      | Ok n => Ok (n mod 2 ^ 8)
      | Throw e => Throw e
      end
  | Ok None => Ok 0
  | Throw e => Throw e
  end.

(** The text up to the identifier, and from the identifier to the time, in
    the three kinds of event. *)
Definition before_ID (log_ev : string) : string :=
  LF ++ LF ++ log_ev ++ ":" ++ LF ++ TAB ++ "{" ++ LF ++ TAB ++ TAB.

Definition before_TIME (log_ev ID : string) : string :=
  (before_ID log_ev ++ "ID: ") ++ ID ++ String "010" ((TAB ++ TAB) ++ EmptyString).

Definition before_STATE (log_ev ID : string) (timer : Z) : string :=
  (before_ID log_ev ++ "ID: ") ++ ID
  ++ String "010" ((TAB ++ TAB ++ "TIME: ") ++ decimal (timer mod 2 ^ 64)
                   ++ (LF ++ TAB ++ TAB) ++ EmptyString).

End Logger.

(* ===================================================================== *)
(** * The other endpoints of the wireless server *)
(* ===================================================================== *)

Module Endpoints.
Import Cxx Ptam Broadcast.
Local Open Scope handler_scope.

#[local] Set Warnings "-inexact-float".

Definition handle_IMU1_request (req : httpd_req_t) : handler esp_err_t :=
  if is_post req then
    let packed_data :=
      packData "PITCH" (double_to_float 98) "ROLL" (double_to_float 42)
               "YAW" (double_to_float 87) "GYROY" (double_to_float 22) in
    httpd_resp_send packed_data ;;
    ret ESP_OK
  else
    httpd_resp_send_err HTTPD_404_NOT_FOUND "Not Found" ;;
    ret ESP_OK.

Definition handle_IMU2_request (req : httpd_req_t) : handler esp_err_t :=
  if is_post req then
    let packed_data :=
      packData "ACCX" (double_to_float 98) "ACCY" (double_to_float 42)
               "ACCZ" (double_to_float 87) "GYROX" (double_to_float 22) in
    httpd_resp_send packed_data ;;
    ret ESP_OK
  else
    httpd_resp_send_err HTTPD_404_NOT_FOUND "Not Found" ;;
    ret ESP_OK.

Definition handle_W1_request (req : httpd_req_t) : handler esp_err_t :=
  if is_post req then
    let packed_data :=
      packData "WFL" (double_to_float 165) "WFR" (double_to_float 148)
               "WRL" (double_to_float 109) "WRR" (double_to_float 112) in
    httpd_resp_send packed_data ;;
    ret ESP_OK
  else
    httpd_resp_send_err HTTPD_404_NOT_FOUND "Not Found" ;;
    ret ESP_OK.

(** The three readings of the class [BATTERY] that the handlers ask for.  The
    class is not among the sources, so the readings are parameters of the
    handlers. *)
Record BATTERY : Type := mkBattery {
  returnBatteryVoltage : float;
  returnBatteryCurrentDraw : float;
  returnBatteryPercent : float
}.

(** [handle_AMB_request] and [handle_battery_request] begin with
    [new BATTERY()] and reach [delete power] on one of their two paths.
    [live] counts the objects created and not deleted; the handlers take the
    count and return it with their result. *)
Definition handle_AMB_request (power : BATTERY) (req : httpd_req_t) (live : nat)
  : handler (esp_err_t * nat) :=
  let live := S live in
  if is_post req then
    let packed_data :=
      packData "OAT" (double_to_float 165) "PRESS" (double_to_float 148)
               "GYROZ" (double_to_float 109)
               "THROT" (double_to_float (returnBatteryPercent power)) in
    httpd_resp_send packed_data ;;
    ret (ESP_OK, live)
  else
    httpd_resp_send_err HTTPD_404_NOT_FOUND "Not Found" ;;
    let live := Nat.pred live in
    ret (ESP_OK, live).

Definition handle_battery_request (power : BATTERY) (req : httpd_req_t) (live : nat)
  : handler (esp_err_t * nat) :=
  let live := S live in
  if is_post req then
    let packed_data :=
      packData "VOLTAGE" (double_to_float (returnBatteryVoltage power))
               "CURRENT" (double_to_float (returnBatteryCurrentDraw power))
               "PERCENT" (double_to_float (returnBatteryPercent power))
               "XXX" (double_to_float 112) in
    httpd_resp_send packed_data ;;
    ret (ESP_OK, live)
  else
    httpd_resp_send_err HTTPD_404_NOT_FOUND "Not Found" ;;
    let live := Nat.pred live in
    ret (ESP_OK, live).

(** One request after the other to a handler that passes the count on. *)
Fixpoint serve (h : httpd_req_t -> nat -> handler (esp_err_t * nat))
    (reqs : list httpd_req_t) (live : nat) : handler nat :=
  match reqs with
  | [] => ret live
  | req :: rest => r <- h req live ;; serve h rest (snd r)
  end.

(** What the socket delivers to a handler that reads the events [evs]: the
    bytes of the chunks, in order. *)
Fixpoint delivered (evs : list recv_event) : string :=
  match evs with
  | [] => EmptyString
  | ev :: rest => recv_bytes ev ++ delivered rest
  end.

(** An event that keeps the receive loop going: a timeout, or a chunk that
    is not empty. *)
Definition keeps_going (ev : recv_event) : bool :=
  match ev with
  | Received bytes => 0 <? size bytes
  | SockErr SOCK_ERR_TIMEOUT => true
  | SockErr _ => false
  end.

(** An event that ends the request: the peer closed the connection, or the
    socket failed. *)
Definition ends_request (ev : recv_event) : bool :=
  match ev with
  | Received bytes => size bytes =? 0
  | SockErr SOCK_ERR_TIMEOUT => false
  | SockErr _ => true
  end.

(** The world in which the handler has read the socket down to [rest]. *)
Definition after_reading (w : world) (rest : list recv_event) : world :=
  {| mem := mem w; oplog := oplog w; rx := rest; tx := tx w;
     sm_calls := sm_calls w; entropy := entropy w; draws := draws w |}.

(** The world in which one more response has been sent. *)
Definition answered (w : world) (r : http_response) : world :=
  {| mem := mem w; oplog := oplog w; rx := rx w; tx := tx w ++ [r];
     sm_calls := sm_calls w; entropy := entropy w; draws := draws w |}.

(** The world after the four operations that arm the vehicle and the
    response that reports them. *)
Definition armed_world (w : world) (rest : list recv_event) : world :=
  {| mem := apply_ops (mem w) arm_ops; oplog := oplog w ++ arm_ops;
     rx := rest; tx := tx w ++ [Response "STATE-CHANGE-SUCCESS"];
     sm_calls := sm_calls w; entropy := entropy w; draws := draws w |}.

Definition not_NUL (c : ascii) : bool := negb (Ascii.eqb c zero).

End Endpoints.

(* ===================================================================== *)
(** * Firmware update over the air *)
(* ===================================================================== *)

Module Ota.
Import Cxx Broadcast Endpoints.

(** The calls that [handle_OTA_incoming] makes to the update API of ESP-IDF
    and to the system, in the order made. *)
Inductive ota_call : Type :=
| OtaBegin
| OtaWrite (data : string)
| OtaEnd
| OtaSetBoot
| OtaRestart.

(** What the update API returns.  The API belongs to ESP-IDF; each result
    is a parameter that may depend on the calls made before. *)
Record ota_api : Type := mkApi {
  esp_ota_begin : list ota_call -> esp_err_t;
  esp_ota_write : list ota_call -> string -> esp_err_t;
  esp_ota_end : list ota_call -> esp_err_t;
  esp_ota_set_boot_partition : list ota_call -> esp_err_t
}.

(** The server with the log of the calls. *)
Record device : Type := mkDevice {
  net : world;
  ota_log : list ota_call
}.

(** How a call of the handler ends: it returns, [ESP_ERROR_CHECK] aborts,
    [esp_restart] does not return, or the socket delivers nothing more while
    the loop waits for the rest of the body. *)
Inductive ota_outcome : Type :=
| Returned (e : esp_err_t)
| Aborted
| Restarted
| Waiting.

Definition call (c : ota_call) (d : device) : device :=
  {| net := net d; ota_log := ota_log d ++ [c] |}.

Definition send (r : http_response) (d : device) : device :=
  {| net := answered (net d) r; ota_log := ota_log d |}.

Definition unread (pending : list recv_event) (d : device) : device :=
  {| net := after_reading (net d) pending; ota_log := ota_log d |}.

Definition HTTPD_500_INTERNAL_SERVER_ERROR : Z := 500.

(** One call [httpd_req_recv(req, buf, buf_len)] on what the socket holds:
    at most [buf_len] bytes of the next chunk are handed over, and the rest
    of the chunk stays to be read. *)
Definition httpd_req_recv (buf_len : Z) (pending : list recv_event)
  : option (recv_event * list recv_event) :=
  match pending with
  | [] => None
  | Received bytes :: rest =>
      if buf_len <? size bytes then
        Some (Received (string_take (Z.to_nat buf_len) bytes),
              Received (string_drop (Z.to_nat buf_len) bytes) :: rest)
      else Some (Received bytes, rest)
  | SockErr e :: rest => Some (SockErr e, rest)
  end.

(** What the socket holds, as a number that every call of [httpd_req_recv]
    with a positive length makes smaller. *)
Fixpoint backlog (pending : list recv_event) : nat :=
  match pending with
  | [] => O
  | ev :: rest => S (String.length (recv_bytes ev) + backlog rest)
  end.

Inductive loop_end : Type := Finished | GaveUp | Starved.

(** The loop [while (remaining > 0)]; [sizeof(buf)] is 1000.  Every turn
    takes something from the socket, so [fuel] above [backlog] is never used
    up. *)
Fixpoint ota_loop (api : ota_api) (fuel : nat) (remaining : Z) (d : device)
  : loop_end * device :=
  if 0 <? remaining then
    match fuel with
    | O => (Starved, d)
    | S f =>
        match httpd_req_recv (Z.min remaining 1000) (rx (net d)) with
        | None => (Starved, d)
        | Some (ev, pending) =>
            let d := unread pending d in
            let recv_len := recv_ret ev in
            if recv_len =? HTTPD_SOCK_ERR_TIMEOUT then ota_loop api f remaining d
            else if recv_len <=? 0 then
              (GaveUp,
               send (ErrorResponse HTTPD_500_INTERNAL_SERVER_ERROR "Protocol Error") d)
            else
              match esp_ota_write api (ota_log d) (recv_bytes ev) with
              | ESP_OK =>
                  ota_loop api f (remaining - recv_len) (call (OtaWrite (recv_bytes ev)) d)
              | ESP_FAIL =>
                  (GaveUp,
                   send (ErrorResponse HTTPD_500_INTERNAL_SERVER_ERROR "Flash Error")
                     (call (OtaWrite (recv_bytes ev)) d))
              end
        end
    end
  else (Finished, d).

(** The branch taken when the image is not validated or not activated: the
    two calls are made once more for the diagnostic output. *)
Definition validation_error (d : device) : ota_outcome * device :=
  (Returned ESP_FAIL,
   send (ErrorResponse HTTPD_500_INTERNAL_SERVER_ERROR "Validation / Activation Error")
     (call OtaSetBoot (call OtaEnd d))).

Definition complete_message : string :=
  "Firmware update complete, rebooting now!" ++ String "010" EmptyString.

(** [if (esp_ota_end(...) != ESP_OK || esp_ota_set_boot_partition(...) != ESP_OK)]
    and what follows. *)
Definition ota_finish (api : ota_api) (d : device) : ota_outcome * device :=
  match esp_ota_end api (ota_log d) with
  | ESP_OK =>
      match esp_ota_set_boot_partition api (ota_log (call OtaEnd d)) with
      | ESP_OK =>
          (Restarted,
           call OtaRestart (send (Response complete_message) (call OtaSetBoot (call OtaEnd d))))
      | ESP_FAIL => validation_error (call OtaSetBoot (call OtaEnd d))
      end
  | ESP_FAIL => validation_error (call OtaEnd d)
  end.

Definition handle_OTA_incoming (api : ota_api) (req : httpd_req_t) (d : device)
  : ota_outcome * device :=
  let remaining := int_of_size_t (content_len req) in
  match esp_ota_begin api (ota_log d) with
  | ESP_FAIL => (Aborted, call OtaBegin d)
  | ESP_OK =>
      match ota_loop api (S (backlog (rx (net d)))) remaining (call OtaBegin d) with
      | (Finished, d') => ota_finish api d'
      | (GaveUp, d') => (Returned ESP_FAIL, d')
      | (Starved, d') => (Waiting, d')
      end
  end.

(** The bytes passed to [esp_ota_write], in order. *)
Fixpoint image (calls : list ota_call) : string :=
  match calls with
  | [] => EmptyString
  | OtaWrite data :: rest => data ++ image rest
  | _ :: rest => image rest
  end.

(** The pieces of a text, put together. *)
Fixpoint glue (pieces : list string) : string :=
  match pieces with
  | [] => EmptyString
  | piece :: rest => piece ++ glue rest
  end.

(** The device after the body has been read down to [pending] and written
    in [pieces]. *)
Definition written (d : device) (pending : list recv_event) (pieces : list string)
  : device :=
  {| net := after_reading (net d) pending;
     ota_log := ota_log d ++ OtaBegin :: map OtaWrite pieces |}.

(** An update API that accepts everything. *)
Definition willing : ota_api :=
  {| esp_ota_begin := fun _ => ESP_OK; esp_ota_write := fun _ _ => ESP_OK;
     esp_ota_end := fun _ => ESP_OK; esp_ota_set_boot_partition := fun _ => ESP_OK |}.

(** An update API that does not validate the image. *)
Definition invalid_image : ota_api :=
  {| esp_ota_begin := fun _ => ESP_OK; esp_ota_write := fun _ _ => ESP_OK;
     esp_ota_end := fun _ => ESP_FAIL; esp_ota_set_boot_partition := fun _ => ESP_OK |}.

Definition idle (pending : list recv_event) : device :=
  {| net := quiet Ptam.empty pending; ota_log := [] |}.

End Ota.

(* ===================================================================== *)
(** * The tables of the former store, past the first pair *)
(* ===================================================================== *)

Module LegacyTables.
Import Cxx LegacyPtam.

(** No slot that the retrieval loop looks at below index [bound] holds the
    pointer [baseID]. *)
Definition unused_below (bound : Z) (arr : list ptr) (baseID : ptr) : Prop :=
  forall k : nat, 2 * Z.of_nat k < bound -> arr !! (2 * k)%nat <> Some baseID.

(** A store in which each table holds one pair of null pointers. *)
Definition one_pair_each (length : Z) (h : gmap Z string) : memory :=
  let t := {| slots := replicate (Z.to_nat length) NULL; LEN := 2 |} in
  {| heap := h; floatingP := t; eight_bit := t; thirtytwo_bit := t; character := t |}.

End LegacyTables.

(* ===================================================================== *)
(** * The fan relay and the servo positions *)
(* ===================================================================== *)

Module Hal.
Import Cxx.

(** ** [fan_relay.cpp] *)

Definition RELAY_GPIO_PIN : Z := 2.

(** The global [fanIsOn] and the calls [gpio_set_level(pin, level)] made so
    far. *)
Record relay : Type := mkRelay {
  fanIsOn : bool;
  gpio : list (Z * Z)
}.

(** The relay when the program starts. *)
Definition relay_at_start : relay := {| fanIsOn := false; gpio := [] |}.

Definition gpio_set_level (pin level : Z) (r : relay) : relay :=
  {| fanIsOn := fanIsOn r; gpio := gpio r ++ [(pin, level)] |}.

Definition set_fanIsOn (b : bool) (r : relay) : relay :=
  {| fanIsOn := b; gpio := gpio r |}.

Definition fan_relay_on (r : relay) : relay := gpio_set_level RELAY_GPIO_PIN 1 r.

Definition fan_relay_off (r : relay) : relay := gpio_set_level RELAY_GPIO_PIN 0 r.

Definition coolSierra_task (sierraTemp : float) (r : relay) : relay :=
  let fanOnSetpoint := 45%float in
  let fanOffSetpoint := 35%float in
  if PrimFloat.ltb fanOnSetpoint sierraTemp && negb (fanIsOn r) then
    set_fanIsOn true (fan_relay_on r)
  else if PrimFloat.ltb sierraTemp fanOffSetpoint && fanIsOn r then
    set_fanIsOn false (fan_relay_off r)
  else r.

(** The task called with one reading after the other. *)
Definition regulate (readings : list float) (r : relay) : relay :=
  fold_left (fun r sierraTemp => coolSierra_task sierraTemp r) readings r.

(** The levels 1, 0, 1, 0, ... written to the pin of the relay. *)
Fixpoint toggles (n : nat) (level : Z) : list (Z * Z) :=
  match n with
  | O => []
  | S k => (RELAY_GPIO_PIN, level) :: toggles k (1 - level)
  end.

(** ** [mg90s_servo.cpp]: the table of positions *)

(** The four globals [SERVO_POS_1] to [SERVO_POS_4], each a [uint8_t]. *)
Record positions : Type := mkPositions {
  SERVO_POS_1 : Z;
  SERVO_POS_2 : Z;
  SERVO_POS_3 : Z;
  SERVO_POS_4 : Z
}.

Definition GET_SERVO_POS (pin : Z) (s : positions) : Z :=
  match pin with
  | 0 => SERVO_POS_1 s
  | 1 => SERVO_POS_2 s
  | 2 => SERVO_POS_3 s
  | 3 => SERVO_POS_4 s
  | _ => 0
  end.

Definition UPDATE_SERVO_POS (pin updatedValue : Z) (s : positions) : positions :=
  match pin with
  | 0 => {| SERVO_POS_1 := updatedValue; SERVO_POS_2 := SERVO_POS_2 s;
            SERVO_POS_3 := SERVO_POS_3 s; SERVO_POS_4 := SERVO_POS_4 s |}
  | 1 => {| SERVO_POS_1 := SERVO_POS_1 s; SERVO_POS_2 := updatedValue;
            SERVO_POS_3 := SERVO_POS_3 s; SERVO_POS_4 := SERVO_POS_4 s |}
  | 2 => {| SERVO_POS_1 := SERVO_POS_1 s; SERVO_POS_2 := SERVO_POS_2 s;
            SERVO_POS_3 := updatedValue; SERVO_POS_4 := SERVO_POS_4 s |}
  | 3 => {| SERVO_POS_1 := SERVO_POS_1 s; SERVO_POS_2 := SERVO_POS_2 s;
            SERVO_POS_3 := SERVO_POS_3 s; SERVO_POS_4 := updatedValue |}
  | _ => s
  end.

(** ** [mg90s_servo.cpp]: driving a servo *)

#[local] Set Warnings "-inexact-float".

Definition ServoMsMin : float := 0.06.
Definition ServoMsMax : float := 2.1.

Definition linearInterpolate (input input_start input_end output_start output_end : float)
  : float :=
  let slope := ((output_end - output_start) / (input_end - input_start))%float in
  (output_start + slope * (input - input_start))%float.

(** The table of positions and the duties passed to [ledc_set_duty], each
    with the pin that the channel was configured for. *)
Record servo : Type := mkServo {
  pos : positions;
  ledc : list (Z * Z)
}.

(** [uint8_t(d)]: truncation towards zero; the conversion is undefined
    ([None]) when the truncated value does not fit a [uint8_t]. *)
Definition double_to_uint8 (d : float) : option Z :=
  match Prim2SF d with
  | S754_zero _ => Some 0
  | S754_finite s m e =>
      let mag := if 0 <=? e then Zpos m * 2 ^ e else Zpos m / 2 ^ (- e) in
      let z := if s then - mag else mag in
      if (0 <=? z) && (z <=? 255) then Some z else None
  | _ => None
  end.

(** [int duty = (int)(100.0 * (targetPos / 20.0) * 81.91)] *)
Definition duty_of (targetPos : float) : option Z :=
  double_to_int (100 * (targetPos / 20) * 81.91)%float.

Definition actuateServo (targetPos : float) (pin : Z) (hw : servo) : option servo :=
  match duty_of targetPos with
  | Some duty => Some {| pos := pos hw; ledc := ledc hw ++ [(pin, duty)] |}
  | None => None
  end.

(** [servo_control(target, pin)]: the result is [mapped_target] as a
    [uint8_t]; [None] when one of the three conversions is undefined. *)
Definition servo_control (target : float) (pin : Z) (hw : servo) : option (Z * servo) :=
  let mapped_target := linearInterpolate target 0 360 ServoMsMin ServoMsMax in
  match actuateServo mapped_target pin hw with
  | None => None
  | Some hw1 =>
      match double_to_uint8 target with
      | None => None
      | Some updatedValue =>
          let hw2 := {| pos := UPDATE_SERVO_POS pin updatedValue (pos hw1);
                        ledc := ledc hw1 |} in
          match double_to_uint8 mapped_target with
          | None => None
          | Some result => Some (result, hw2)
          end
      end
  end.

(** The relay is in step with the flag: the levels written so far alternate
    from 1, and the flag says whether the last one was 1. *)
Definition in_step (r : relay) : Prop :=
  exists n : nat,
    gpio r = toggles n 1 /\ fanIsOn r = Nat.odd n.

(** What [servo_control] computes from a target of [n] degrees: the result,
    the position to store and the duty. *)
Definition whole_degrees (n : Z) : option (Z * Z * Z) :=
  let target := int_to_double n in
  let mapped_target := linearInterpolate target 0 360 ServoMsMin ServoMsMax in
  match duty_of mapped_target, double_to_uint8 target, double_to_uint8 mapped_target with
  | Some duty, Some updatedValue, Some result => Some (result, updatedValue, duty)
  | _, _, _ => None
  end.

(** What [whole_degrees] gives for [k]: the position is [k], the result 0
    below 166 degrees and 1 from there, the duty between 24 and 616. *)
Definition whole_degrees_ok (k : nat) : bool :=
  match whole_degrees (Z.of_nat k) with
  | Some (result, updatedValue, duty) =>
      (result =? (if Z.of_nat k <? 166 then 0 else 1)) &&
      (updatedValue =? Z.of_nat k) && (24 <=? duty) && (duty <=? 616)
  | None => false
  end.

End Hal.

(* ===================================================================== *)
(** * Facts about the library functions *)
(* ===================================================================== *)

Module CxxFacts.
Import Cxx.

(** ** Strings *)

Lemma append_cons (x : ascii) (a b : string) : String x a ++ b = String x (a ++ b).
Proof. reflexivity. Qed.

Lemma append_empty (b : string) : EmptyString ++ b = b.
Proof. reflexivity. Qed.

Lemma append_assoc (a b c : string) : (a ++ b) ++ c = a ++ (b ++ c).
Proof.
  induction a as [|x a IH]; [reflexivity |].
  rewrite !append_cons. f_equal. exact IH.
Qed.

Lemma size_append (a b : string) : size (a ++ b) = size a + size b.
Proof.
  unfold size. induction a as [|x a IH]; [rewrite append_empty; simpl; lia |].
  rewrite append_cons. simpl String.length. lia.
Qed.

Lemma size_nonneg (s : string) : 0 <= size s.
Proof. unfold size. lia. Qed.

Lemma string_drop_append (a b : string) :
  string_drop (String.length a) (a ++ b) = b.
Proof.
  induction a as [|x a IH]; [rewrite append_empty; now destruct b |].
  rewrite append_cons. simpl. exact IH.
Qed.

Lemma string_take_append (a b : string) :
  string_take (String.length a) (a ++ b) = a.
Proof.
  induction a as [|x a IH]; [rewrite append_empty; now destruct b |].
  rewrite append_cons. simpl. f_equal. exact IH.
Qed.

(** ** Characters of a string *)

Lemma all_chars_append (p : ascii -> bool) (a b : string) :
  all_chars p (a ++ b) = all_chars p a && all_chars p b.
Proof.
  induction a as [|x a IH]; [reflexivity |].
  rewrite append_cons. simpl. rewrite IH. now rewrite andb_assoc.
Qed.

Lemma all_chars_weaken (p q : ascii -> bool) (s : string) :
  (forall c, p c = true -> q c = true) ->
  all_chars p s = true -> all_chars q s = true.
Proof.
  intros Hpq. induction s as [|x s IH]; simpl; [reflexivity |].
  intros [Hx Hs]%andb_prop. rewrite (Hpq _ Hx), (IH Hs). reflexivity.
Qed.

Lemma all_chars_take (p : ascii -> bool) (n : nat) (s : string) :
  all_chars p s = true -> all_chars p (string_take n s) = true.
Proof.
  revert s. induction n as [|n IH]; intros [|x s]; simpl; try reflexivity.
  intros [Hx Hs]%andb_prop. now rewrite Hx, IH.
Qed.

Lemma all_chars_drop (p : ascii -> bool) (n : nat) (s : string) :
  all_chars p s = true -> all_chars p (string_drop n s) = true.
Proof.
  revert s. induction n as [|n IH]; intros [|x s]; simpl; try easy.
  intros [Hx Hs]%andb_prop. now apply IH.
Qed.

Lemma all_chars_strip_zeros (p : ascii -> bool) (s : string) :
  all_chars p s = true -> all_chars p (strip_zeros s) = true.
Proof.
  induction s as [|x s IH]; simpl; [reflexivity |].
  intros [Hx Hs]%andb_prop. specialize (IH Hs).
  destruct (strip_zeros s) as [|y k].
  - destruct (Ascii.eqb x "0"); simpl; [reflexivity | now rewrite Hx].
  - simpl. simpl in IH. now rewrite Hx, IH.
Qed.

Lemma all_chars_zeros (p : ascii -> bool) (n : nat) :
  p "0"%char = true -> all_chars p (zeros n) = true.
Proof. intros H0. induction n as [|n IH]; simpl; [reflexivity | now rewrite H0, IH]. Qed.

Lemma all_chars_with_point (p : ascii -> bool) (s : string) :
  p "."%char = true -> all_chars p s = true -> all_chars p (with_point s) = true.
Proof. intros Hp Hs. destruct s as [|x s]; simpl; [reflexivity |]. simpl in Hs. now rewrite Hp, Hs. Qed.

(** ** Decimal digits *)

Lemma digit_char_is_digit (d : Z) : is_digit (digit_char d) = true.
Proof.
  destruct d as [|p|p]; try reflexivity.
  do 4 (try destruct p as [p|p|]; try reflexivity).
Qed.

Lemma string_of_uint_digits (d : Decimal.uint) :
  all_chars is_digit (NilEmpty.string_of_uint d) = true.
Proof. induction d; simpl; try reflexivity; exact IHd. Qed.

Lemma decimal_digits (n : Z) : all_chars is_digit (decimal n) = true.
Proof.
  unfold decimal, NilZero.string_of_uint.
  destruct (N.to_uint (Z.to_N n)); try reflexivity; apply string_of_uint_digits.
Qed.

Lemma decimal_head (n : Z) :
  exists c rest, decimal n = String c rest /\ is_digit c = true.
Proof.
  unfold decimal, NilZero.string_of_uint.
  destruct (N.to_uint (Z.to_N n)); simpl; eexists _, _; split; reflexivity.
Qed.

Lemma digit_is_output (c : ascii) : is_digit c = true -> is_output_char c = true.
Proof.
  unfold is_digit, is_output_char. simpl.
  repeat (destruct (Ascii.eqb c _); [reflexivity |]). discriminate.
Qed.

Lemma decimal_output (n : Z) : all_chars is_output_char (decimal n) = true.
Proof. eapply all_chars_weaken; [apply digit_is_output | apply decimal_digits]. Qed.

Lemma format_g_chars (p : Z) (m : positive) (e : Z) :
  all_chars is_output_char (format_g p m e) = true.
Proof.
  unfold format_g.
  destruct (if 0 <=? e then _ else _) as [num den].
  destruct (significant p num den) as [q x].
  pose proof (decimal_output q) as Hq.
  destruct ((x <? -4) || (p <=? x)).
  - rewrite !all_chars_append.
    rewrite all_chars_take by exact Hq.
    rewrite all_chars_with_point;
      [| reflexivity | apply all_chars_strip_zeros, all_chars_drop, Hq].
    simpl all_chars.
    assert (Hexp : all_chars is_output_char
              (if Z.abs x <? 10 then String "0" (decimal (Z.abs x))
               else decimal (Z.abs x)) = true).
    { destruct (Z.abs x <? 10); simpl; apply decimal_output. }
    rewrite Hexp. now destruct (x <? 0).
  - destruct (0 <=? x).
    + rewrite all_chars_append, all_chars_take by exact Hq.
      apply all_chars_with_point;
        [reflexivity | apply all_chars_strip_zeros, all_chars_drop, Hq].
    + simpl all_chars. rewrite all_chars_append.
      rewrite all_chars_zeros by reflexivity.
      now rewrite all_chars_strip_zeros.
Qed.

Lemma format_g_head (p : Z) (m : positive) (e : Z) :
  exists c rest, format_g p m e = String c rest /\ is_digit c = true.
Proof.
  unfold format_g.
  destruct (if 0 <=? e then _ else _) as [num den].
  destruct (significant p num den) as [q x].
  destruct (decimal_head q) as (c & rest & -> & Hc).
  destruct ((x <? -4) || (p <=? x)).
  - simpl string_take. rewrite append_cons. eauto.
  - destruct (0 <=? x) eqn:Hx.
    + apply Z.leb_le in Hx.
      replace (Z.to_nat (x + 1)) with (S (Z.to_nat x)) by lia.
      simpl string_take. rewrite append_cons. eauto.
    + eexists _, _. split; [reflexivity | reflexivity].
Qed.

(** The output of a finite [float] starts with a character at which the
    decoder splits an item. *)
Lemma format_float_head (v : float32) :
  is_finite v = true ->
  exists c rest, format_float v = String c rest
                 /\ mem_char c Broadcast.numeric_chars = true.
Proof.
  destruct v as [s|s| |s m e]; try discriminate; intros _; simpl.
  - destruct s; eexists _, _; split; reflexivity.
  - destruct s.
    + eexists _, _; split; reflexivity.
    + destruct (format_g_head 6 m e) as (c & rest & -> & Hc).
      exists c, rest. split; [reflexivity |].
      revert Hc. unfold is_digit, Broadcast.numeric_chars. simpl.
      repeat (destruct (Ascii.eqb c _); [reflexivity |]). discriminate.
Qed.

(** No output of a [float] contains the separator of the wire format. *)
Lemma format_float_no_underscore (v : float32) :
  all_chars not_underscore (format_float v) = true.
Proof.
  assert (Hw : forall c, is_output_char c = true -> not_underscore c = true).
  { intros c. unfold is_output_char, not_underscore. simpl.
    destruct (Ascii.eqb_spec c "_") as [-> | _]; [discriminate | reflexivity]. }
  destruct v as [s|s| |s m e]; simpl.
  - now destruct s.
  - now destruct s.
  - reflexivity.
  - pose proof (all_chars_weaken _ _ _ Hw (format_g_chars 6 m e)) as Hg.
    destruct s; [simpl; exact Hg | exact Hg].
Qed.

End CxxFacts.

(* ===================================================================== *)
(** * The wire format: packing and decoding *)
(* ===================================================================== *)

#[local] Set Warnings "-inexact-float".

Module WireFormat.
Import Cxx Broadcast CxxFacts.

Lemma find_first_of_from_append (chars id : string) (i : Z) (c : ascii) (rest : string) :
  all_chars (fun x => negb (mem_char x chars)) id = true ->
  mem_char c chars = true ->
  find_first_of_from chars i (id ++ String c rest) = i + size id.
Proof.
  intros Hid Hc. revert i. induction id as [|x id IH]; intros i.
  - rewrite append_empty. simpl. rewrite Hc. unfold size. simpl. lia.
  - rewrite append_cons. simpl in Hid |- *.
    apply andb_prop in Hid as [Hx Hid].
    apply negb_true_iff in Hx. rewrite Hx, (IH Hid).
    unfold size. simpl String.length. lia.
Qed.

(** An item made of an identifier without numeric characters followed by
    text starting with one is split between the two. *)
Lemma extract_item_append (id text : string) :
  all_chars not_numeric id = true ->
  (exists c rest, text = String c rest /\ mem_char c numeric_chars = true) ->
  size (id ++ text) < npos ->
  extract_item (id ++ text) =
    match stod text with
    | Ok value => Ok (id, value)
    | Throw e => Throw e
    end.
Proof.
  intros Hid (c & rest & -> & Hc) Hsize.
  unfold extract_item, find_first_of.
  rewrite (find_first_of_from_append _ _ _ _ _ Hid Hc).
  rewrite size_append in Hsize.
  pose proof (size_nonneg id) as Hn. pose proof (size_nonneg (String c rest)) as Hr.
  unfold substr. rewrite size_append.
  replace (size id + size (String c rest) <? 0) with false by (symmetry; apply Z.ltb_ge; lia).
  replace (size id + size (String c rest) <? 0 + size id) with false
    by (symmetry; apply Z.ltb_ge; lia).
  replace (Z.to_nat (Z.min (0 + size id) (size id + size (String c rest) - 0)))
    with (String.length id) by (unfold size in *; lia).
  replace (Z.to_nat (Z.min npos (size id + size (String c rest) - (0 + size id))))
    with (String.length (String c rest)) by (unfold size in *; lia).
  replace (Z.to_nat (0 + size id)) with (String.length id) by (unfold size; lia).
  change (Z.to_nat 0) with O.
  rewrite string_drop_append.
  change (string_drop 0 (id ++ String c rest)) with (id ++ String c rest).
  rewrite string_take_append.
  replace (string_take (String.length (String c rest)) (String c rest))
    with (String c rest).
  2:{ rewrite <- (string_take_append (String c rest) EmptyString) at 1.
      f_equal. clear. induction (String c rest) as [|x s IH]; [reflexivity |].
      rewrite append_cons. now rewrite IH. }
  reflexivity.
Qed.

(** ** Splitting at the separator *)

Lemma split_delim_append (a b : string) :
  all_chars not_underscore a = true ->
  split_delim "_" (a ++ String "_" b) = (a, Some b).
Proof.
  induction a as [|x a IH]; intros Ha.
  - reflexivity.
  - rewrite append_cons. simpl in Ha |- *.
    apply andb_prop in Ha as [Hx Ha].
    unfold not_underscore in Hx. apply negb_true_iff in Hx.
    rewrite Hx, (IH Ha). reflexivity.
Qed.

Lemma split_delim_whole (a : string) :
  all_chars not_underscore a = true ->
  split_delim "_" a = (a, None).
Proof.
  induction a as [|x a IH]; intros Ha; [reflexivity |].
  simpl in Ha |- *. apply andb_prop in Ha as [Hx Ha].
  unfold not_underscore in Hx. apply negb_true_iff in Hx.
  rewrite Hx, (IH Ha). reflexivity.
Qed.


Lemma getline_append (a b : string) :
  all_chars not_underscore a = true ->
  getline (a ++ String "_" b) "_" = Some (a, b).
Proof.
  intros Ha. unfold getline.
  rewrite (split_delim_append _ _ Ha).
  destruct a; reflexivity.
Qed.

Lemma getline_whole (a : string) :
  a <> EmptyString ->
  all_chars not_underscore a = true ->
  getline a "_" = Some (a, EmptyString).
Proof.
  intros Hne Ha. unfold getline.
  rewrite (split_delim_whole _ Ha).
  destruct a; [congruence | reflexivity].
Qed.

Lemma extract_loop_step (f : nat) (ss : string) ids values :
  extract_loop (S f) ss ids values =
  match getline ss "_" with
  | None => Ok (ids, values)
  | Some (item, ss') =>
      match extract_item item with
      | Throw e => Throw e
      | Ok (id, value) => extract_loop f ss' (ids ++ [id]) (values ++ [value])
      end
  end.
Proof. reflexivity. Qed.

Lemma split_delim_length (delim : ascii) (s : string) :
  (String.length (default EmptyString (snd (split_delim delim s))) <= String.length s)%nat.
Proof.
  induction s as [|c s IH]; [simpl; lia |].
  simpl split_delim. destruct (Ascii.eqb c delim); [simpl; lia |].
  destruct (split_delim delim s) as [item tail]. simpl in IH |- *. lia.
Qed.

(** A successful [getline] leaves fewer characters to read. *)
Lemma getline_shorter (ss : string) (delim : ascii) (item ss' : string) :
  getline ss delim = Some (item, ss') ->
  (String.length ss' < String.length ss)%nat.
Proof.
  destruct ss as [|c ss]; [discriminate |].
  unfold getline. simpl split_delim.
  destruct (Ascii.eqb c delim).
  - intros [= _ <-]. simpl. lia.
  - pose proof (split_delim_length delim ss) as Hlen.
    destruct (split_delim delim ss) as [first tail].
    intros [= _ <-]. simpl in Hlen |- *. lia.
Qed.

(** The loop has ended before the fuel that [extractValuesAndIds] gives it
    is used up: any larger amount computes the same. *)
Lemma extract_loop_fuel (fuel1 fuel2 : nat) (ss : string) ids values :
  (String.length ss < fuel1)%nat -> (String.length ss < fuel2)%nat ->
  extract_loop fuel1 ss ids values = extract_loop fuel2 ss ids values.
Proof.
  revert fuel2 ss ids values.
  induction fuel1 as [|f1 IH]; intros fuel2 ss ids values H1 H2; [lia |].
  destruct fuel2 as [|f2]; [lia |].
  rewrite !extract_loop_step.
  destruct (getline ss "_") as [[item ss']|] eqn:Hget; [| reflexivity].
  apply getline_shorter in Hget.
  destruct (extract_item item) as [[id value]|e]; [| reflexivity].
  apply IH; lia.
Qed.

Lemma join_cons (a b : string) (rest : list string) :
  join (a :: b :: rest) = a ++ String "_" (join (b :: rest)).
Proof. reflexivity. Qed.

Lemma extract_loop_join (items : list string) :
  Forall plain_item items ->
  forall (fuel : nat) ids values,
    (String.length (join items) < fuel)%nat ->
    extract_loop fuel (join items) ids values = extract_items items ids values.
Proof.
  induction 1 as [|a rest [Hne Ha] Hrest IH]; intros fuel ids values Hfuel.
  - destruct fuel; reflexivity.
  - destruct fuel as [|f]; [lia |].
    rewrite extract_loop_step.
    destruct rest as [|b rest].
    + change (join [a]) with a.
      rewrite (getline_whole _ Hne Ha). simpl extract_items.
      destruct (extract_item a) as [[id value]|e]; [| reflexivity].
      destruct f; reflexivity.
    + rewrite join_cons in Hfuel |- *.
      rewrite (getline_append _ _ Ha).
      change (extract_items (a :: b :: rest) ids values) with
        (match extract_item a with
         | Throw e => Throw e
         | Ok (id, value) =>
             extract_items (b :: rest) (ids ++ [id]) (values ++ [value])
         end).
      destruct (extract_item a) as [[id value]|e]; [| reflexivity].
      apply IH. revert Hfuel. generalize (join (b :: rest)). intros j Hfuel.
      assert (Hlen := size_append a (String "_" j)).
      unfold size in Hlen. simpl String.length in Hlen. lia.
Qed.

Lemma packData_join id1 v1 id2 v2 id3 v3 id4 v4 :
  packData id1 v1 id2 v2 id3 v3 id4 v4 =
  join [id1 ++ format_float v1; id2 ++ format_float v2;
        id3 ++ format_float v3; id4 ++ format_float v4].
Proof.
  unfold packData. simpl join.
  rewrite !append_assoc. reflexivity.
Qed.

Lemma id_chars_split (id : string) :
  all_chars is_id_char id = true ->
  all_chars not_numeric id = true /\ all_chars not_underscore id = true.
Proof.
  intros H. split; (eapply all_chars_weaken; [| exact H]);
    intros c Hc; unfold is_id_char in Hc; apply andb_prop in Hc; tauto.
Qed.

(** An identifier followed by the output of a finite [float] is an item that
    the decoder splits back into the two. *)
Lemma packed_item (id : string) (v : float32) (d : float) :
  all_chars is_id_char id = true ->
  is_finite v = true ->
  stod (format_float v) = Ok d ->
  size (id ++ format_float v) < npos ->
  plain_item (id ++ format_float v) /\
  extract_item (id ++ format_float v) = Ok (id, d).
Proof.
  intros [Hnum Hus]%id_chars_split Hfin Hstod Hsize.
  destruct (format_float_head v Hfin) as (c & rest & Hfmt & Hc).
  split.
  - split.
    + rewrite Hfmt. destruct id; discriminate.
    + rewrite all_chars_append, Hus. apply format_float_no_underscore.
  - rewrite extract_item_append; [now rewrite Hstod | exact Hnum | eauto | exact Hsize].
Qed.

Lemma size_join_le (item : string) (items : list string) :
  item ∈ items -> size item <= size (join items).
Proof.
  induction items as [|a items IH]; intros Hin; [by apply elem_of_nil in Hin |].
  destruct items as [|b items].
  - apply list_elem_of_singleton in Hin as ->. simpl. lia.
  - rewrite join_cons, size_append.
    pose proof (size_nonneg a). pose proof (size_nonneg (String "_" (join (b :: items)))).
    apply elem_of_cons in Hin as [-> | Hin]; [lia |].
    specialize (IH Hin). unfold size in *. simpl String.length in *. lia.
Qed.

(** The GPS endpoint answers a POST with the string of the specification. *)
Lemma gps_response (m : Ptam.SharedMemory) :
  handle_GPS_request {| method := HTTP_POST; content_len := 0 |} (quiet m [])
    = (Done ESP_OK,
       {| mem := m; oplog := []; rx := []; sm_calls := [];
          tx := [Response "LAT56_LONG78.5_SAT72.34_ALT48.2"];
          entropy := fun _ => 0; draws := 0%nat |}).
Proof. vm_compute. reflexivity. Qed.

(** C5, as stated: an identifier may contain the separator, and a value may
    need more than six significant digits.  ["A_B"] has none of the
    characters [0-9 . -], yet the packed string does not decode; the [float]
    1234567 is printed as [1.23457e+06] and comes back as 1234570. *)
Lemma decode_does_not_invert_pack :
  ~ (forall id1 id2 id3 id4 (v1 v2 v3 v4 : float32),
       all_chars not_numeric id1 = true -> all_chars not_numeric id2 = true ->
       all_chars not_numeric id3 = true -> all_chars not_numeric id4 = true ->
       Forall (fun v => binary32 v = true /\ is_finite v = true) [v1; v2; v3; v4] ->
       extractValuesAndIds (packData id1 v1 id2 v2 id3 v3 id4 v4) [] []
         = Ok ([id1; id2; id3; id4],
               [float_to_double v1; float_to_double v2;
                float_to_double v3; float_to_double v4])) /\
  ~ (forall id1 id2 id3 id4 (v1 v2 v3 v4 : float32),
       all_chars is_id_char id1 = true -> all_chars is_id_char id2 = true ->
       all_chars is_id_char id3 = true -> all_chars is_id_char id4 = true ->
       Forall (fun v => binary32 v = true /\ is_finite v = true) [v1; v2; v3; v4] ->
       extractValuesAndIds (packData id1 v1 id2 v2 id3 v3 id4 v4) [] []
         = Ok ([id1; id2; id3; id4],
               [float_to_double v1; float_to_double v2;
                float_to_double v3; float_to_double v4])).
Proof.
  split; intros Hclaim.
  - specialize (Hclaim "A_B" "C" "D" "E"
                  (double_to_float 1) (double_to_float 2)
                  (double_to_float 3) (double_to_float 4)
                  eq_refl eq_refl eq_refl eq_refl).
    assert (Hvalues : Forall (fun v => binary32 v = true /\ is_finite v = true)
              [double_to_float 1; double_to_float 2; double_to_float 3; double_to_float 4])
      by (repeat (constructor; [split; vm_compute; reflexivity |]); constructor).
    specialize (Hclaim Hvalues).
    vm_compute in Hclaim. discriminate.
  - specialize (Hclaim "LAT" "LONG" "SAT" "ALT"
                  (double_to_float 1234567) (double_to_float 78.5)
                  (double_to_float 72.34) (double_to_float 48.2)
                  eq_refl eq_refl eq_refl eq_refl).
    assert (Hvalues : Forall (fun v => binary32 v = true /\ is_finite v = true)
              [double_to_float 1234567; double_to_float 78.5;
               double_to_float 72.34; double_to_float 48.2])
      by (repeat (constructor; [split; vm_compute; reflexivity |]); constructor).
    specialize (Hclaim Hvalues).
    apply (f_equal (fun r => match r with
                             | Ok (_, d :: _) => PrimFloat.eqb d 1234567
                             | _ => false
                             end)) in Hclaim.
    vm_compute in Hclaim. discriminate.
Qed.

End WireFormat.

(* ===================================================================== *)
(** * The stores *)
(* ===================================================================== *)

Module PtamFacts.
Import Ptam.

(** The round trip holds in the register store itself, for each kind. *)
Lemma store_get_double (k : string) (v : float) (m : SharedMemory) :
  getLastDouble k (storeDouble k v m) = v.
Proof. unfold getLastDouble. cbn. by simplify_map_eq. Qed.

Lemma store_get_string (k v : string) (m : SharedMemory) :
  getLastString k (storeString k v m) = v.
Proof. unfold getLastString. cbn. by simplify_map_eq. Qed.

Lemma store_get_int (k : string) (v : Z) (m : SharedMemory) :
  0 <= v < 2 ^ 32 -> getLastInt k (storeInt k v m) = v.
Proof. intros H. unfold getLastInt. cbn. simplify_map_eq. apply Z.mod_small, H. Qed.

Lemma store_get_uint8 (k : string) (v : Z) (m : SharedMemory) :
  0 <= v < 2 ^ 8 -> getLastUint8 k (storeUint8 k v m) = v.
Proof. intros H. unfold getLastUint8. cbn. simplify_map_eq. apply Z.mod_small, H. Qed.

Lemma clear_get (k : string) (m : SharedMemory) :
  getLastDouble k (clearData k m) = 0%float /\
  getLastInt k (clearData k m) = 0 /\
  getLastUint8 k (clearData k m) = 0 /\
  getLastString k (clearData k m) = EmptyString.
Proof.
  unfold getLastDouble, getLastInt, getLastUint8, getLastString. cbn.
  repeat split; by simplify_map_eq.
Qed.

End PtamFacts.

Module LegacyFacts.
Import Cxx LegacyPtam.

(** The first pair ever added is written below the array, whatever the size
    of the array, the key and the value. *)
Lemma first_add_out_of_bounds (length : Z) (baseID converted : ptr) (data : float) (n : Z) :
  double_to_int data = Some n ->
  PTAM_ADD_BASE_DOUBLE length baseID data converted (fresh length)
    = Fault (OutOfBounds (-2)).
Proof.
  intros Hn. unfold PTAM_ADD_BASE_DOUBLE. rewrite Hn.
  unfold add_pair, write_slot. cbn [fresh floatingP fresh_table LEN slots].
  reflexivity.
Qed.

(** The same holds for the three other tables. *)
Lemma first_add_out_of_bounds_other (length : Z) (baseID converted data_ptr : ptr) (data : Z) :
  PTAM_ADD_BASE_8 length baseID data converted (fresh length) = Fault (OutOfBounds (-2)) /\
  PTAM_ADD_BASE_32 length baseID data converted (fresh length) = Fault (OutOfBounds (-2)) /\
  PTAM_ADD_BASE_CHAR length baseID data_ptr (fresh length) = Fault (OutOfBounds (-2)).
Proof. repeat split. Qed.

(** On a store that has never been written, no key is found. *)
Lemma fresh_scan (length : Z) (fuel : nat) (baseID : ptr) (i : Z) :
  baseID <> NULL -> 0 <= i ->
  scan_from length fuel (replicate (Z.to_nat length) NULL) baseID i = Done None
  \/ scan_from length fuel (replicate (Z.to_nat length) NULL) baseID i = Fault Endless.
Proof.
  intros Hnull. revert i. induction fuel as [|f IH]; intros i Hi; [right; reflexivity |].
  cbn [scan_from]. destruct (i <? length) eqn:Hlt; [| left; reflexivity].
  apply Z.ltb_lt in Hlt.
  rewrite lookup_replicate_2 by lia.
  replace (NULL =? baseID) with false
    by (symmetry; apply Z.eqb_neq; congruence).
  apply IH. apply Z.mod_pos_bound. reflexivity.
Qed.

(** Nothing can be retrieved from the store as it is at start-up. *)
Lemma fresh_retrieve_faults (length : Z) (baseID : ptr) :
  baseID <> NULL ->
  exists f, PTAM_RETRIEVE_BASE_DOUBLE length baseID (fresh length) = Fault f.
Proof.
  intros Hnull. unfold PTAM_RETRIEVE_BASE_DOUBLE, find_data.
  cbn [fresh floatingP fresh_table slots].
  destruct (fresh_scan length 128 baseID 0 Hnull ltac:(lia)) as [-> | ->]; eauto.
Qed.

(** C2: on the store as it is at start-up, adding the pair ("alt", 7.5) to
    the floating-point table writes at index -2 of the array; retrieval of
    "alt" from the untouched table finds no slot and takes its result from
    an uninitialised pointer.  Once the counter is 2 the pair lands in slots
    0 and 1, where it is found only through the very pointer that was added
    (another pointer to the same text is not), and reads back as 7. *)
Theorem legacy_round_trip_fails :
  let h : gmap Z string := {[ 100 := "alt"; 200 := "alt" ]} in
  PTAM_ADD_BASE_DOUBLE 10 100 7.5 300 (fresh 10) = Fault (OutOfBounds (-2)) /\
  PTAM_RETRIEVE_BASE_DOUBLE 10 100 (fresh 10) = Fault IndeterminatePointer /\
  exists st,
    PTAM_ADD_BASE_DOUBLE 10 100 7.5 300 (after_first_add 10 h) = Done (8, st) /\
    heap st !! 100 = heap st !! 200 /\
    PTAM_RETRIEVE_BASE_DOUBLE 10 200 st = Fault IndeterminatePointer /\
    PTAM_RETRIEVE_BASE_DOUBLE 10 100 st = Done 7%float.
Proof.
  intros h. split; [vm_compute; reflexivity |]. split; [vm_compute; reflexivity |].
  eexists. split; [vm_compute; reflexivity |].
  repeat split; vm_compute; reflexivity.
Qed.

End LegacyFacts.

(* ===================================================================== *)
(** * Running the handlers *)
(* ===================================================================== *)

Module HandlerFacts.
Import Cxx Ptam Broadcast CxxFacts.

Lemma under_cap (total_len : Z) :
  total_len < MAX_DATA_LEN -> (MAX_DATA_LEN <=? total_len) = false.
Proof. intros H. apply Z.leb_gt. exact H. Qed.

Lemma post_is_post (req : httpd_req_t) :
  method req = HTTP_POST -> is_post req = true.
Proof. unfold is_post. now intros ->. Qed.

Lemma receive_done (total_len : Z) (w : world) (buf : string) rest :
  recv_loop total_len EmptyString (rx w) = (RecvDone buf, rest) ->
  size buf < MAX_DATA_LEN ->
  receive total_len w =
    (Done (Some buf),
     {| mem := mem w; oplog := oplog w; rx := rest; tx := tx w;
        sm_calls := sm_calls w; entropy := entropy w; draws := draws w |}).
Proof.
  intros Hloop Hsize. unfold receive. rewrite Hloop.
  now rewrite (under_cap _ Hsize).
Qed.

(** With nothing to wait for, the loop ends at once with an empty buffer. *)
Lemma recv_loop_nothing_to_read (total_len : Z) (pending : list recv_event) :
  total_len <= 0 ->
  recv_loop total_len EmptyString pending = (RecvDone EmptyString, pending).
Proof.
  intros H.
  assert (Hlt : (size EmptyString <? total_len) = false)
    by (apply Z.ltb_ge; exact H).
  destruct pending; cbn [recv_loop]; now rewrite Hlt.
Qed.

(** What [handle_AUTH_incoming] does once the body has been received. *)
Lemma auth_verdict (req : httpd_req_t) (w : world) (buf : string) rest :
  method req = HTTP_POST ->
  int_of_size_t (content_len req) < MAX_DATA_LEN ->
  recv_loop (int_of_size_t (content_len req)) EmptyString (rx w) = (RecvDone buf, rest) ->
  size buf < MAX_DATA_LEN ->
  handle_AUTH_incoming req w =
    if String.eqb (c_str buf) (getLastString "arm_token" (mem w)) then
      (Done ESP_OK,
       {| mem := apply_ops (mem w) arm_ops; oplog := oplog w ++ arm_ops;
          rx := rest; tx := tx w ++ [Response "STATE-CHANGE-SUCCESS"];
          sm_calls := sm_calls w; entropy := entropy w; draws := draws w |})
    else
      (Done ESP_OK,
       {| mem := mem w; oplog := oplog w;
          rx := rest; tx := tx w ++ [Response "STATE-CHANGE-FAIL"];
          sm_calls := sm_calls w; entropy := entropy w; draws := draws w |}).
Proof.
  intros Hpost Hcap Hloop Hsize. unfold handle_AUTH_incoming.
  rewrite (post_is_post _ Hpost), (under_cap _ Hcap).
  unfold bind at 1. rewrite (receive_done _ _ _ _ Hloop Hsize).
  unfold bind at 1. unfold sharedMemory_getLastString at 1. cbn [mem].
  destruct (String.eqb (c_str buf) (getLastString "arm_token" (mem w))).
  - cbn. rewrite <- !app_assoc. reflexivity.
  - reflexivity.
Qed.

(** The registers after the four operations that arm the vehicle. *)
Lemma arm_ops_registers (m : SharedMemory) :
  doubleData (apply_ops m arm_ops) !! "state" = Some 2%float /\
  uint8Data (apply_ops m arm_ops) !! "state" = None /\
  uint32Data (apply_ops m arm_ops) !! "state" = None /\
  stringData (apply_ops m arm_ops) !! "state" = None /\
  stringData (apply_ops m arm_ops) !! "stateDescript" = Some "ARMED".
Proof.
  cbn [apply_ops arm_ops fold_left apply_op clearData storeDouble storeString
       doubleData uint8Data uint32Data stringData].
  repeat split; by simplify_map_eq.
Qed.

Lemma snoc_not_self {A} (l : list A) (x : A) : l <> (l ++ [x])%list.
Proof.
  intros H. apply (f_equal (@List.length A)) in H.
  rewrite length_app in H. simpl in H. lia.
Qed.

Lemma snoc_inj {A} (l : list A) (x y : A) : (l ++ [x] = l ++ [y])%list -> x = y.
Proof. intros H. apply app_inv_head in H. now injection H. Qed.

(** A request is answered ["STATE-CHANGE-SUCCESS"] on one path only: the
    one that performs the four arming operations and returns [ESP_OK]. *)
Lemma auth_success_inv (req : httpd_req_t) (w : world) :
  tx (snd (handle_AUTH_incoming req w)) = (tx w ++ [Response "STATE-CHANGE-SUCCESS"])%list ->
  fst (handle_AUTH_incoming req w) = Done ESP_OK /\
  mem (snd (handle_AUTH_incoming req w)) = apply_ops (mem w) arm_ops /\
  oplog (snd (handle_AUTH_incoming req w)) = (oplog w ++ arm_ops)%list.
Proof.
  remember (handle_AUTH_incoming req w) as r eqn:Hr.
  unfold handle_AUTH_incoming in Hr.
  destruct (is_post req).
  2:{ subst r. cbn. intros H%snoc_inj. discriminate. }
  destruct (MAX_DATA_LEN <=? int_of_size_t (content_len req)).
  { subst r. cbn. intros H. now apply snoc_not_self in H. }
  unfold bind at 1 in Hr. unfold receive in Hr.
  destruct (recv_loop _ _ _) as [status rest].
  destruct status as [buf| | |].
  - destruct (MAX_DATA_LEN <=? size buf).
    { subst r. cbn. intros H. now apply snoc_not_self in H. }
    unfold bind at 1 in Hr. unfold sharedMemory_getLastString at 1 in Hr.
    cbn [mem] in Hr.
    destruct (String.eqb (c_str buf) (getLastString "arm_token" (mem w))).
    + subst r. cbn. intros _. rewrite <- !app_assoc. repeat split; reflexivity.
    + subst r. cbn. intros H%snoc_inj. discriminate.
  - subst r. cbn. intros H. now apply snoc_not_self in H.
  - subst r. cbn. intros H. now apply snoc_not_self in H.
  - subst r. cbn. intros H. now apply snoc_not_self in H.
Qed.

Lemma update_register_run (key : string) (v : float) (w : world) :
  update_register key v w =
    (Done tt,
     {| mem := register_after key v (mem w);
        oplog := (oplog w ++ if nonzero v then [OpClear key; OpStoreDouble key v] else [])%list;
        rx := rx w; tx := tx w; sm_calls := sm_calls w;
        entropy := entropy w; draws := draws w |}).
Proof.
  unfold update_register, register_after. destruct (nonzero v).
  - unfold bind, sharedMemory. cbn. rewrite <- app_assoc. reflexivity.
  - unfold ret. rewrite app_nil_r. now destruct w.
Qed.

Lemma decode_ok (data : string) ids values (w : world) :
  extractValuesAndIds data [] [] = Ok (ids, values) ->
  decode data w = (Done (ids, values), w).
Proof. intros H. unfold decode. now rewrite H. Qed.

(** ** One register at a time *)

Lemma same_register_refl (k : string) (m : SharedMemory) : same_register k m m.
Proof. repeat split. Qed.

Lemma same_register_trans (k : string) (m1 m2 m3 : SharedMemory) :
  same_register k m1 m2 -> same_register k m2 m3 -> same_register k m1 m3.
Proof.
  intros (a1 & b1 & c1 & d1) (a2 & b2 & c2 & d2).
  repeat split; congruence.
Qed.

Lemma register_after_other (key k : string) (v : float) (m : SharedMemory) :
  k <> key -> same_register k m (register_after key v m).
Proof.
  intros Hne. unfold register_after. destruct (nonzero v).
  - unfold same_register. cbn. repeat split; by simplify_map_eq.
  - apply same_register_refl.
Qed.

Lemma register_after_same (key : string) (v : float) (m1 m2 : SharedMemory) :
  same_register key m1 m2 ->
  same_register key (register_after key v m1) (register_after key v m2).
Proof.
  intros H. unfold register_after. destruct (nonzero v); [| exact H].
  unfold same_register. cbn. repeat split; by simplify_map_eq.
Qed.

Lemma registers_after_cons (key : string) (keys : list string)
    (v : float) (values : list float) (m : SharedMemory) :
  registers_after (key :: keys) (v :: values) m =
  registers_after keys values (register_after key v m).
Proof. reflexivity. Qed.

(** A key that is not in the list keeps its registers. *)
Lemma registers_after_frame (keys : list string) (values : list float)
    (k : string) (m : SharedMemory) :
  k ∉ keys -> same_register k m (registers_after keys values m).
Proof.
  revert values m. induction keys as [|key keys IH]; intros values m Hk.
  - apply same_register_refl.
  - destruct values as [|v values]; [apply same_register_refl |].
    rewrite registers_after_cons.
    apply not_elem_of_cons in Hk as [Hne Hk].
    eapply same_register_trans; [apply register_after_other, Hne | apply IH, Hk].
Qed.

(** With distinct keys, the registers of the key at position [i] end up as
    the update with the value at position [i] alone leaves them. *)
Lemma registers_after_position (keys : list string) (values : list float)
    (i : nat) (key : string) (v : float) (m : SharedMemory) :
  NoDup keys -> keys !! i = Some key -> values !! i = Some v ->
  same_register key (register_after key v m) (registers_after keys values m).
Proof.
  intros Hnd. revert values i m.
  induction Hnd as [|k0 keys Hk0 Hnd IH]; intros values i m Hkey Hv; [discriminate |].
  destruct values as [|v0 values]; [discriminate |].
  rewrite registers_after_cons.
  destruct i as [|j]; cbn in Hkey, Hv.
  - injection Hkey as <-. injection Hv as <-.
    apply registers_after_frame, Hk0.
  - assert (Hne : key <> k0).
    { intros ->. apply Hk0. eapply list_elem_of_lookup_2, Hkey. }
    eapply same_register_trans; [| apply (IH _ _ _ Hkey Hv)].
    apply register_after_same, register_after_other, Hne.
Qed.

Lemma nonzero_false (v : float) : nonzero v = false <-> PrimFloat.eqb v 0 = true.
Proof. unfold nonzero. now rewrite negb_false_iff. Qed.

Lemma nonzero_true (v : float) : nonzero v = true <-> PrimFloat.eqb v 0 = false.
Proof. unfold nonzero. now rewrite negb_true_iff. Qed.

(** Zero leaves the register alone; any other value replaces it. *)
Lemma registers_after_slot (keys : list string) (values : list float)
    (i : nat) (key : string) (v : float) (m : SharedMemory) :
  NoDup keys -> keys !! i = Some key -> values !! i = Some v ->
  (PrimFloat.eqb v 0 = true -> same_register key m (registers_after keys values m)) /\
  (PrimFloat.eqb v 0 = false ->
     doubleData (registers_after keys values m) !! key = Some v /\
     uint8Data (registers_after keys values m) !! key = None /\
     uint32Data (registers_after keys values m) !! key = None /\
     stringData (registers_after keys values m) !! key = None).
Proof.
  intros Hnd Hkey Hv.
  pose proof (registers_after_position _ _ _ _ _ m Hnd Hkey Hv) as Hpos.
  unfold register_after in Hpos. split.
  - intros Hz%nonzero_false. now rewrite Hz in Hpos.
  - intros Hz%nonzero_true. rewrite Hz in Hpos.
    destruct Hpos as (Hd & H8 & H32 & Hs). cbn in Hd, H8, H32, Hs.
    rewrite Hd, H8, H32, Hs. repeat split; by simplify_map_eq.
Qed.

Lemma SWP_registers_NoDup : NoDup SWP_registers.
Proof. apply (bool_decide_unpack _). by vm_compute. Qed.

Lemma SYS_registers_NoDup : NoDup SYS_registers.
Proof. apply (bool_decide_unpack _). by vm_compute. Qed.

(** ** The two handlers *)

Ltac run_ingest Hrecv Hdec :=
  destruct Hrecv as (Hpost & Hcap & Hloop & Hsize);
  rewrite (post_is_post _ Hpost), (under_cap _ Hcap);
  unfold bind at 1; rewrite (receive_done _ _ _ _ Hloop Hsize);
  unfold bind at 1; rewrite (decode_ok _ _ _ _ Hdec);
  unfold bind, at_index; cbn [snd lookup list_lookup ret];
  rewrite !update_register_run; cbn.

Lemma swp_run (req : httpd_req_t) (w : world) buf rest ids v0 v1 v2 v3 v4 :
  body_received req w buf rest ->
  extractValuesAndIds (c_str buf) [] [] = Ok (ids, [v0; v1; v2; v3; v4]) ->
  exists w', handle_SWP_incoming req w = (Done ESP_OK, w') /\
    mem w' = registers_after SWP_registers [v0; v1; v2; v3; v4] (mem w) /\
    rx w' = rest /\ tx w' = tx w /\ sm_calls w' = sm_calls w.
Proof.
  intros Hrecv Hdec. unfold handle_SWP_incoming.
  run_ingest Hrecv Hdec.
  eexists. split; [reflexivity |]. cbn. repeat split.
Qed.

Lemma sys_run (req : httpd_req_t) (w : world) buf rest ids v0 v1 v2 v3 v4 :
  body_received req w buf rest ->
  extractValuesAndIds (c_str buf) [] [] = Ok (ids, [v0; v1; v2; v3; v4]) ->
  exists w', handle_SYS_incoming req w = (Done ESP_OK, w') /\
    mem w' = registers_after SYS_registers [v0; v1; v2; v3; v4] (mem w) /\
    rx w' = rest /\ tx w' = tx w /\ sm_calls w' = sm_calls w.
Proof.
  intros Hrecv Hdec. unfold handle_SYS_incoming.
  run_ingest Hrecv Hdec.
  eexists. split; [reflexivity |]. cbn. repeat split.
Qed.

End HandlerFacts.

(* ===================================================================== *)
(** * The token gate *)
(* ===================================================================== *)

Module AuthGate.
Import Cxx Ptam Broadcast CxxFacts HandlerFacts.

(** The verdict of the token comparison, for a body received in full. *)
Lemma auth_success_iff (req : httpd_req_t) (w : world) buf rest :
  body_received req w buf rest ->
  tx (snd (handle_AUTH_incoming req w)) = (tx w ++ [Response "STATE-CHANGE-SUCCESS"])%list
  <-> c_str buf = getLastString "arm_token" (mem w).
Proof.
  intros (Hpost & Hcap & Hloop & Hsize).
  rewrite (auth_verdict _ _ _ _ Hpost Hcap Hloop Hsize).
  destruct (String.eqb_spec (c_str buf) (getLastString "arm_token" (mem w))) as [Heq | Hne].
  - cbn. split; [intros _; exact Heq | reflexivity].
  - cbn. split; [intros H%snoc_inj; discriminate | intros H; contradiction].
Qed.

(** A mismatch is answered ["STATE-CHANGE-FAIL"] and leaves the store as it
    was. *)
Lemma auth_mismatch (req : httpd_req_t) (w : world) buf rest :
  body_received req w buf rest ->
  c_str buf <> getLastString "arm_token" (mem w) ->
  fst (handle_AUTH_incoming req w) = Done ESP_OK /\
  tx (snd (handle_AUTH_incoming req w)) = (tx w ++ [Response "STATE-CHANGE-FAIL"])%list /\
  mem (snd (handle_AUTH_incoming req w)) = mem w.
Proof.
  intros (Hpost & Hcap & Hloop & Hsize) Hne.
  rewrite (auth_verdict _ _ _ _ Hpost Hcap Hloop Hsize).
  apply String.eqb_neq in Hne. rewrite Hne. cbn. repeat split.
Qed.

(** C1: the AUTH endpoint answers ["STATE-CHANGE-SUCCESS"] and arms the
    vehicle for the empty token whenever no token is stored under
    [arm_token]: the get returns the empty-string sentinel, and the empty
    body compares equal to it. *)
Theorem auth_accepts_empty_token_when_none_issued (w : world) :
  stringData (mem w) !! "arm_token" = None ->
  fst (handle_AUTH_incoming {| method := HTTP_POST; content_len := 0 |} w) = Done ESP_OK /\
  tx (snd (handle_AUTH_incoming {| method := HTTP_POST; content_len := 0 |} w))
    = (tx w ++ [Response "STATE-CHANGE-SUCCESS"])%list /\
  doubleData (mem (snd (handle_AUTH_incoming {| method := HTTP_POST; content_len := 0 |} w)))
    !! "state" = Some 2%float /\
  stringData (mem (snd (handle_AUTH_incoming {| method := HTTP_POST; content_len := 0 |} w)))
    !! "stateDescript" = Some "ARMED".
Proof.
  intros Habsent.
  rewrite (auth_verdict _ w EmptyString (rx w)); try reflexivity.
  2:{ apply recv_loop_nothing_to_read. reflexivity. }
  unfold getLastString. rewrite Habsent.
  change (String.eqb (c_str EmptyString) (default EmptyString None)) with true. cbn [fst snd mem tx].
  destruct (arm_ops_registers (mem w)) as (Hd & _ & _ & _ & Hs).
  repeat split; assumption.
Qed.

Lemma auth_accepts_empty_token_witness :
  stringData (mem (quiet Ptam.empty [])) !! "arm_token" = None /\
  tx (snd (handle_AUTH_incoming {| method := HTTP_POST; content_len := 0 |}
             (quiet Ptam.empty [])))
    = [Response "STATE-CHANGE-SUCCESS"].
Proof.
  split; [reflexivity |].
  apply (auth_accepts_empty_token_when_none_issued (quiet Ptam.empty [])).
  reflexivity.
Defined.

(** C10: after a request answered ["STATE-CHANGE-SUCCESS"], the code 2 is in
    the double mapping only: an integer get of [state] returns the sentinel 0,
    which is what the logger reads next to the label ["ARMED"]. *)
Theorem armed_code_invisible_to_integer_get (req : httpd_req_t) (w : world) :
  tx (snd (handle_AUTH_incoming req w)) = (tx w ++ [Response "STATE-CHANGE-SUCCESS"])%list ->
  getLastDouble "state" (mem (snd (handle_AUTH_incoming req w))) = 2%float /\
  getLastInt "state" (mem (snd (handle_AUTH_incoming req w))) = 0 /\
  getLastUint8 "state" (mem (snd (handle_AUTH_incoming req w))) = 0 /\
  logged_state (mem (snd (handle_AUTH_incoming req w))) = ("ARMED", 0).
Proof.
  intros Hok. destruct (auth_success_inv _ _ Hok) as (_ & -> & _).
  destruct (arm_ops_registers (mem w)) as (Hd & H8 & H32 & _ & Hs).
  unfold logged_state, getLastDouble, getLastInt, getLastUint8, getLastString.
  rewrite Hd, H8, H32, Hs. repeat split.
Qed.


Lemma armed_code_invisible_witness :
  getLastInt "state"
    (mem (snd (handle_AUTH_incoming {| method := HTTP_POST; content_len := 6 |}
                 (quiet issued_store [Received "ABC123"])))) = 0.
Proof.
  apply (armed_code_invisible_to_integer_get
           {| method := HTTP_POST; content_len := 6 |}
           (quiet issued_store [Received "ABC123"])).
  reflexivity.
Defined.

Lemma performed_app {A} (h : handler A) (w : world) (ops : list store_op) :
  oplog (snd (h w)) = (oplog w ++ ops)%list -> performed h w = ops.
Proof. intros H. unfold performed. rewrite H. apply drop_app_length. Qed.

(** C9, as the code has it: the transition of the AUTH endpoint is four
    separate store operations.  Between them another task sees, in turn, the
    store without [state], the code 2 next to the label the store had before,
    and the code 2 without any label; after the last operation the two
    registers read 2 and ["ARMED"].  When the label before was not
    ["ARMED"], none of the four stores seen before the last operation has
    completed reads 2 and ["ARMED"] together. *)
Theorem arming_is_four_observable_steps (req : httpd_req_t) (w : world) :
  tx (snd (handle_AUTH_incoming req w)) = (tx w ++ [Response "STATE-CHANGE-SUCCESS"])%list ->
  performed (handle_AUTH_incoming req) w = arm_ops /\
  (exists m1 m2 m3,
     observable (mem w) (performed (handle_AUTH_incoming req) w)
       = [mem w; m1; m2; m3; mem (snd (handle_AUTH_incoming req w))] /\
     doubleData m1 !! "state" = None /\
     stringData m1 !! "stateDescript" = stringData (mem w) !! "stateDescript" /\
     getLastDouble "state" m2 = 2%float /\
     getLastString "stateDescript" m2 = getLastString "stateDescript" (mem w) /\
     getLastDouble "state" m3 = 2%float /\
     stringData m3 !! "stateDescript" = None /\
     (getLastString "stateDescript" (mem w) <> "ARMED" ->
      forall m, m ∈ [mem w; m1; m2; m3] ->
        ~ (getLastDouble "state" m = 2%float /\
           getLastString "stateDescript" m = "ARMED"))) /\
  getLastDouble "state" (mem (snd (handle_AUTH_incoming req w))) = 2%float /\
  getLastString "stateDescript" (mem (snd (handle_AUTH_incoming req w))) = "ARMED".
Proof.
  intros Hok. destruct (auth_success_inv _ _ Hok) as (_ & Hmem & Hlog).
  rewrite (performed_app _ _ _ Hlog), Hmem.
  destruct (arm_ops_registers (mem w)) as (Hd & _ & _ & _ & Hs).
  split; [reflexivity |]. split.
  - eexists _, _, _. split; [reflexivity |].
    unfold getLastDouble, getLastString.
    cbn [apply_op clearData storeDouble storeString
         doubleData uint8Data uint32Data stringData].
    do 6 (split; [by simplify_map_eq |]).
    intros Hlabel m Hin [_ Harmed].
    repeat (apply elem_of_cons in Hin as [-> | Hin]);
      [| | | | by apply elem_of_nil in Hin];
      cbn [apply_op clearData storeDouble storeString
           doubleData uint8Data uint32Data stringData] in Harmed;
      simplify_map_eq; try contradiction; discriminate.
  - unfold getLastDouble, getLastString. now rewrite Hd, Hs.
Qed.


Lemma prep_store_performed :
  performed (handle_AUTH_incoming {| method := HTTP_POST; content_len := 6 |})
    (quiet prep_store [Received "ABC123"]) = arm_ops.
Proof. vm_compute. reflexivity. Qed.

Lemma arming_steps_witness :
  performed (handle_AUTH_incoming {| method := HTTP_POST; content_len := 6 |})
    (quiet prep_store [Received "ABC123"]) = arm_ops.
Proof.
  apply (arming_is_four_observable_steps
           {| method := HTTP_POST; content_len := 6 |}
           (quiet prep_store [Received "ABC123"])).
  reflexivity.
Defined.

(** C9, as stated: from a store that holds code 1 and label ["PREP"], the
    stores observable while the token ["ABC123"] is verified include one with
    code 2 and label ["PREP"]. *)
Lemma reader_sees_armed_code_with_prep_label :
  ~ (forall (req : httpd_req_t) (w : world) (m : SharedMemory),
       armed_consistent (mem w) ->
       In m (observable (mem w) (performed (handle_AUTH_incoming req) w)) ->
       armed_consistent m).
Proof.
  intros Hclaim.
  specialize (Hclaim {| method := HTTP_POST; content_len := 6 |}
                (quiet prep_store [Received "ABC123"])
                (storeDouble "state" 2 (clearData "state" prep_store))).
  assert (Hbad : getLastString "stateDescript"
                   (storeDouble "state" 2 (clearData "state" prep_store)) = "ARMED").
  { apply Hclaim.
    - intros Hcode. apply (f_equal (fun x => PrimFloat.eqb x 2)) in Hcode.
      vm_compute in Hcode. discriminate.
    - rewrite prep_store_performed. cbn [observable arm_ops]. right. right. left.
      reflexivity.
    - reflexivity. }
  vm_compute in Hbad. discriminate.
Qed.

(** ** Token issuance *)

Lemma digit_char_is_alnum (d : Z) : is_alnum (digit_char d) = true.
Proof.
  destruct d as [|p|p]; try reflexivity.
  do 4 (try destruct p as [p|p|]; try reflexivity).
Qed.

Lemma digits_from_size (n : nat) (start step : Z) :
  size (digits_from n start step) = Z.of_nat n.
Proof.
  revert start. induction n as [|n IH]; intros start; [reflexivity |].
  unfold size in *. simpl String.length. specialize (IH (start + step)). lia.
Qed.

Lemma digits_from_alnum (n : nat) (start step : Z) :
  all_chars is_alnum (digits_from n start step) = true.
Proof.
  revert start. induction n as [|n IH]; intros start; [reflexivity |].
  simpl. now rewrite digit_char_is_alnum, IH.
Qed.

Lemma digit_tasks_contract (check : Z) : token_contract (digit_tasks check).
Proof.
  intros seed1 seed2 len Hlen. cbn. split.
  - rewrite digits_from_size. lia.
  - apply digits_from_alnum.
Qed.

(** C7: a POST to the token endpoint returns [ESP_OK]; when the
    configuration check gives 0 nothing is sent and the store is not touched;
    otherwise the token derived from the two seeds has six alphanumeric
    characters, is stored under [arm_token] by a clear followed by a set, and
    is sent back. *)
Theorem arm_token_issued_only_when_configured
    (cobj : CONTROLLER_TASKS) (req : httpd_req_t) (w : world) :
  token_contract cobj ->
  method req = HTTP_POST ->
  fst (handle_arm_token_request cobj req w) = Done ESP_OK /\
  (verifyFlightConfiguration cobj = 0 ->
     tx (snd (handle_arm_token_request cobj req w)) = tx w /\
     performed (handle_arm_token_request cobj req) w = [] /\
     mem (snd (handle_arm_token_request cobj req w)) = mem w) /\
  (verifyFlightConfiguration cobj <> 0 ->
     exists token,
       token = generateRandomAlphanumericToken cobj
                 (entropy w (draws w) mod 2 ^ 32)
                 (entropy w (S (draws w)) mod 2 ^ 32) 6 /\
       size token = 6 /\
       all_chars is_alnum token = true /\
       performed (handle_arm_token_request cobj req) w
         = [OpClear "arm_token"; OpStoreString "arm_token" token] /\
       mem (snd (handle_arm_token_request cobj req w))
         = storeString "arm_token" token (clearData "arm_token" (mem w)) /\
       getLastString "arm_token" (mem (snd (handle_arm_token_request cobj req w))) = token /\
       tx (snd (handle_arm_token_request cobj req w)) = (tx w ++ [Response token])%list).
Proof.
  intros Hcontract Hpost.
  assert (Hrun : handle_arm_token_request cobj req w =
    if negb (verifyFlightConfiguration cobj =? 0) then
      let token := generateRandomAlphanumericToken cobj
                     (entropy w (draws w) mod 2 ^ 32)
                     (entropy w (S (draws w)) mod 2 ^ 32) 6 in
      (Done ESP_OK,
       {| mem := storeString "arm_token" token (clearData "arm_token" (mem w));
          oplog := (oplog w ++ [OpClear "arm_token"; OpStoreString "arm_token" token])%list;
          rx := rx w; tx := (tx w ++ [Response token])%list; sm_calls := sm_calls w;
          entropy := entropy w; draws := S (S (draws w)) |})
    else
      (Done ESP_OK,
       {| mem := mem w; oplog := oplog w; rx := rx w; tx := tx w;
          sm_calls := sm_calls w; entropy := entropy w; draws := S (S (draws w)) |})).
  { unfold handle_arm_token_request. rewrite (post_is_post _ Hpost).
    unfold bind, esp_random. cbn [mem oplog rx tx sm_calls entropy draws].
    destruct (negb (verifyFlightConfiguration cobj =? 0)).
    - unfold sharedMemory, httpd_resp_send, respond, ret. cbn.
      rewrite <- app_assoc. reflexivity.
    - reflexivity. }
  split; [rewrite Hrun; now destruct (negb _) |]. split.
  - intros Hzero. unfold performed. rewrite Hrun.
    apply Z.eqb_eq in Hzero. rewrite Hzero. cbn.
    rewrite drop_all. repeat split.
  - intros Hnz. unfold performed. rewrite Hrun.
    apply Z.eqb_neq in Hnz. rewrite Hnz. cbn.
    eexists. split; [reflexivity |].
    destruct (Hcontract (entropy w (draws w) mod 2 ^ 32)
                (entropy w (S (draws w)) mod 2 ^ 32) 6 ltac:(lia)) as [Hsz Hal].
    rewrite drop_app_length.
    repeat split; try assumption.
    unfold getLastString. cbn. by simplify_map_eq.
Qed.

Lemma arm_token_issued_witness :
  fst (handle_arm_token_request (digit_tasks 1)
         {| method := HTTP_POST; content_len := 0 |} (quiet Ptam.empty [])) = Done ESP_OK.
Proof.
  apply (arm_token_issued_only_when_configured (digit_tasks 1)
           {| method := HTTP_POST; content_len := 0 |} (quiet Ptam.empty [])).
  - apply digit_tasks_contract.
  - reflexivity.
Defined.

End AuthGate.

(* ===================================================================== *)
(** * Command ingestion *)
(* ===================================================================== *)

Module Ingestion.
Import Cxx Ptam Broadcast CxxFacts HandlerFacts.

(** ** The cap on the declared length *)

Lemma int_of_size_t_small (n : Z) : 0 <= n < 2 ^ 31 -> int_of_size_t n = n.
Proof. intros H. unfold int_of_size_t. rewrite Z.mod_small; lia. Qed.

(** A declared length from the cap up to [INT_MAX] is turned away by each of
    the four ingestion handlers before anything is received or written. *)
Lemma oversize_rejected (req : httpd_req_t) (w : world) :
  method req = HTTP_POST ->
  MAX_DATA_LEN <= content_len req < 2 ^ 31 ->
  handle_SWP_incoming req w = (Done ESP_FAIL, w) /\
  handle_SYS_incoming req w = (Done ESP_FAIL, w) /\
  handle_STATE_incoming req w = (Done ESP_FAIL, w) /\
  handle_AUTH_incoming req w = (Done ESP_FAIL, w).
Proof.
  intros Hpost Hlen.
  assert (Hcap : (MAX_DATA_LEN <=? int_of_size_t (content_len req)) = true).
  { rewrite int_of_size_t_small; [apply Z.leb_le; lia |].
    unfold MAX_DATA_LEN in Hlen. lia. }
  unfold handle_SWP_incoming, handle_SYS_incoming, handle_STATE_incoming,
    handle_AUTH_incoming.
  rewrite (post_is_post _ Hpost), Hcap. repeat split.
Qed.

(** C3: a declared length of 2^31 is above the cap, but as an [int] it is
    negative: [handle_SWP_incoming] does not return [ESP_FAIL]; it skips the
    receive loop, decodes the empty buffer and reads [values[0]] of an empty
    vector. *)
Theorem oversize_length_wraps_below_the_cap (w : world) :
  MAX_DATA_LEN <= 2147483648 /\
  int_of_size_t 2147483648 = -2147483648 /\
  handle_SWP_incoming {| method := HTTP_POST; content_len := 2147483648 |} w
    = (Fault (VectorOutOfRange 0 0), w).
Proof.
  split; [discriminate |]. split; [reflexivity |].
  unfold handle_SWP_incoming. cbn [is_post method content_len].
  change (int_of_size_t 2147483648) with (-2147483648).
  change (MAX_DATA_LEN <=? -2147483648) with false. cbv iota.
  unfold bind at 1. unfold receive.
  rewrite recv_loop_nothing_to_read by discriminate.
  change (MAX_DATA_LEN <=? size EmptyString) with false. cbv iota.
  destruct w; reflexivity.
Qed.

(** With no token stored, the same length arms the vehicle through
    [handle_AUTH_incoming]. *)
Lemma oversize_length_arms (w : world) :
  stringData (mem w) !! "arm_token" = None ->
  tx (snd (handle_AUTH_incoming {| method := HTTP_POST; content_len := 2147483648 |} w))
    = (tx w ++ [Response "STATE-CHANGE-SUCCESS"])%list.
Proof.
  intros Habsent.
  rewrite (auth_verdict _ w EmptyString (rx w)); try reflexivity.
  2:{ apply recv_loop_nothing_to_read. discriminate. }
  unfold getLastString. rewrite Habsent. reflexivity.
Qed.

(** ** Fewer than five pairs *)

(** C6: the payload ["A1"] is below the cap and decodes to a single pair; the
    SWP, SYS and STATE handlers each go on to read position 1 of the
    one-element vector of values. *)
Theorem short_command_reads_past_the_end :
  exists payload ids values,
    size payload < MAX_DATA_LEN /\
    extractValuesAndIds payload [] [] = Ok (ids, values) /\
    (length values < 5)%nat /\
    forall m : SharedMemory,
      fst (handle_SWP_incoming {| method := HTTP_POST; content_len := size payload |}
             (quiet m [Received payload]))
        = Fault (VectorOutOfRange 1 (Z.of_nat (length values))) /\
      fst (handle_SYS_incoming {| method := HTTP_POST; content_len := size payload |}
             (quiet m [Received payload]))
        = Fault (VectorOutOfRange 1 (Z.of_nat (length values))) /\
      fst (handle_STATE_incoming {| method := HTTP_POST; content_len := size payload |}
             (quiet m [Received payload]))
        = Fault (VectorOutOfRange 1 (Z.of_nat (length values))).
Proof.
  exists "A1", ["A"], [1%float].
  split; [reflexivity |]. split; [vm_compute; reflexivity |]. split; [simpl; lia |].
  intros m. repeat split; vm_compute; reflexivity.
Qed.

(** Whatever the payload, a decoded vector shorter than five is read at its
    length by [handle_SWP_incoming]. *)
Lemma swp_short_vector (req : httpd_req_t) (w : world) buf rest ids values :
  body_received req w buf rest ->
  extractValuesAndIds (c_str buf) [] [] = Ok (ids, values) ->
  (length values < 5)%nat ->
  fst (handle_SWP_incoming req w)
    = Fault (VectorOutOfRange (Z.of_nat (length values)) (Z.of_nat (length values))).
Proof.
  intros (Hpost & Hcap & Hloop & Hsize) Hdec Hlen. unfold handle_SWP_incoming.
  rewrite (post_is_post _ Hpost), (under_cap _ Hcap).
  unfold bind at 1; rewrite (receive_done _ _ _ _ Hloop Hsize).
  unfold bind at 1; rewrite (decode_ok _ _ _ _ Hdec).
  destruct values as [|v0 [|v1 [|v2 [|v3 [|v4 more]]]]];
    [ | | | | | simpl in Hlen; lia ];
    unfold bind, at_index; cbn [snd lookup list_lookup ret raise];
    rewrite ?update_register_run; reflexivity.
Qed.

(** ** STATE ingestion *)

Lemma updateState_run (s : State_t) (w : world) :
  updateState s w =
    (Done tt,
     {| mem := mem w; oplog := oplog w; rx := rx w; tx := tx w;
        sm_calls := (sm_calls w ++ [s])%list; entropy := entropy w; draws := draws w |}).
Proof. reflexivity. Qed.

(** The reads of positions 1 to 4 that follow the dispatch change nothing. *)
Lemma state_tail_reads (values : list float) (w : world) :
  snd ((v1 <- at_index values 1 ;; v2 <- at_index values 2 ;;
        v3 <- at_index values 3 ;; v4 <- at_index values 4 ;;
        ret ESP_OK)%handler w) = w /\
  ((4 < length values)%nat ->
   fst ((v1 <- at_index values 1 ;; v2 <- at_index values 2 ;;
         v3 <- at_index values 3 ;; v4 <- at_index values 4 ;;
         ret ESP_OK)%handler w) = Done ESP_OK).
Proof.
  destruct values as [|v0 [|v1 [|v2 [|v3 [|v4 more]]]]];
    (split; [reflexivity | try (simpl; lia)]).
  reflexivity.
Qed.

(** C8, as the code has it.  A first value equal to 0 triggers no
    transition, and the endpoint writes no register.  Any other first value is
    truncated to an [int]: [updateState] is called with [PREP] when the
    truncation is 1, with [ARMED] when it is 2 and with [BYPASS] when it is 3;
    for another integer there is no transition, and the endpoint writes no
    register.  With five values the handler returns [ESP_OK]. *)
Theorem state_dispatch_on_truncated_value
    (req : httpd_req_t) (w : world) buf rest ids v0 more :
  body_received req w buf rest ->
  extractValuesAndIds (c_str buf) [] [] = Ok (ids, v0 :: more) ->
  (PrimFloat.eqb v0 0 = true ->
     sm_calls (snd (handle_STATE_incoming req w)) = sm_calls w /\
     mem (snd (handle_STATE_incoming req w)) = mem w /\
     oplog (snd (handle_STATE_incoming req w)) = oplog w) /\
  (PrimFloat.eqb v0 0 = false ->
     (double_to_int v0 = Some 1 ->
        sm_calls (snd (handle_STATE_incoming req w)) = (sm_calls w ++ [PREP])%list) /\
     (double_to_int v0 = Some 2 ->
        sm_calls (snd (handle_STATE_incoming req w)) = (sm_calls w ++ [ARMED])%list) /\
     (double_to_int v0 = Some 3 ->
        sm_calls (snd (handle_STATE_incoming req w)) = (sm_calls w ++ [BYPASS])%list) /\
     (forall n, double_to_int v0 = Some n -> n <> 1 -> n <> 2 -> n <> 3 ->
        sm_calls (snd (handle_STATE_incoming req w)) = sm_calls w /\
        mem (snd (handle_STATE_incoming req w)) = mem w /\
        oplog (snd (handle_STATE_incoming req w)) = oplog w)) /\
  (length more = 4%nat ->
     PrimFloat.eqb v0 0 = true \/ is_Some (double_to_int v0) ->
     fst (handle_STATE_incoming req w) = Done ESP_OK).
Proof.
  intros (Hpost & Hcap & Hloop & Hsize) Hdec.
  remember (handle_STATE_incoming req w) as r eqn:Hr.
  unfold handle_STATE_incoming in Hr.
  rewrite (post_is_post _ Hpost), (under_cap _ Hcap) in Hr.
  unfold bind at 1 in Hr. rewrite (receive_done _ _ _ _ Hloop Hsize) in Hr.
  unfold bind at 1 in Hr. rewrite (decode_ok _ _ _ _ Hdec) in Hr.
  cbn [snd] in Hr. unfold bind at 1 in Hr.
  unfold at_index at 1 in Hr. cbn [lookup list_lookup ret] in Hr.
  unfold bind at 1 in Hr. unfold nonzero in Hr.
  set (tail := (v1 <- at_index (v0 :: more) 1 ;; v2 <- at_index (v0 :: more) 2 ;;
                v3 <- at_index (v0 :: more) 3 ;; v4 <- at_index (v0 :: more) 4 ;;
                ret ESP_OK)%handler) in Hr.
  assert (Htail : forall w1, snd (tail w1) = w1 /\
            (length more = 4%nat -> fst (tail w1) = Done ESP_OK)).
  { intros w1. destruct (state_tail_reads (v0 :: more) w1) as [H1 H2].
    split; [exact H1 | intros Hm; apply H2; simpl; lia]. }
  destruct (PrimFloat.eqb v0 0) eqn:Hz; cbn [negb] in Hr.
  - unfold ret at 1 in Hr. cbv beta iota in Hr. subst r.
    destruct (Htail {| mem := mem w; oplog := oplog w; rx := rest; tx := tx w;
                       sm_calls := sm_calls w; entropy := entropy w;
                       draws := draws w |}) as [-> Hfst].
    cbn. repeat split; try discriminate. intros Hm _. apply Hfst, Hm.
  - unfold switch_state in Hr.
    destruct (double_to_int v0) as [n|].
    + destruct (state_of_code n) as [s|] eqn:Hs.
      * rewrite updateState_run in Hr. cbv beta iota in Hr.
        cbn [mem oplog rx tx sm_calls entropy draws] in Hr. subst r.
        destruct (Htail {| mem := mem w; oplog := oplog w; rx := rest; tx := tx w;
                           sm_calls := (sm_calls w ++ [s])%list; entropy := entropy w;
                           draws := draws w |}) as [-> Hfst].
        cbn [snd sm_calls mem oplog].
        split; [discriminate |]. split.
        -- intros _.
           split; [intros [= ->]; injection Hs as <-; reflexivity |].
           split; [intros [= ->]; injection Hs as <-; reflexivity |].
           split; [intros [= ->]; injection Hs as <-; reflexivity |].
           intros n' [= <-] H1 H2 H3. exfalso. revert Hs. unfold state_of_code.
           destruct n as [|[[[]|[]|]|[[]|[]|]|]|]; try discriminate; lia.
        -- intros Hm _. apply Hfst, Hm.
      * unfold ret at 1 in Hr. cbv beta iota in Hr. subst r.
        destruct (Htail {| mem := mem w; oplog := oplog w; rx := rest; tx := tx w;
                           sm_calls := sm_calls w; entropy := entropy w;
                           draws := draws w |}) as [-> Hfst].
        cbn [snd sm_calls mem oplog].
        split; [discriminate |]. split.
        -- intros _.
           split; [intros [= ->]; discriminate |].
           split; [intros [= ->]; discriminate |].
           split; [intros [= ->]; discriminate |].
           intros n' _ _ _ _. repeat split.
        -- intros Hm _. apply Hfst, Hm.
    + subst r. cbn [snd fst].
      split; [discriminate |]. split.
      * intros _. repeat split; discriminate.
      * intros _ [Hc | [x Hx]]; discriminate.
Qed.


Lemma state_dispatch_witness :
  sm_calls (snd (handle_STATE_incoming {| method := HTTP_POST; content_len := 14 |}
                   (quiet Ptam.empty [Received prep_command]))) = [PREP].
Proof.
  refine (proj1 (proj1 (proj2
            (state_dispatch_on_truncated_value
               {| method := HTTP_POST; content_len := 14 |}
               (quiet Ptam.empty [Received prep_command])
               prep_command [] ["S"; "A"; "B"; "C"; "D"] 1%float [0; 0; 0; 0]%float
               _ _)) _) _).
  - repeat split; vm_compute; reflexivity.
  - vm_compute. reflexivity.
  - vm_compute. reflexivity.
  - vm_compute. reflexivity.
Defined.

(** C8, as stated: the first value 1.5 is none of 1, 2 and 3, and the handler
    calls [updateState(PREP)] for it. *)
Lemma state_transition_for_a_fraction :
  ~ (forall (req : httpd_req_t) (w : world) buf rest ids v0 more,
       body_received req w buf rest ->
       extractValuesAndIds (c_str buf) [] [] = Ok (ids, v0 :: more) ->
       PrimFloat.eqb v0 1 = false ->
       PrimFloat.eqb v0 2 = false ->
       PrimFloat.eqb v0 3 = false ->
       sm_calls (snd (handle_STATE_incoming req w)) = sm_calls w).
Proof.
  intros Hclaim.
  specialize (Hclaim {| method := HTTP_POST; content_len := 16 |}
                (quiet Ptam.empty [Received "S1.5_A0_B0_C0_D0"])
                "S1.5_A0_B0_C0_D0" [] ["S"; "A"; "B"; "C"; "D"]
                1.5%float [0; 0; 0; 0]%float).
  assert (Hcalls : sm_calls (snd (handle_STATE_incoming
                      {| method := HTTP_POST; content_len := 16 |}
                      (quiet Ptam.empty [Received "S1.5_A0_B0_C0_D0"]))) = []).
  { apply Hclaim; try (vm_compute; reflexivity).
    repeat split; vm_compute; reflexivity. }
  vm_compute in Hcalls. discriminate.
Qed.

(** ** Zero means no change *)

(** C4: for a command of five pairs received in full, the SWP and the SYS
    handler return [ESP_OK] and leave the store as the five conditional
    updates leave it, in order.  At each position a value equal to 0 leaves
    all registers of the key of that position as they were, any other value
    ends up in the double register of that key (the clear has emptied its
    other registers); keys that are not among the five are not touched. *)
Theorem zero_leaves_register_nonzero_overwrites
    (req : httpd_req_t) (w : world) buf rest ids v0 v1 v2 v3 v4 :
  body_received req w buf rest ->
  extractValuesAndIds (c_str buf) [] [] = Ok (ids, [v0; v1; v2; v3; v4]) ->
  (fst (handle_SWP_incoming req w) = Done ESP_OK /\
   mem (snd (handle_SWP_incoming req w))
     = registers_after SWP_registers [v0; v1; v2; v3; v4] (mem w) /\
   (forall i key v,
      SWP_registers !! i = Some key -> [v0; v1; v2; v3; v4] !! i = Some v ->
      (PrimFloat.eqb v 0 = true ->
         same_register key (mem w) (mem (snd (handle_SWP_incoming req w)))) /\
      (PrimFloat.eqb v 0 = false ->
         doubleData (mem (snd (handle_SWP_incoming req w))) !! key = Some v)) /\
   (forall key, key ∉ SWP_registers ->
      same_register key (mem w) (mem (snd (handle_SWP_incoming req w))))) /\
  (fst (handle_SYS_incoming req w) = Done ESP_OK /\
   mem (snd (handle_SYS_incoming req w))
     = registers_after SYS_registers [v0; v1; v2; v3; v4] (mem w) /\
   (forall i key v,
      SYS_registers !! i = Some key -> [v0; v1; v2; v3; v4] !! i = Some v ->
      (PrimFloat.eqb v 0 = true ->
         same_register key (mem w) (mem (snd (handle_SYS_incoming req w)))) /\
      (PrimFloat.eqb v 0 = false ->
         doubleData (mem (snd (handle_SYS_incoming req w))) !! key = Some v)) /\
   (forall key, key ∉ SYS_registers ->
      same_register key (mem w) (mem (snd (handle_SYS_incoming req w))))).
Proof.
  intros Hrecv Hdec. split.
  - destruct (swp_run _ _ _ _ _ _ _ _ _ _ Hrecv Hdec) as (w' & -> & Hmem & _).
    cbn [fst snd]. rewrite Hmem. split; [reflexivity |]. split; [reflexivity |]. split.
    + intros i key v Hkey Hv.
      destruct (registers_after_slot _ _ _ _ _ (mem w) SWP_registers_NoDup Hkey Hv)
        as [Hzero Hset].
      split; [exact Hzero | intros Hnz; apply (Hset Hnz)].
    + intros key Hkey. apply registers_after_frame, Hkey.
  - destruct (sys_run _ _ _ _ _ _ _ _ _ _ Hrecv Hdec) as (w' & -> & Hmem & _).
    cbn [fst snd]. rewrite Hmem. split; [reflexivity |]. split; [reflexivity |]. split.
    + intros i key v Hkey Hv.
      destruct (registers_after_slot _ _ _ _ _ (mem w) SYS_registers_NoDup Hkey Hv)
        as [Hzero Hset].
      split; [exact Hzero | intros Hnz; apply (Hset Hnz)].
    + intros key Hkey. apply registers_after_frame, Hkey.
Qed.


Lemma zero_leaves_register_witness :
  fst (handle_SWP_incoming {| method := HTTP_POST; content_len := 32 |}
         (quiet waypoint_store [Received waypoint_command])) = Done ESP_OK.
Proof.
  refine (proj1 (proj1
            (zero_leaves_register_nonzero_overwrites
               {| method := HTTP_POST; content_len := 32 |}
               (quiet waypoint_store [Received waypoint_command])
               waypoint_command [] ["LAT"; "LONG"; "ALT"; "CALT"; "VEL"]
               51.5%float 0%float 120%float 0%float (-7)%float _ _))).
  - repeat split; vm_compute; reflexivity.
  - vm_compute. reflexivity.
Defined.

(** A value that [std::stod] turns away as out of range, such as [1e-310],
    is not decoded: the exception leaves the handler before any register is
    written. *)
Lemma tiny_value_is_not_decoded (m : SharedMemory) :
  stod "1e-310" = Throw (out_of_range "stod") /\
  handle_SWP_incoming {| method := HTTP_POST; content_len := 19 |}
      (quiet m [Received "A1e-310_B0_C0_D0_E0"])
    = (Fault (Uncaught (out_of_range "stod")), quiet m []) /\
  handle_STATE_incoming {| method := HTTP_POST; content_len := 19 |}
      (quiet m [Received "A1e-310_B0_C0_D0_E0"])
    = (Fault (Uncaught (out_of_range "stod")), quiet m []).
Proof. repeat split; vm_compute; reflexivity. Qed.

End Ingestion.

(* ===================================================================== *)
(** * Facts about text *)
(* ===================================================================== *)

Module TextFacts.
Import Cxx Text CxxFacts.

(** ** Reading back decimal digits *)

Lemma read_digits_stop (acc n : Z) (s : string) :
  no_leading_digit s -> read_digits digit_val 10 acc n s = (acc, n, s).
Proof. destruct s as [|c s]; simpl; [reflexivity | now intros ->]. Qed.

Lemma read_digits_uint (d : Decimal.uint) (acc n : Z) (rest : string) :
  no_leading_digit rest ->
  read_digits digit_val 10 acc n (NilEmpty.string_of_uint d ++ rest)
    = (uint_value d acc, n + size (NilEmpty.string_of_uint d), rest).
Proof.
  intros Hrest. revert acc n.
  induction d; intros acc n; cbn [NilEmpty.string_of_uint uint_value];
    rewrite ?append_cons, ?append_empty.
  1:{ rewrite read_digits_stop by exact Hrest. unfold size. simpl. f_equal. f_equal. lia. }
  all: cbn [read_digits].
  all: match goal with
    | |- context [digit_val ?c] =>
        let v := eval vm_compute in (digit_val c) in change (digit_val c) with v
    end.
  all: cbv iota; rewrite IHd; unfold size; cbn [String.length];
    rewrite Nat2Z.inj_succ; f_equal; f_equal; lia.
Qed.

Lemma uint_value_pos (d : Decimal.uint) (p : positive) :
  uint_value d (Zpos p) = Zpos (Pos.of_uint_acc d p).
Proof.
  revert p. induction d; intros p; cbn [uint_value Pos.of_uint_acc];
    [reflexivity | ..];
    match goal with
    | |- uint_value _ ?a = Zpos (Pos.of_uint_acc _ ?q) =>
        replace a with (Zpos q) by lia
    end; apply IHd.
Qed.

Lemma uint_value_of_uint (d : Decimal.uint) :
  uint_value d 0 = Z.of_N (Pos.of_uint d).
Proof.
  induction d; cbn [uint_value Pos.of_uint]; try reflexivity;
    [exact IHd | ..];
    match goal with
    | |- uint_value _ ?a = _ =>
        let v := eval vm_compute in a in change a with v
    end; rewrite uint_value_pos; reflexivity.
Qed.

Lemma decimal_nil_empty (n : Z) :
  decimal n = NilEmpty.string_of_uint (N.to_uint (Z.to_N n)).
Proof.
  unfold decimal, NilZero.string_of_uint.
  destruct (Z.to_N n) as [|p]; [reflexivity |].
  pose proof (DecimalPos.Unsigned.to_uint_nonnil p) as Hnil.
  change (N.to_uint (Npos p)) with (Pos.to_uint p).
  destruct (Pos.to_uint p); [contradiction | reflexivity..].
Qed.

(** Reading the digits that [decimal] wrote gives the number back and stops
    at the first character that is not a digit. *)
Lemma read_digits_decimal (n : Z) (rest : string) :
  0 <= n -> no_leading_digit rest ->
  read_digits digit_val 10 0 0 (decimal n ++ rest) = (n, size (decimal n), rest).
Proof.
  intros Hn Hrest. rewrite decimal_nil_empty.
  rewrite (read_digits_uint _ 0 0 rest Hrest), uint_value_of_uint.
  change (Pos.of_uint ?d) with (N.of_uint d).
  rewrite DecimalN.Unsigned.of_to, Z2N.id by exact Hn. reflexivity.
Qed.

Lemma decimal_size_pos (n : Z) : 0 < size (decimal n).
Proof.
  destruct (decimal_head n) as (c & r & -> & _). unfold size. simpl. lia.
Qed.

Lemma digit_not_space (c : ascii) : is_digit c = true -> isspace c = false.
Proof.
  unfold is_digit. simpl.
  repeat (destruct (Ascii.eqb c _) eqn:E;
          [apply Ascii.eqb_eq in E; subst c; reflexivity | clear E]).
  discriminate.
Qed.

Lemma digit_not_sign (c : ascii) (s : string) :
  is_digit c = true -> read_sign (String c s) = (false, String c s).
Proof.
  unfold is_digit. simpl.
  repeat (destruct (Ascii.eqb c _) eqn:E;
          [apply Ascii.eqb_eq in E; subst c; reflexivity | clear E]).
  discriminate.
Qed.

Lemma append_empty_r (a : string) : a ++ EmptyString = a.
Proof. induction a as [|x a IH]; [reflexivity |]. rewrite append_cons. now f_equal. Qed.

(** [atoi] on what [itoa] printed for an [int]. *)
Lemma atoi_itoa (n : Z) : INT_MIN <= n <= INT_MAX -> atoi (itoa n) = n.
Proof.
  intros Hn. unfold atoi, itoa.
  destruct (n <? 0) eqn:Hneg.
  - apply Z.ltb_lt in Hneg.
    change (skip_space (String "-" ?s)) with (String "-" s).
    cbn [read_sign].
    rewrite <- (append_empty_r (decimal (- n))) at 1.
    rewrite read_digits_decimal by (simpl; lia || exact I).
    unfold INT_MIN, INT_MAX in *. lia.
  - apply Z.ltb_ge in Hneg.
    destruct (decimal_head n) as (c & r & Hd & Hc).
    rewrite Hd. cbn [skip_space]. rewrite (digit_not_space _ Hc).
    rewrite (digit_not_sign _ _ Hc). rewrite <- Hd.
    rewrite <- (append_empty_r (decimal n)) at 1.
    rewrite read_digits_decimal by (simpl; lia || exact I).
    unfold INT_MIN, INT_MAX in *. lia.
Qed.

(** [strtoul] and [strtoull] on the digits of a number that fits. *)
Lemma stou_decimal (bits : Z) (what : string) (n : Z) (rest : string) :
  0 <= n < 2 ^ bits -> no_leading_digit rest ->
  stou bits what (decimal n ++ rest) = Ok n.
Proof.
  intros Hn Hrest. unfold stou.
  destruct (decimal_head n) as (c & r & Hd & Hc).
  rewrite Hd, append_cons. cbn [skip_space]. rewrite (digit_not_space _ Hc).
  rewrite (digit_not_sign _ _ Hc). rewrite <- append_cons, <- Hd.
  rewrite read_digits_decimal by (lia || exact Hrest).
  pose proof (decimal_size_pos n) as Hpos.
  destruct (size (decimal n) =? 0) eqn:Hz; [apply Z.eqb_eq in Hz; lia |].
  destruct (2 ^ bits <=? n) eqn:Hb; [apply Z.leb_le in Hb; lia | reflexivity].
Qed.

(** On the text of an [int], [strtoul] yields the value modulo 2^32. *)
Lemma stoul_itoa (n : Z) :
  INT_MIN <= n <= INT_MAX -> stoul (itoa n) = Ok (n mod 2 ^ 32).
Proof.
  intros Hn. unfold itoa. destruct (n <? 0) eqn:Hneg.
  - apply Z.ltb_lt in Hneg. unfold stoul, stou.
    change (skip_space (String "-" ?s)) with (String "-" s).
    cbn [read_sign].
    rewrite <- (append_empty_r (decimal (- n))) at 1.
    rewrite read_digits_decimal by (simpl; lia || exact I).
    pose proof (decimal_size_pos (- n)) as Hpos.
    destruct (size (decimal (- n)) =? 0) eqn:Hz; [apply Z.eqb_eq in Hz; lia |].
    unfold INT_MIN, INT_MAX in *.
    destruct (2 ^ 32 <=? - n) eqn:Hb; [apply Z.leb_le in Hb; lia |].
    f_equal. rewrite <- (Z.mod_add n 1 (2 ^ 32)) by lia. f_equal. lia.
  - apply Z.ltb_ge in Hneg. unfold stoul.
    rewrite <- (append_empty_r (decimal n)).
    unfold INT_MIN, INT_MAX in *.
    rewrite stou_decimal by (lia || exact I). f_equal.
    symmetry. apply Z.mod_small. lia.
Qed.

(** ** Searching *)

Lemma length_append (a b : string) :
  String.length (a ++ b) = (String.length a + String.length b)%nat.
Proof.
  induction a as [|x a IH]; [now rewrite append_empty |].
  rewrite append_cons. simpl. now rewrite IH.
Qed.

Lemma starts_with_append (pat tail : string) : starts_with pat (pat ++ tail) = true.
Proof.
  induction pat as [|x pat IH]; [reflexivity |].
  rewrite append_cons. simpl. now rewrite Ascii.eqb_refl.
Qed.

Lemma diverges_append (pat s b : string) :
  diverges pat s = true -> starts_with pat (s ++ b) = false.
Proof.
  revert s. induction pat as [|x pat IH]; intros [|y s];
    rewrite ?append_cons; simpl; try discriminate.
  destruct (Ascii.eqb x y); [apply IH | reflexivity].
Qed.

Lemma index_of_cons_miss (pat : string) (c : ascii) (s : string) :
  starts_with pat (String c s) = false ->
  index_of pat (String c s) = option_map S (index_of pat s).
Proof. intros H. cbn [index_of]. now rewrite H. Qed.

(** No occurrence begins inside a text that is clear of the pattern. *)
Lemma index_of_clear (pat a b : string) :
  clear_of pat a = true ->
  index_of pat (a ++ b) = option_map (Nat.add (String.length a)) (index_of pat b).
Proof.
  induction a as [|x a IH]; intros Hc.
  - rewrite append_empty. now destruct (index_of pat b).
  - cbn [clear_of] in Hc. apply andb_prop in Hc as [Hd Hc].
    rewrite append_cons, index_of_cons_miss
      by (rewrite <- append_cons; apply diverges_append, Hd).
    rewrite (IH Hc). now destruct (index_of pat b).
Qed.

Lemma starts_with_absent (pat a : string) (c : ascii) (b : string) :
  mem_char c pat = false ->
  starts_with pat (a ++ String c b) = true -> starts_with pat a = true.
Proof.
  revert a. induction pat as [|x pat IH]; intros a Hc; [reflexivity |].
  cbn [mem_char] in Hc.
  destruct (Ascii.eqb c x) eqn:Hcx; [discriminate |].
  destruct a as [|y a].
  - rewrite append_empty. simpl. rewrite Ascii.eqb_sym, Hcx. discriminate.
  - rewrite append_cons. simpl.
    destruct (Ascii.eqb x y); [apply IH, Hc | discriminate].
Qed.

(** A text without the pattern, followed by a character that the pattern
    does not have: the first occurrence comes after that character. *)
Lemma index_of_absent (pat a : string) (c : ascii) (b : string) :
  index_of pat a = None -> mem_char c pat = false ->
  index_of pat (a ++ String c b)
    = option_map (Nat.add (S (String.length a))) (index_of pat b).
Proof.
  intros Ha Hc. induction a as [|x a IH].
  - rewrite append_empty.
    assert (Hs : starts_with pat (String c b) = false).
    { destruct (starts_with pat (String c b)) eqn:Hs; [| reflexivity].
      apply (starts_with_absent pat EmptyString c b Hc) in Hs.
      simpl in Ha. now rewrite Hs in Ha. }
    rewrite (index_of_cons_miss _ _ _ Hs). now destruct (index_of pat b).
  - cbn [index_of] in Ha.
    destruct (starts_with pat (String x a)) eqn:Hs; [discriminate |].
    destruct (index_of pat a) eqn:Hi; [discriminate |].
    rewrite append_cons, index_of_cons_miss.
    + rewrite IH by reflexivity. now destruct (index_of pat b).
    + destruct (starts_with pat (String x (a ++ String c b))) eqn:Hs'; [| reflexivity].
      rewrite <- append_cons in Hs'.
      apply (starts_with_absent _ _ _ _ Hc) in Hs'. congruence.
Qed.

(** A text made of characters other than the one the pattern begins with. *)
Lemma clear_of_other_chars (p : ascii) (pat a : string) (ok : ascii -> bool) :
  (forall c, ok c = true -> Ascii.eqb p c = false) ->
  all_chars ok a = true -> clear_of (String p pat) a = true.
Proof.
  intros Hok. induction a as [|x a IH]; [reflexivity |].
  simpl. intros [Hx Ha]%andb_prop. rewrite (Hok _ Hx). simpl. apply IH, Ha.
Qed.

Lemma first_at_nil (pat : string) : first_at pat EmptyString.
Proof.
  intros tail. rewrite append_empty.
  destruct pat as [|p pat]; [now destruct tail |].
  rewrite append_cons. cbn [index_of].
  rewrite <- append_cons, starts_with_append. reflexivity.
Qed.

Lemma first_at_clear (pat a pre : string) :
  clear_of pat a = true -> first_at pat pre -> first_at pat (a ++ pre).
Proof.
  intros Hc Hpre tail. rewrite append_assoc, (index_of_clear _ _ _ Hc), Hpre.
  simpl. now rewrite length_append.
Qed.

Lemma first_at_absent (pat a : string) (c : ascii) (pre : string) :
  index_of pat a = None -> mem_char c pat = false ->
  first_at pat pre -> first_at pat (a ++ String c pre).
Proof.
  intros Ha Hc Hpre tail.
  rewrite append_assoc, append_cons, (index_of_absent _ _ _ _ Ha Hc), Hpre.
  simpl. rewrite length_append. simpl. f_equal. lia.
Qed.

Lemma index_of_LF (v rest : string) :
  all_chars not_LF v = true ->
  index_of LF (v ++ LF ++ rest) = Some (String.length v).
Proof.
  induction v as [|x v IH]; intros Hv.
  - rewrite append_empty. reflexivity.
  - simpl in Hv. apply andb_prop in Hv as [Hx Hv].
    rewrite append_cons. cbn [index_of]. unfold LF at 1. cbn [starts_with].
    unfold not_LF in Hx. apply negb_true_iff in Hx.
    rewrite Ascii.eqb_sym, Hx, (IH Hv). reflexivity.
Qed.

Lemma digit_not_LF (c : ascii) : is_digit c = true -> not_LF c = true.
Proof.
  unfold is_digit. simpl.
  repeat (destruct (Ascii.eqb c _) eqn:E;
          [apply Ascii.eqb_eq in E; subst c; reflexivity | clear E]).
  discriminate.
Qed.

Lemma decimal_not_LF (n : Z) : all_chars not_LF (decimal n) = true.
Proof. eapply all_chars_weaken; [apply digit_not_LF | apply decimal_digits]. Qed.

Lemma itoa_not_LF (n : Z) : all_chars not_LF (itoa n) = true.
Proof.
  unfold itoa. destruct (n <? 0); [| apply decimal_not_LF].
  cbn [all_chars]. now rewrite decimal_not_LF.
Qed.

Lemma sign_or_digit_weaken (ok : ascii -> bool) (n : Z) :
  ok "-"%char = true -> (forall c, is_digit c = true -> ok c = true) ->
  all_chars ok (itoa n) = true.
Proof.
  intros Hm Hd. unfold itoa.
  destruct (n <? 0); cbn [all_chars]; rewrite ?Hm;
    (eapply all_chars_weaken; [apply Hd | apply decimal_digits]).
Qed.

(** Neither the digits of a number nor its sign begin an occurrence of a
    pattern that starts with a letter. *)
Lemma clear_of_itoa (p : ascii) (pat : string) (n : Z) :
  is_digit p = false -> Ascii.eqb p "-"%char = false ->
  clear_of (String p pat) (itoa n) = true.
Proof.
  intros Hp Hm.
  apply (clear_of_other_chars p pat _ (fun c => negb (Ascii.eqb p c))).
  - intros c. now rewrite negb_true_iff.
  - apply sign_or_digit_weaken; [now rewrite Hm |].
    intros c Hc. apply negb_true_iff.
    destruct (Ascii.eqb p c) eqn:E; [| reflexivity].
    apply Ascii.eqb_eq in E. subst c. congruence.
Qed.

Lemma clear_of_decimal (p : ascii) (pat : string) (n : Z) :
  is_digit p = false -> clear_of (String p pat) (decimal n) = true.
Proof.
  intros Hp.
  apply (clear_of_other_chars p pat _ is_digit); [| apply decimal_digits].
  intros c Hc. destruct (Ascii.eqb p c) eqn:E; [| reflexivity].
  apply Ascii.eqb_eq in E. subst c. congruence.
Qed.

End TextFacts.

(* ===================================================================== *)
(** * Reading back what was printed *)
(* ===================================================================== *)

Module PrintRead.
Import Cxx Text CxxFacts TextFacts.

(** ** Strings of decimal digits *)

Lemma is_digit_val (c : ascii) :
  is_digit c = true -> exists d, digit_val c = Some d /\ 0 <= d <= 9.
Proof.
  unfold is_digit. simpl.
  repeat (destruct (Ascii.eqb c _) eqn:E;
          [apply Ascii.eqb_eq in E; subst c; intros _; eexists;
           split; [vm_compute; reflexivity | lia]
          | clear E]).
  discriminate.
Qed.

Lemma read_digits_count (ds : string) (acc n k : Z) :
  read_digits digit_val 10 acc (n + k) ds =
    (let '(v, c, r) := read_digits digit_val 10 acc n ds in (v, c + k, r)).
Proof.
  revert acc n. induction ds as [|c ds IH]; intros acc n; [reflexivity |].
  cbn [read_digits]. destruct (digit_val c) as [d|]; [| reflexivity].
  replace (n + k + 1) with (n + 1 + k) by lia. apply IH.
Qed.

Lemma read_digits_all (ds rest : string) (acc n : Z) :
  all_chars is_digit ds = true -> no_leading_digit rest ->
  read_digits digit_val 10 acc n (ds ++ rest) = (digits_value ds acc, n + size ds, rest).
Proof.
  intros Hds Hrest. revert acc n. unfold digits_value.
  induction ds as [|c ds IH]; intros acc n.
  - rewrite append_empty, read_digits_stop by exact Hrest.
    unfold size. cbn. rewrite Z.add_0_r. reflexivity.
  - rewrite append_cons. cbn [all_chars] in Hds. apply andb_prop in Hds as [Hc Hds].
    destruct (is_digit_val c Hc) as (d & Hd & _).
    cbn [read_digits]. rewrite Hd. rewrite (IH Hds).
    unfold size. cbn [String.length]. rewrite Nat2Z.inj_succ.
    replace (n + 1 + Z.of_nat (String.length ds))
      with (n + Z.succ (Z.of_nat (String.length ds))) by lia.
    f_equal. f_equal.
    replace (0 + 1) with (1 + 0) by lia.
    rewrite (read_digits_count ds _ 1 0).
    change (1 + 0) with (0 + 1).
    rewrite (read_digits_count ds _ 0 1).
    destruct (read_digits digit_val 10 (10 * acc + d) 0 ds) as [[v k] r]. reflexivity.
Qed.

Lemma digits_value_cons (c : ascii) (ds : string) (acc d : Z) :
  digit_val c = Some d ->
  digits_value (String c ds) acc = digits_value ds (10 * acc + d).
Proof.
  intros Hd. unfold digits_value. cbn [read_digits]. rewrite Hd.
  replace (0 + 1) with (1 + 0) by lia.
  rewrite (read_digits_count ds _ 1 0).
  change (0 + 1) with 1.
  rewrite <- (Z.add_0_l 1) at 1. rewrite (read_digits_count ds _ 0 1).
  destruct (read_digits digit_val 10 (10 * acc + d) 0 ds) as [[v k] r]. reflexivity.
Qed.

Lemma digits_value_bounds (ds : string) (acc : Z) :
  all_chars is_digit ds = true -> 0 <= acc ->
  acc * 10 ^ size ds <= digits_value ds acc < (acc + 1) * 10 ^ size ds.
Proof.
  revert acc. induction ds as [|c ds IH]; intros acc Hds Hacc.
  - unfold digits_value, size. simpl. lia.
  - cbn [all_chars] in Hds. apply andb_prop in Hds as [Hc Hds].
    destruct (is_digit_val c Hc) as (d & Hd & Hrange).
    rewrite (digits_value_cons _ _ _ _ Hd).
    specialize (IH (10 * acc + d) Hds ltac:(lia)).
    unfold size in *. cbn [String.length]. rewrite Nat2Z.inj_succ, Z.pow_succ_r by lia.
    nia.
Qed.

Lemma digits_value_append (a b : string) (acc : Z) :
  all_chars is_digit a = true ->
  digits_value (a ++ b) acc = digits_value b (digits_value a acc).
Proof.
  revert acc. induction a as [|c a IH]; intros acc Ha.
  - reflexivity.
  - cbn [all_chars] in Ha. apply andb_prop in Ha as [Hc Ha].
    destruct (is_digit_val c Hc) as (d & Hd & _).
    rewrite append_cons, !(digits_value_cons _ _ _ _ Hd). apply IH, Ha.
Qed.

(** ** The digits that [decimal] writes *)

Lemma decimal_pos (p : positive) :
  decimal (Zpos p) = NilEmpty.string_of_uint (Pos.to_uint p).
Proof. now rewrite decimal_nil_empty. Qed.

(** No leading zero. *)
Lemma decimal_first (n : Z) :
  0 < n ->
  exists c rest d, decimal n = String c rest /\ digit_val c = Some d /\ 1 <= d <= 9.
Proof.
  destruct n as [|p|p]; try lia. intros _. rewrite decimal_pos.
  pose proof (DecimalN.Unsigned.to_of (N.to_uint (Npos p))) as Hnorm.
  rewrite DecimalN.Unsigned.of_to in Hnorm.
  change (N.to_uint (Npos p)) with (Pos.to_uint p) in Hnorm.
  pose proof (DecimalPos.Unsigned.to_uint_nonzero p) as Hnz.
  pose proof (DecimalPos.Unsigned.to_uint_nonnil p) as Hnil.
  unfold Decimal.unorm in Hnorm.
  pose proof (DecimalFacts.nzhead_nonzero (Pos.to_uint p)) as Hhead.
  destruct (Decimal.nzhead (Pos.to_uint p)) as [|u|u|u|u|u|u|u|u|u|u] eqn:E;
    rewrite Hnorm in *;
    try (cbn [NilEmpty.string_of_uint]; eexists _, _, _;
         split; [reflexivity | split; [vm_compute; reflexivity | lia]]).
  - contradiction.
  - exfalso. apply (Hhead u). reflexivity.
Qed.

Lemma digits_value_decimal (n : Z) : 0 <= n -> digits_value (decimal n) 0 = n.
Proof.
  intros Hn. unfold digits_value.
  rewrite <- (append_empty_r (decimal n)).
  now rewrite read_digits_decimal by (exact Hn || exact I).
Qed.

Lemma decimal_upper (n : Z) : 0 <= n -> n < 10 ^ size (decimal n).
Proof.
  intros Hn. pose proof (digits_value_bounds (decimal n) 0 (decimal_digits n) ltac:(lia)) as H.
  rewrite digits_value_decimal in H by exact Hn. lia.
Qed.

Lemma decimal_lower (n : Z) : 0 < n -> 10 ^ (size (decimal n) - 1) <= n.
Proof.
  intros Hn. destruct (decimal_first n Hn) as (c & rest & d & Hdec & Hd & Hrange).
  pose proof (digits_value_decimal n ltac:(lia)) as Hv.
  pose proof (decimal_digits n) as Hall.
  rewrite Hdec in Hv, Hall |- *. cbn [all_chars] in Hall.
  apply andb_prop in Hall as [_ Hall].
  rewrite (digits_value_cons _ _ _ _ Hd) in Hv.
  pose proof (digits_value_bounds rest (10 * 0 + d) Hall ltac:(lia)) as Hb.
  unfold size in *. cbn [String.length]. rewrite Nat2Z.inj_succ.
  replace (Z.succ (Z.of_nat (String.length rest)) - 1) with (Z.of_nat (String.length rest)) by lia.
  nia.
Qed.

(** The number of digits of a number below [10 ^ k]. *)
Lemma decimal_size_le (n k : Z) : 0 < n < 10 ^ k -> size (decimal n) <= k.
Proof.
  intros [Hn Hk]. pose proof (decimal_lower n Hn) as Hlo.
  destruct (Z.le_gt_cases (size (decimal n)) k) as [Hle | Hgt]; [exact Hle |].
  exfalso. assert (0 <= k).
  { destruct (Z.le_gt_cases 0 k); [assumption |]. rewrite Z.pow_neg_r in Hk by lia. lia. }
  assert (10 ^ k <= 10 ^ (size (decimal n) - 1)) by (apply Z.pow_le_mono_r; lia). lia.
Qed.

Lemma decimal_size_ge (n k : Z) : 0 <= k -> 10 ^ k <= n -> k + 1 <= size (decimal n).
Proof.
  intros Hk Hn. assert (0 < 10 ^ k) by (apply Z.pow_pos_nonneg; lia).
  pose proof (decimal_upper n ltac:(lia)) as Hup.
  destruct (Z.le_gt_cases (k + 1) (size (decimal n))) as [Hle | Hgt]; [exact Hle |].
  exfalso. assert (10 ^ size (decimal n) <= 10 ^ k).
  { apply Z.pow_le_mono_r; [lia |]. lia. }
  lia.
Qed.

(** ** Rounding to significant digits *)

Lemma round_half_even_bounds (a b lo hi : Z) :
  0 < b -> lo * b <= a -> a < hi * b ->
  lo <= round_half_even a b <= hi.
Proof.
  intros Hb Hlo Hhi. unfold round_half_even.
  pose proof (Z.div_eucl_eq a b ltac:(lia)) as Heq.
  pose proof (Z.mod_pos_bound a b Hb) as Hr. unfold Z.modulo in Hr.
  destruct (Z.div_eucl a b) as [q r].
  assert (lo <= q) by nia. assert (q < hi) by nia.
  destruct (2 * r ?= b); [destruct (Z.even q) | |]; lia.
Qed.

Lemma round_half_even_exact (k b : Z) : 0 < b -> round_half_even (k * b) b = k.
Proof.
  intros Hb. unfold round_half_even.
  pose proof (Z.div_eucl_eq (k * b) b ltac:(lia)) as Heq.
  pose proof (Z.mod_pos_bound (k * b) b Hb) as Hr. unfold Z.modulo in Hr.
  destruct (Z.div_eucl (k * b) b) as [q r].
  assert (q = k) by nia. assert (r = 0) by nia. subst q r.
  destruct (2 * 0 ?= b) eqn:E;
    [apply Z.compare_eq_iff in E; lia | reflexivity | apply Z.compare_gt_iff in E; lia].
Qed.

(** [exp10] is the decimal exponent of the quotient. *)
Lemma exp10_bounds (num den : Z) :
  0 < num -> 0 < den ->
  (0 <= exp10 num den /\
   den * 10 ^ exp10 num den <= num < den * 10 ^ (exp10 num den + 1)) \/
  (exp10 num den < 0 /\
   num * 10 ^ (- exp10 num den - 1) < den <= num * 10 ^ (- exp10 num den)).
Proof.
  intros Hnum Hden. unfold exp10.
  destruct (den <=? num) eqn:Hle; [apply Z.leb_le in Hle | apply Z.leb_gt in Hle].
  - left.
    assert (Hq : 0 < num / den) by (apply Z.div_str_pos; lia).
    pose proof (decimal_size_pos (num / den)) as Hsz.
    pose proof (decimal_lower _ Hq) as Hlo.
    pose proof (decimal_upper (num / den) ltac:(lia)) as Hup.
    pose proof (Z.div_mod num den ltac:(lia)) as Hdm.
    pose proof (Z.mod_pos_bound num den Hden) as Hr.
    replace (size (decimal (num / den)) - 1 + 1) with (size (decimal (num / den))) by lia.
    split; [lia |]. split; nia.
  - right. set (k := (den + num - 1) / num - 1).
    pose proof (Z.div_mod (den + num - 1) num ltac:(lia)) as Hdm.
    pose proof (Z.mod_pos_bound (den + num - 1) num Hnum) as Hr.
    assert (Hk : 0 < k) by (subst k; nia).
    pose proof (decimal_size_pos k) as Hsz.
    pose proof (decimal_lower _ Hk) as Hlo.
    pose proof (decimal_upper k ltac:(lia)) as Hup.
    replace (- - size (decimal k)) with (size (decimal k)) by lia.
    replace (- - size (decimal k) - 1) with (size (decimal k) - 1) by lia.
    split; [lia |]. subst k. split; nia.
Qed.

Lemma pow10_split (a b : Z) : 0 <= a -> 0 <= b -> 10 ^ (a + b) = 10 ^ a * 10 ^ b.
Proof. intros. apply Z.pow_add_r; assumption. Qed.

(** Six significant digits: the digits are a number of six digits. *)
Lemma significant_bounds (num den : Z) :
  0 < num -> 0 < den ->
  10 ^ 5 <= fst (significant 6 num den) < 10 ^ 6 /\
  exp10 num den <= snd (significant 6 num den) <= exp10 num den + 1.
Proof.
  intros Hnum Hden. unfold significant.
  set (x := exp10 num den).
  assert (Hq : 10 ^ 5 <=
            (if 6 - 1 <=? x then round_half_even num (den * 10 ^ (x - (6 - 1)))
             else round_half_even (num * 10 ^ (6 - 1 - x)) den) <= 10 ^ 6).
  { destruct (exp10_bounds num den Hnum Hden) as [(Hx & Hlo & Hhi) | (Hx & Hlo & Hhi)];
      fold x in Hx, Hlo, Hhi.
    - destruct (6 - 1 <=? x) eqn:H5; [apply Z.leb_le in H5 | apply Z.leb_gt in H5].
      + assert (Hp : 0 < 10 ^ (x - (6 - 1))) by (apply Z.pow_pos_nonneg; lia).
        assert (E1 : 10 ^ x = 10 ^ 5 * 10 ^ (x - (6 - 1))).
        { rewrite <- pow10_split by lia. f_equal; lia. }
        assert (E2 : 10 ^ (x + 1) = 10 ^ 6 * 10 ^ (x - (6 - 1))).
        { rewrite <- pow10_split by lia. f_equal; lia. }
        apply round_half_even_bounds; [nia | nia | nia].
      + assert (Hp : 0 < 10 ^ (6 - 1 - x)) by (apply Z.pow_pos_nonneg; lia).
        assert (Hx0 : 0 < 10 ^ x) by (apply Z.pow_pos_nonneg; lia).
        assert (E1 : 10 ^ 5 = 10 ^ x * 10 ^ (6 - 1 - x)).
        { rewrite <- pow10_split by lia. f_equal; lia. }
        assert (E2 : 10 ^ 6 = 10 ^ (x + 1) * 10 ^ (6 - 1 - x)).
        { rewrite <- pow10_split by lia. f_equal; lia. }
        apply round_half_even_bounds; [lia | |].
        * rewrite E1. nia.
        * rewrite E2. nia.
    - destruct (6 - 1 <=? x) eqn:H5; [apply Z.leb_le in H5; lia | clear H5].
      assert (Hp : 0 < 10 ^ (- x - 1)) by (apply Z.pow_pos_nonneg; lia).
      assert (E1 : 10 ^ (6 - 1 - x) = 10 ^ 5 * 10 ^ (- x)).
      { rewrite <- pow10_split by lia. f_equal; lia. }
      assert (E2 : 10 ^ (6 - 1 - x) = 10 ^ 6 * 10 ^ (- x - 1)).
      { rewrite <- pow10_split by lia. f_equal; lia. }
      apply round_half_even_bounds; [lia | |].
      + rewrite E1. nia.
      + rewrite E2. nia. }
  destruct (_ =? 10 ^ 6) eqn:Hten; cbn [fst snd].
  - split; [split; [apply Z.pow_le_mono_r; lia | apply Z.pow_lt_mono_r; lia] | lia].
  - apply Z.eqb_neq in Hten. split; lia.
Qed.

(** ** Reading a printed number *)

Lemma output_char_not_x (x : ascii) :
  is_output_char x = true -> Ascii.eqb (lower x) "x" = false.
Proof.
  unfold is_output_char. simpl.
  repeat (destruct (Ascii.eqb x _) eqn:E;
          [apply Ascii.eqb_eq in E; subst x; intros _; reflexivity | clear E]).
  discriminate.
Qed.

Lemma starts_hex_output (s : string) :
  all_chars is_output_char s = true -> starts_hex s = None.
Proof.
  destruct s as [|c [|x rest]]; intros Hs.
  - reflexivity.
  - destruct c as [[] [] [] [] [] [] [] []]; reflexivity.
  - cbn [all_chars] in Hs. apply andb_prop in Hs as [_ Hs].
    apply andb_prop in Hs as [Hx _]. apply output_char_not_x in Hx.
    destruct c as [[] [] [] [] [] [] [] []]; try reflexivity.
    cbn [starts_hex]. now rewrite Hx.
Qed.

Lemma digit_no_word (c : ascii) (rest : string) :
  is_digit c = true ->
  strip_prefix_ci "inf" (String c rest) = None /\
  strip_prefix_ci "nan" (String c rest) = None.
Proof.
  unfold is_digit. simpl.
  repeat (destruct (Ascii.eqb c _) eqn:E;
          [apply Ascii.eqb_eq in E; subst c; intros _; split; reflexivity | clear E]).
  discriminate.
Qed.

(** [stod] on a text that starts with a digit, or with [-] and a digit, and
    is made of the characters of a printed number. *)
Lemma stod_number (neg : bool) (c : ascii) (rest : string) :
  is_digit c = true ->
  all_chars is_output_char (String c rest) = true ->
  stod (if neg then String "-" (String c rest) else String c rest) =
    let '(m, n, e10) := read_number digit_val 10 1 "e" (String c rest) in
    if n =? 0 then Throw (invalid_argument "stod")
    else
      let '(num, den) := scaled m 10 e10 in
      range_checked num den (decimal_to_sf m e10) neg.
Proof.
  intros Hc Hout. unfold stod.
  assert (Hsign : read_sign (skip_space (if neg then String "-" (String c rest)
                                         else String c rest))
                  = (neg, String c rest)).
  { destruct neg.
    - reflexivity.
    - cbn [skip_space]. rewrite (digit_not_space _ Hc). apply digit_not_sign, Hc. }
  rewrite Hsign.
  destruct (digit_no_word c rest Hc) as [-> ->].
  rewrite (starts_hex_output _ Hout). reflexivity.
Qed.

Lemma no_leading_digit_point (s : string) : no_leading_digit (String "." s).
Proof. reflexivity. Qed.

Lemma no_leading_digit_e (s : string) : no_leading_digit (String "e" s).
Proof. reflexivity. Qed.

(** Digits, a point, digits, and the rest. *)
Lemma read_number_point (D F E : string) :
  all_chars is_digit D = true -> all_chars is_digit F = true ->
  D <> EmptyString -> no_leading_digit E ->
  read_number digit_val 10 1 "e" (D ++ String "." (F ++ E))
    = (digits_value F (digits_value D 0), size D + size F,
       exponent_after "e" E - size F).
Proof.
  intros HD HF Hne HE. unfold read_number.
  rewrite (read_digits_all D _ 0 0 HD (no_leading_digit_point _)).
  rewrite (read_digits_all F E _ 0 HF HE).
  assert (0 < size D) by (destruct D; [congruence | unfold size; simpl; lia]).
  pose proof (size_nonneg F).
  destruct (0 + size D + (0 + size F) =? 0) eqn:Hz; [apply Z.eqb_eq in Hz; lia |].
  repeat f_equal; lia.
Qed.

(** Digits and the rest, which does not start with a point. *)
Lemma read_number_whole (D E : string) :
  all_chars is_digit D = true -> D <> EmptyString ->
  E = EmptyString \/ (exists r, E = String "e" r) ->
  read_number digit_val 10 1 "e" (D ++ E)
    = (digits_value D 0, size D, exponent_after "e" E).
Proof.
  intros HD Hne HE. unfold read_number.
  assert (Hno : no_leading_digit E) by (destruct HE as [-> | [r ->]]; reflexivity).
  rewrite (read_digits_all D _ 0 0 HD Hno).
  assert (0 < size D) by (destruct D; [congruence | unfold size; simpl; lia]).
  assert (Hm : match E with
               | String "." rest => read_digits digit_val 10 (digits_value D 0) 0 rest
               | _ => (digits_value D 0, 0, E)
               end = (digits_value D 0, 0, E))
    by (destruct HE as [-> | [r ->]]; reflexivity).
  rewrite Hm.
  destruct (0 + size D + 0 =? 0) eqn:Hz; [apply Z.eqb_eq in Hz; lia |].
  repeat f_equal; lia.
Qed.

(** The fraction that [format_g] prints: nothing, or a point and digits. *)
Lemma read_number_fraction (D F E : string) :
  all_chars is_digit D = true -> all_chars is_digit F = true ->
  D <> EmptyString ->
  E = EmptyString \/ (exists r, E = String "e" r) ->
  read_number digit_val 10 1 "e" (D ++ with_point F ++ E)
    = (digits_value F (digits_value D 0), size D + size F,
       exponent_after "e" E - size F).
Proof.
  intros HD HF Hne HE. destruct F as [|f F].
  - cbn [with_point]. rewrite append_empty, read_number_whole by assumption.
    change (digits_value EmptyString (digits_value D 0)) with (digits_value D 0).
    change (size EmptyString) with 0. rewrite Z.add_0_r, Z.sub_0_r. reflexivity.
  - change (with_point (String f F) ++ E) with (String "." (String f F ++ E)).
    apply read_number_point; try assumption.
    destruct HE as [-> | [r ->]]; reflexivity.
Qed.

(** The exponent that [format_g] prints reads back. *)
Lemma exponent_after_printed (x : Z) :
  exponent_after "e"
    (String "e" (String (if x <? 0 then "-" else "+")
       (if Z.abs x <? 10 then String "0" (decimal (Z.abs x)) else decimal (Z.abs x))))
    = x.
Proof.
  cbn [exponent_after]. change (Ascii.eqb (lower "e") "e") with true. cbv iota.
  unfold read_exponent.
  assert (Hsign : read_sign (String (if x <? 0 then "-" else "+")
                     (if Z.abs x <? 10 then String "0" (decimal (Z.abs x))
                      else decimal (Z.abs x)))
                  = (x <? 0,
                     if Z.abs x <? 10 then String "0" (decimal (Z.abs x))
                     else decimal (Z.abs x))) by (destruct (x <? 0); reflexivity).
  rewrite Hsign.
  set (body := if Z.abs x <? 10 then String "0" (decimal (Z.abs x)) else decimal (Z.abs x)).
  assert (Hbody : all_chars is_digit body = true).
  { subst body. destruct (Z.abs x <? 10); [cbn [all_chars]; cbn |]; apply decimal_digits. }
  assert (Hval : digits_value body 0 = Z.abs x).
  { subst body. destruct (Z.abs x <? 10).
    - rewrite (digits_value_cons "0" _ 0 0) by reflexivity.
      apply digits_value_decimal. lia.
    - apply digits_value_decimal. lia. }
  assert (Hsize : 0 < size body).
  { subst body. pose proof (decimal_size_pos (Z.abs x)).
    destruct (Z.abs x <? 10); [unfold size in *; cbn [String.length]; lia | lia]. }
  rewrite <- (append_empty_r body).
  rewrite (read_digits_all body EmptyString 0 0 Hbody I), Hval.
  destruct (0 + size body =? 0) eqn:Hz; [apply Z.eqb_eq in Hz; lia |].
  destruct (x <? 0) eqn:Hx; [apply Z.ltb_lt in Hx | apply Z.ltb_ge in Hx]; lia.
Qed.

(** ** The range of a printed [float] *)

Lemma digits2_pos_upper (m : positive) : Zpos m < 2 ^ Zpos (digits2_pos m).
Proof.
  induction m as [m IH | m IH |]; cbn [digits2_pos]; [| | reflexivity];
    rewrite Pos2Z.inj_succ, Z.pow_succ_r by lia; lia.
Qed.

(** A binary32 number has a mantissa below 2^24 and an exponent from -149 to
    104. *)
Lemma binary32_bounds (s : bool) (m : positive) (e : Z) :
  binary32 (S754_finite s m e) = true -> Zpos m < 2 ^ 24 /\ -149 <= e <= 104.
Proof.
  unfold binary32, SpecFloat.valid_binary, bounded, canonical_mantissa.
  intros [Hcanon Hmax]%andb_prop.
  apply Z.eqb_eq in Hcanon. apply Z.leb_le in Hmax.
  unfold fexp, emin, prec32, emax32 in *.
  pose proof (digits2_pos_upper m) as Hm.
  assert (Hd : Zpos (digits2_pos m) <= 24) by lia.
  split; [| lia].
  eapply Z.lt_le_trans; [exact Hm |]. apply Z.pow_le_mono_r; lia.
Qed.

Lemma size_take_le (n : nat) (s : string) : size (string_take n s) <= size s.
Proof.
  unfold size. revert s. induction n as [|n IH]; intros [|c s]; cbn; try lia.
  specialize (IH s). lia.
Qed.

Lemma size_drop_le (n : nat) (s : string) : size (string_drop n s) <= size s.
Proof.
  unfold size. revert s. induction n as [|n IH]; intros [|c s]; cbn; try lia.
  specialize (IH s). lia.
Qed.

Lemma size_strip_zeros_le (s : string) : size (strip_zeros s) <= size s.
Proof.
  unfold size. induction s as [|c s IH]; cbn [strip_zeros]; [lia |].
  destruct (strip_zeros s) as [|k ks].
  - destruct (Ascii.eqb c "0"); cbn; lia.
  - cbn [String.length] in *. lia.
Qed.

Lemma size_zeros (k : nat) : size (zeros k) = Z.of_nat k.
Proof. unfold size. induction k as [|k IH]; cbn [zeros String.length]; lia. Qed.

Lemma pow10_le (a b : Z) : 0 <= a <= b -> 10 ^ a <= 10 ^ b.
Proof. intros. apply Z.pow_le_mono_r; lia. Qed.

Lemma pow10_pos (a : Z) : 0 <= a -> 0 < 10 ^ a.
Proof. intros. apply Z.pow_pos_nonneg; lia. Qed.

(** A decimal number of moderate size is in the range of [double]. *)
Lemma range_checked_moderate (M e10 : Z) (neg : bool) :
  0 <= M < 10 ^ 20 -> -60 <= e10 <= 40 ->
  (let '(num, den) := scaled M 10 e10 in
   range_checked num den (decimal_to_sf M e10) neg)
  = Ok (SF2Prim (sf_set_sign neg (decimal_to_sf M e10))).
Proof.
  intros HM He.
  assert (HB : 10 ^ 60 < 2 ^ 1024 - 2 ^ 970) by (vm_compute; reflexivity).
  assert (HT : (2 ^ 54 - 1) * 10 ^ 60 < 2 ^ 1076) by (vm_compute; reflexivity).
  assert (H60 : 10 ^ 20 * 10 ^ 40 = 10 ^ 60) by reflexivity.
  assert (H54 : 0 < 2 ^ 54 - 1) by reflexivity.
  assert (H1076 : 0 < 2 ^ 1076) by reflexivity.
  unfold scaled, range_checked, overflows, tiny.
  remember (2 ^ 1024 - 2 ^ 970) as B eqn:EB in *.
  remember (2 ^ 1076) as T eqn:ET in *.
  remember (2 ^ 54 - 1) as U eqn:EU in *.
  remember (10 ^ 60) as S eqn:ES in *.
  remember (10 ^ 20) as V eqn:EV in *.
  assert (HV : 0 < V) by (subst V; reflexivity).
  destruct (0 <=? e10) eqn:Hsign; [apply Z.leb_le in Hsign | apply Z.leb_gt in Hsign].
  - pose proof (pow10_le e10 40 ltac:(lia)) as Hp.
    pose proof (pow10_pos e10 Hsign) as Hp0.
    remember (10 ^ e10) as P eqn:EP in *. remember (10 ^ 40) as Q eqn:EQ in *.
    clear EB ET EU ES EV EP EQ.
    destruct M as [|pm|pm]; [| | lia].
    + cbn [decimal_to_sf exactly]. rewrite !Z.mul_0_l.
      change (0 =? 0) with true. cbn [negb]. rewrite andb_false_r.
      destruct (B * 1 <=? 0) eqn:Ho; [apply Z.leb_le in Ho; nia | reflexivity].
    + assert (H1 : Zpos pm * P <= Zpos pm * Q) by (apply Z.mul_le_mono_nonneg_l; lia).
      assert (H2 : Zpos pm * Q < V * Q) by (apply Z.mul_lt_mono_pos_r; lia).
      assert (H3 : 1 * T <= Zpos pm * P * T) by (apply Z.mul_le_mono_nonneg_r; nia).
      assert (H4 : U * 1 <= U * S) by (apply Z.mul_le_mono_nonneg_l; nia).
      destruct (B * 1 <=? Zpos pm * P) eqn:Ho; [apply Z.leb_le in Ho; lia |].
      destruct (Zpos pm * P * T <? U * 1) eqn:Ht; [apply Z.ltb_lt in Ht; lia |].
      reflexivity.
  - pose proof (pow10_le (- e10) 60 ltac:(lia)) as Hp.
    pose proof (pow10_pos (- e10) ltac:(lia)) as Hp0.
    rewrite <- ES in Hp.
    remember (10 ^ (- e10)) as P eqn:EP in *.
    clear EB ET EU ES EV EP.
    destruct M as [|pm|pm]; [| | lia].
    + cbn [decimal_to_sf exactly]. rewrite ?Z.mul_0_l.
      change (0 =? 0) with true. cbn [negb]. rewrite andb_false_r.
      destruct (B * P <=? 0) eqn:Ho; [apply Z.leb_le in Ho; nia | reflexivity].
    + assert (H1 : B * 1 <= B * P) by (apply Z.mul_le_mono_nonneg_l; nia).
      assert (H2 : V <= S) by nia.
      assert (H3 : 1 * T <= Zpos pm * T) by (apply Z.mul_le_mono_nonneg_r; lia).
      assert (H4 : U * P <= U * S) by (apply Z.mul_le_mono_nonneg_l; lia).
      destruct (B * P <=? Zpos pm) eqn:Ho; [apply Z.leb_le in Ho; lia |].
      destruct (Zpos pm * T <? U * P) eqn:Ht; [apply Z.ltb_lt in Ht; lia |].
      reflexivity.
Qed.

(** The decimal exponent of a binary32 number. *)
Lemma exp10_binary32 (m : positive) (e : Z) :
  Zpos m < 2 ^ 24 -> -149 <= e <= 104 ->
  let '(num, den) := scaled (Zpos m) 2 e in
  0 < num /\ 0 < den /\ -45 <= exp10 num den <= 38.
Proof.
  intros Hm He. unfold scaled.
  assert (H39 : 2 ^ 24 * 2 ^ 104 < 10 ^ 39) by (vm_compute; reflexivity).
  assert (H45 : 2 ^ 149 < 10 ^ 45) by (vm_compute; reflexivity).
  assert (H8 : 2 ^ 24 < 10 ^ 8) by (vm_compute; reflexivity).
  destruct (0 <=? e) eqn:Hsign; [apply Z.leb_le in Hsign | apply Z.leb_gt in Hsign].
  - assert (Hp : 0 < 2 ^ e) by (apply Z.pow_pos_nonneg; lia).
    assert (Hp' : 2 ^ e <= 2 ^ 104) by (apply Z.pow_le_mono_r; lia).
    assert (Hnum : 0 < Zpos m * 2 ^ e) by lia.
    split; [exact Hnum |]. split; [lia |].
    destruct (exp10_bounds _ 1 Hnum ltac:(lia)) as [(Hx & Hlo & _) | (Hx & Hlo & Hhi)].
    + split; [lia |].
      destruct (Z.le_gt_cases (exp10 (Zpos m * 2 ^ e) 1) 38) as [Hle | Hgt]; [exact Hle |].
      exfalso. pose proof (pow10_le 39 (exp10 (Zpos m * 2 ^ e) 1) ltac:(lia)) as Hpow.
      assert (Zpos m * 2 ^ e < 2 ^ 24 * 2 ^ 104) by nia. lia.
    + exfalso.
      pose proof (pow10_pos (- exp10 (Zpos m * 2 ^ e) 1 - 1) ltac:(lia)). nia.
  - assert (Hp : 0 < 2 ^ (- e)) by (apply Z.pow_pos_nonneg; lia).
    assert (Hp' : 2 ^ (- e) <= 2 ^ 149) by (apply Z.pow_le_mono_r; lia).
    split; [lia |]. split; [exact Hp |].
    destruct (exp10_bounds (Zpos m) _ ltac:(lia) Hp) as [(Hx & Hlo & _) | (Hx & Hlo & Hhi)].
    + split; [lia |].
      destruct (Z.le_gt_cases (exp10 (Zpos m) (2 ^ (- e))) 38) as [Hle | Hgt]; [exact Hle |].
      exfalso. pose proof (pow10_le 39 (exp10 (Zpos m) (2 ^ (- e))) ltac:(lia)) as Hpow.
      assert (10 ^ 8 <= 10 ^ 39) by (apply pow10_le; lia). nia.
    + split; [| lia].
      destruct (Z.le_gt_cases (-45) (exp10 (Zpos m) (2 ^ (- e)))) as [Hle | Hgt]; [exact Hle |].
      exfalso.
      pose proof (pow10_le 45 (- exp10 (Zpos m) (2 ^ (- e)) - 1) ltac:(lia)) as Hpow.
      assert (1 * 10 ^ (- exp10 (Zpos m) (2 ^ (- e)) - 1)
              <= Zpos m * 10 ^ (- exp10 (Zpos m) (2 ^ (- e)) - 1))
        by (apply Z.mul_le_mono_nonneg_r; lia).
      lia.
Qed.

(** What [read_number] finds in the output of [format_g] for a binary32
    number: at least one digit, a mantissa and an exponent of moderate
    size. *)
Lemma format_g_reads (m : positive) (e : Z) :
  Zpos m < 2 ^ 24 -> -149 <= e <= 104 ->
  exists M n e10,
    read_number digit_val 10 1 "e" (format_g 6 m e) = (M, n, e10) /\
    0 < n /\ 0 <= M < 10 ^ 20 /\ -60 <= e10 <= 40.
Proof.
  intros Hm He. pose proof (exp10_binary32 m e Hm He) as Hexp.
  unfold format_g. unfold scaled in Hexp.
  destruct (if 0 <=? e then _ else _) as [num den].
  destruct Hexp as (Hnum & Hden & Hx).
  pose proof (significant_bounds num den Hnum Hden) as [Hq Hx'].
  destruct (significant 6 num den) as [q x]. cbn [fst snd] in Hq, Hx'.
  assert (Hxr : -45 <= x <= 39) by lia. clear Hx Hx'.
  pose proof (decimal_digits q) as Hds.
  assert (Hsize : size (decimal q) <= 6) by (apply decimal_size_le; lia).
  destruct (decimal_head q) as (c & r & Hhead & Hc).
  set (ds := decimal q) in *.
  assert (Hbound : forall D F : string,
            all_chars is_digit D = true -> all_chars is_digit F = true ->
            size D <= 7 -> size F <= 12 ->
            0 <= digits_value F (digits_value D 0) < 10 ^ 20).
  { intros D F HD HF HsD HsF.
    pose proof (digits_value_bounds D 0 HD ltac:(lia)) as H1.
    pose proof (digits_value_bounds F (digits_value D 0) HF ltac:(lia)) as H2.
    pose proof (size_nonneg D). pose proof (size_nonneg F).
    pose proof (pow10_le (size D) 7 ltac:(lia)).
    pose proof (pow10_le (size F) 12 ltac:(lia)).
    pose proof (pow10_pos (size D) ltac:(lia)).
    pose proof (pow10_pos (size F) ltac:(lia)).
    assert (10 ^ 7 * 10 ^ 12 < 10 ^ 20) by reflexivity.
    split; [nia |].
    assert ((digits_value D 0 + 1) * 10 ^ size F <= 10 ^ 7 * 10 ^ 12)
      by (apply Z.mul_le_mono_nonneg; lia).
    lia. }
  destruct ((x <? -4) || (6 <=? x)) eqn:Hsci.
  - (* scientific notation *)
    set (D := string_take 1 ds). set (F := strip_zeros (string_drop 1 ds)).
    assert (HD : all_chars is_digit D = true) by (apply all_chars_take, Hds).
    assert (HF : all_chars is_digit F = true)
      by (apply all_chars_strip_zeros, all_chars_drop, Hds).
    assert (HDne : D <> EmptyString) by (subst D; rewrite Hhead; discriminate).
    pose proof (size_take_le 1 ds). pose proof (size_strip_zeros_le (string_drop 1 ds)).
    pose proof (size_drop_le 1 ds). pose proof (size_nonneg F).
    assert (Hs : 0 < size D) by (subst D; rewrite Hhead; unfold size; cbn; lia).
    eexists _, _, _. split.
    + apply read_number_fraction; [exact HD | exact HF | exact HDne | right; eauto].
    + rewrite exponent_after_printed. subst D F.
      split; [lia |]. split; [apply Hbound; try assumption; lia | lia].
  - destruct (0 <=? x) eqn:Hpos; [apply Z.leb_le in Hpos | apply Z.leb_gt in Hpos].
    + (* fixed notation, at least 1 *)
      set (D := string_take (Z.to_nat (x + 1)) ds).
      set (F := strip_zeros (string_drop (Z.to_nat (x + 1)) ds)).
      assert (HD : all_chars is_digit D = true) by (apply all_chars_take, Hds).
      assert (HF : all_chars is_digit F = true)
        by (apply all_chars_strip_zeros, all_chars_drop, Hds).
      assert (HDne : D <> EmptyString).
      { subst D. rewrite Hhead.
        replace (Z.to_nat (x + 1)) with (S (Z.to_nat x)) by lia. discriminate. }
      pose proof (size_take_le (Z.to_nat (x + 1)) ds).
      pose proof (size_strip_zeros_le (string_drop (Z.to_nat (x + 1)) ds)).
      pose proof (size_drop_le (Z.to_nat (x + 1)) ds). pose proof (size_nonneg F).
      assert (Hs : 0 < size D) by (destruct D; [congruence | unfold size; cbn; lia]).
      eexists _, _, _. split.
      * rewrite <- (append_empty_r (with_point F)).
        apply read_number_fraction; [exact HD | exact HF | exact HDne | left; reflexivity].
      * cbn [exponent_after]. subst D F.
        split; [lia |]. split; [apply Hbound; try assumption; lia | lia].
    + (* fixed notation, below 1 *)
      apply orb_false_iff in Hsci as [Hlow _]. apply Z.ltb_ge in Hlow.
      set (F := zeros (Z.to_nat (- x - 1)) ++ strip_zeros ds).
      assert (HF : all_chars is_digit F = true).
      { subst F. rewrite all_chars_append, all_chars_zeros by reflexivity.
        apply all_chars_strip_zeros, Hds. }
      pose proof (size_strip_zeros_le ds).
      assert (HsF : size F <= 12).
      { unfold F. rewrite size_append, size_zeros. lia. }
      pose proof (size_nonneg F).
      eexists _, _, _. split.
      * change (String "0" (String "." F)) with ("0" ++ String "." F).
        rewrite <- (append_empty_r F).
        apply (read_number_point "0" F EmptyString);
          [reflexivity | exact HF | discriminate | exact I].
      * cbn [exponent_after]. change (size "0") with 1. subst F.
        split; [lia |].
        split; [apply Hbound; try assumption; try reflexivity; unfold size; cbn; lia | lia].
Qed.

(** [std::stod] reads what [operator<<] prints for a finite [float]. *)
Lemma stod_format_float (v : float32) :
  binary32 v = true -> is_finite v = true ->
  exists d, stod (format_float v) = Ok d.
Proof.
  destruct v as [s | s | | s m e]; try discriminate; intros Hvalid _.
  - destruct s; eexists; vm_compute; reflexivity.
  - destruct (binary32_bounds s m e Hvalid) as [Hm He].
    destruct (format_g_reads m e Hm He) as (M & n & e10 & Hread & Hn & HM & He10).
    destruct (format_g_head 6 m e) as (c & rest & Htext & Hc).
    pose proof (format_g_chars 6 m e) as Hout.
    cbn [format_float]. rewrite Htext in *.
    pose proof (stod_number s c rest Hc Hout) as Hstod.
    rewrite Hread in Hstod.
    destruct (n =? 0) eqn:Hz; [apply Z.eqb_eq in Hz; lia |].
    rewrite (range_checked_moderate M e10 s HM He10) in Hstod.
    eexists. exact Hstod.
Qed.

End PrintRead.

(* ===================================================================== *)
(** * Rounding that loses nothing *)
(* ===================================================================== *)

Module ExactRounding.
Import Cxx Text CxxFacts TextFacts PrintRead.

(** ** Binary digits *)

Lemma pos_iter_xO (a k : positive) : Zpos (Pos.iter xO a k) = Zpos a * 2 ^ Zpos k.
Proof.
  induction k as [|k IH] using Pos.peano_ind.
  - cbn [Pos.iter]. lia.
  - rewrite Pos.iter_succ, Pos2Z.inj_xO, IH, Pos2Z.inj_succ, Z.pow_succ_r by lia. lia.
Qed.

Lemma digits2_pos_iter_xO (a k : positive) :
  Zpos (digits2_pos (Pos.iter xO a k)) = Zpos (digits2_pos a) + Zpos k.
Proof.
  induction k as [|k IH] using Pos.peano_ind.
  - cbn [Pos.iter digits2_pos]. lia.
  - rewrite Pos.iter_succ. cbn [digits2_pos]. rewrite Pos2Z.inj_succ, IH. lia.
Qed.

(** The number of binary digits of [a * 2 ^ k]. *)
Lemma digits2_pos_shift (a Q : positive) (k : Z) :
  0 <= k -> Zpos Q = Zpos a * 2 ^ k ->
  Zpos (digits2_pos Q) = Zpos (digits2_pos a) + k.
Proof.
  intros Hk HQ. destruct k as [|kp|kp]; [| | lia].
  - assert (Q = a) by lia. subst Q. lia.
  - rewrite <- pos_iter_xO in HQ. injection HQ as ->. apply digits2_pos_iter_xO.
Qed.

(** ** Shifts that lose nothing *)

Lemma iter_pos_iter {A} (f : A -> A) (k : positive) (x : A) :
  SpecFloat.iter_pos f k x = Pos.iter f x k.
Proof.
  revert x. induction k as [k IH | k IH |]; intros x; cbn [SpecFloat.iter_pos Pos.iter].
  - rewrite !IH. now rewrite <- !Pos.iter_swap.
  - now rewrite !IH.
  - reflexivity.
Qed.

Lemma iter_shr_1_exact (a k : positive) :
  SpecFloat.iter_pos shr_1 k {| shr_m := Zpos (Pos.iter xO a k); shr_r := false; shr_s := false |}
    = {| shr_m := Zpos a; shr_r := false; shr_s := false |}.
Proof.
  rewrite iter_pos_iter.
  induction k as [|k IH] using Pos.peano_ind.
  - reflexivity.
  - rewrite Pos.iter_succ_r, Pos.iter_succ. cbn [shr_1 orb]. exact IH.
Qed.

Lemma fexp_normal (k : Z) : emin64 <= k - 53 -> fexp prec emax k = k - 53.
Proof. unfold fexp, SpecFloat.emin, prec, emax, emin64. lia. Qed.

(** A mantissa of 53 digits followed by [k] zero bits is brought back to the
    53 digits, and nothing is lost. *)
Lemma shr_fexp_exact (a Q : positive) (t k : Z) :
  Zpos (digits2_pos a) = 53 -> 0 <= k -> emin64 <= t ->
  Zpos Q = Zpos a * 2 ^ k ->
  shr_fexp prec emax (Zpos Q) (t - k) loc_Exact
    = ({| shr_m := Zpos a; shr_r := false; shr_s := false |}, t).
Proof.
  intros Ha Hk Ht HQ. unfold shr_fexp. cbn [Zdigits2 shr_record_of_loc].
  rewrite (digits2_pos_shift a Q k Hk HQ), Ha.
  rewrite fexp_normal by (unfold emin64 in *; lia).
  replace (53 + k + (t - k) - 53 - (t - k)) with k by lia.
  destruct k as [|kp|kp]; [| | lia].
  - cbn [shr]. assert (Q = a) by lia. subst Q. f_equal. lia.
  - cbn [shr]. rewrite <- pos_iter_xO in HQ. injection HQ as ->.
    rewrite iter_shr_1_exact. f_equal. lia.
Qed.

(** Rounding it then changes nothing. *)
Lemma binary_round_aux_exact (s : bool) (a Q : positive) (t k : Z) :
  Zpos (digits2_pos a) = 53 -> 0 <= k -> emin64 <= t <= emax - prec ->
  Zpos Q = Zpos a * 2 ^ k ->
  binary_round_aux prec emax s (Zpos Q) (t - k) loc_Exact = S754_finite s a t.
Proof.
  intros Ha Hk Ht HQ. unfold binary_round_aux.
  rewrite (shr_fexp_exact a Q t k Ha Hk (proj1 Ht) HQ).
  cbn [shr_m loc_of_shr_record round_nearest_even].
  replace t with (t - 0) at 1 by lia.
  rewrite (shr_fexp_exact a a t 0 Ha ltac:(lia) (proj1 Ht) ltac:(lia)).
  cbn [shr_m]. replace (t <=? emax - prec) with true by (symmetry; apply Z.leb_le; lia).
  reflexivity.
Qed.

Lemma mantissa53_value (m : positive) :
  Zpos (digits2_pos m) <= 53 ->
  Zpos (mantissa53 m) = Zpos m * 2 ^ (53 - Zpos (digits2_pos m)).
Proof.
  intros Hd. unfold mantissa53.
  assert (0 < 2 ^ (53 - Zpos (digits2_pos m))) by (apply Z.pow_pos_nonneg; lia).
  rewrite Z2Pos.id by lia. reflexivity.
Qed.

Lemma mantissa53_digits (m : positive) :
  Zpos (digits2_pos m) <= 53 -> Zpos (digits2_pos (mantissa53 m)) = 53.
Proof.
  intros Hd.
  rewrite (digits2_pos_shift m (mantissa53 m) (53 - Zpos (digits2_pos m)));
    [lia | lia | apply mantissa53_value, Hd].
Qed.

Lemma pow2_split (a b : Z) : 0 <= a -> 0 <= b -> 2 ^ (a + b) = 2 ^ a * 2 ^ b.
Proof. intros. apply Z.pow_add_r; assumption. Qed.

(** Rounding a number that has a mantissa of at most 53 digits gives that
    number: whichever way [P * 2 ^ E] writes [m * 2 ^ e], the result is the
    mantissa of 53 digits with its exponent. *)
Lemma binary_round_exact (s : bool) (P m : positive) (E e : Z) :
  E <= e -> Zpos P = Zpos m * 2 ^ (e - E) ->
  Zpos (digits2_pos m) <= 53 ->
  emin64 <= e + Zpos (digits2_pos m) - 53 <= emax - prec ->
  binary_round prec emax s P E
    = S754_finite s (mantissa53 m) (e + Zpos (digits2_pos m) - 53).
Proof.
  intros HE HP Hd Ht. unfold binary_round.
  set (dm := Zpos (digits2_pos m)) in *. set (t := e + dm - 53) in *.
  pose proof (mantissa53_value m Hd) as Ha. fold dm in Ha.
  pose proof (mantissa53_digits m Hd) as Hda.
  rewrite (digits2_pos_shift m P (e - E) ltac:(lia) HP). fold dm.
  rewrite fexp_normal by (unfold emin64 in *; lia).
  replace (dm + (e - E) + E - 53) with t by lia.
  unfold shl_align. destruct (t - E) as [|d|d] eqn:Hshift.
  - replace E with (t - 0) by lia.
    apply binary_round_aux_exact; [exact Hda | lia | exact Ht |].
    rewrite Ha, HP. rewrite Z.mul_1_r. f_equal. f_equal. lia.
  - replace E with (t - Zpos d) by lia.
    apply binary_round_aux_exact; [exact Hda | lia | exact Ht |].
    rewrite Ha, HP, <- Z.mul_assoc, <- pow2_split by lia. f_equal. f_equal. lia.
  - replace t with (t - 0) at 1 by lia.
    apply binary_round_aux_exact; [exact Hda | lia | exact Ht |].
    rewrite pos_iter_xO, Ha, HP, <- Z.mul_assoc, <- pow2_split by lia.
    rewrite Z.mul_1_r. f_equal. f_equal. lia.
Qed.

Lemma digits2_pos_least (m : positive) : 2 ^ (Zpos (digits2_pos m) - 1) <= Zpos m.
Proof.
  induction m as [m IH | m IH |]; cbn [digits2_pos]; [| | simpl; lia];
    rewrite Pos2Z.inj_succ;
    replace (Z.succ (Zpos (digits2_pos m)) - 1) with (Z.succ (Zpos (digits2_pos m) - 1)) by lia;
    rewrite Z.pow_succ_r by lia; lia.
Qed.

Lemma div_eucl_exact (k b : Z) : 0 < b -> Z.div_eucl (k * b) b = (k, 0).
Proof.
  intros Hb.
  pose proof (Z.div_eucl_eq (k * b) b ltac:(lia)) as Heq.
  pose proof (Z.mod_pos_bound (k * b) b Hb) as Hr. unfold Z.modulo in Hr.
  destruct (Z.div_eucl (k * b) b) as [q r].
  assert (q = k) by nia. assert (r = 0) by nia. now subst.
Qed.

Lemma new_location_exact (b : Z) : new_location b 0 = loc_Exact.
Proof.
  unfold new_location, new_location_even, new_location_odd.
  destruct (Z.even b); reflexivity.
Qed.

(** The double that a finite [float] converts to is the same number: the
    mantissa is shifted to 53 digits and the exponent lowered by as much. *)
Lemma float_to_double_value (s : bool) (m : positive) (e : Z) :
  binary32 (S754_finite s m e) = true ->
  Prim2SF (float_to_double (S754_finite s m e))
    = S754_finite s (mantissa53 m) (e - (53 - Zpos (digits2_pos m))) /\
  Zpos (mantissa53 m) = Zpos m * 2 ^ (53 - Zpos (digits2_pos m)).
Proof.
  intros Hvalid. destruct (binary32_bounds s m e Hvalid) as [Hm He].
  assert (Hdm : 1 <= Zpos (digits2_pos m) <= 24).
  { split; [lia |]. pose proof (digits2_pos_least m) as Hl.
    assert (Hlt : 2 ^ (Zpos (digits2_pos m) - 1) < 2 ^ 24) by lia.
    apply Z.pow_lt_mono_r_iff in Hlt; lia. }
  split; [| apply mantissa53_value; lia].
  cbn [float_to_double].
  rewrite (binary_round_exact s m m e e);
    [| lia | rewrite Z.sub_diag; lia | lia | unfold emin64, emax, prec; lia].
  replace (e + Zpos (digits2_pos m) - 53) with (e - (53 - Zpos (digits2_pos m))) by lia.
  apply Prim2SF_SF2Prim.
  cbn [valid_binary]. unfold bounded, canonical_mantissa.
  rewrite mantissa53_digits by lia.
  rewrite fexp_normal by (unfold emin64; lia).
  apply andb_true_intro. split; [apply Z.eqb_eq; lia | apply Z.leb_le].
  unfold emax, prec. lia.
Qed.

(** A quotient of two whole numbers that has a mantissa of at most 53 digits
    is found by the division. *)
Lemma SFdiv_exact (pM pD m : positive) (e : Z) :
  (let '(bn, bd) := scaled (Zpos m) 2 e in Zpos pM * bd = bn * Zpos pD) ->
  Zpos (digits2_pos m) <= 53 ->
  emin64 <= e + Zpos (digits2_pos m) - 53 <= emax - prec ->
  SFdiv prec emax (S754_finite false pM 0) (S754_finite false pD 0)
    = S754_finite false (mantissa53 m) (e + Zpos (digits2_pos m) - 53).
Proof.
  intros Hval Hd Ht.
  set (dm := Zpos (digits2_pos m)) in *. set (t := e + dm - 53) in *.
  pose proof (mantissa53_value m Hd) as Ha. fold dm in Ha.
  pose proof (mantissa53_digits m Hd) as Hda.
  pose proof (digits2_pos_upper m) as Hmu. fold dm in Hmu.
  pose proof (digits2_pos_upper pD) as HDu.
  pose proof (digits2_pos_least pM) as HMl.
  set (d1 := Zpos (digits2_pos pM)) in *. set (d2 := Zpos (digits2_pos pD)) in *.
  assert (Hdig : d1 - d2 <= dm + e).
  { unfold scaled in Hval.
    destruct (0 <=? e) eqn:He; [apply Z.leb_le in He | apply Z.leb_gt in He].
    - assert (Hlt : 2 ^ (d1 - 1) < 2 ^ (dm + e + d2)).
      { rewrite !pow2_split by lia.
        pose proof (Z.pow_pos_nonneg 2 e ltac:(lia) He).
        assert (Zpos m * 2 ^ e < 2 ^ dm * 2 ^ e) by (apply Z.mul_lt_mono_pos_r; lia).
        assert (Zpos m * 2 ^ e * Zpos pD < 2 ^ dm * 2 ^ e * 2 ^ d2)
          by (apply Z.mul_lt_mono_nonneg; lia).
        lia. }
      apply Z.pow_lt_mono_r_iff in Hlt; lia.
    - assert (Hlt : 2 ^ (d1 - 1 + - e) < 2 ^ (dm + d2)).
      { rewrite !pow2_split by lia.
        pose proof (Z.pow_pos_nonneg 2 (- e) ltac:(lia) ltac:(lia)).
        assert (2 ^ (d1 - 1) * 2 ^ (- e) <= Zpos pM * 2 ^ (- e))
          by (apply Z.mul_le_mono_nonneg_r; lia).
        assert (Zpos m * Zpos pD < 2 ^ dm * 2 ^ d2)
          by (apply Z.mul_lt_mono_nonneg; lia).
        lia. }
      apply Z.pow_lt_mono_r_iff in Hlt; lia. }
  unfold SFdiv, SFdiv_core_binary. cbn [Zdigits2 xorb]. fold d1 d2.
  set (e' := Z.min (fexp prec emax (d1 + 0 - (d2 + 0))) (0 - 0)).
  assert (He' : e' <= 0 /\ e' <= t).
  { subst e'. unfold fexp, SpecFloat.emin, prec, emax, emin64 in *. lia. }
  destruct He' as [He0 Het].
  set (k := t - e').
  assert (Hpos : 0 < Zpos (mantissa53 m) * 2 ^ k).
  { pose proof (Z.pow_pos_nonneg 2 k ltac:(lia) ltac:(lia)). lia. }
  assert (Hm' : match 0 - 0 - e' with
                | 0 => Zpos pM
                | Zpos _ => Z.shiftl (Zpos pM) (0 - 0 - e')
                | Zneg _ => 0
                end = Zpos (mantissa53 m) * 2 ^ k * Zpos pD).
  { assert (Hshift : match 0 - 0 - e' with
                     | 0 => Zpos pM
                     | Zpos _ => Z.shiftl (Zpos pM) (0 - 0 - e')
                     | Zneg _ => 0
                     end = Zpos pM * 2 ^ (- e')).
    { destruct (0 - 0 - e') as [|p|p] eqn:Hs; [| | lia].
      - replace (- e') with 0 by lia. lia.
      - rewrite Z.shiftl_mul_pow2 by lia. f_equal. f_equal. lia. }
    rewrite Hshift, Ha. subst k t.
    rewrite <- (Z.mul_assoc (Zpos m)), <- pow2_split by lia.
    replace (53 - dm + (e + dm - 53 - e')) with (e - e') by lia.
    unfold scaled in Hval.
    destruct (0 <=? e) eqn:He; [apply Z.leb_le in He | apply Z.leb_gt in He].
    + replace (e - e') with (e + - e') by lia. rewrite pow2_split by lia. nia.
    + assert (Hsplit : 2 ^ (- e') = 2 ^ (e - e') * 2 ^ (- e)).
      { rewrite <- pow2_split by lia. f_equal; lia. }
      rewrite Hsplit. nia. }
  rewrite Hm', div_eucl_exact by lia. rewrite new_location_exact.
  destruct (Zpos (mantissa53 m) * 2 ^ k) as [|Q|Q] eqn:HQ; [lia | | lia].
  replace e' with (t - k) by (subst k; lia).
  apply binary_round_aux_exact; [exact Hda | subst k; lia | exact Ht | symmetry; exact HQ].
Qed.

(** The double nearest to a decimal number that is a binary number of at
    most 53 digits is that number. *)
Lemma decimal_to_sf_exact (M e10 : Z) (m : positive) (e : Z) :
  0 < M ->
  (let '(dn, dd) := scaled M 10 e10 in
   let '(bn, bd) := scaled (Zpos m) 2 e in dn * bd = bn * dd) ->
  Zpos (digits2_pos m) <= 53 ->
  emin64 <= e + Zpos (digits2_pos m) - 53 <= emax - prec ->
  decimal_to_sf M e10 = S754_finite false (mantissa53 m) (e + Zpos (digits2_pos m) - 53).
Proof.
  intros HM Hval Hd Ht. unfold decimal_to_sf.
  destruct M as [|pM|pM]; [lia | | lia].
  unfold scaled at 1 in Hval.
  destruct (0 <=? e10) eqn:He10; [apply Z.leb_le in He10 | apply Z.leb_gt in He10].
  - pose proof (pow10_pos e10 He10) as Hp.
    destruct (Zpos pM * 10 ^ e10) as [|P|P] eqn:HP; [lia | | lia].
    cbn [binary_normalize]. unfold scaled in Hval.
    destruct (0 <=? e) eqn:He; [apply Z.leb_le in He | apply Z.leb_gt in He].
    + apply binary_round_exact; [lia | | exact Hd | exact Ht].
      rewrite Z.sub_0_r. lia.
    + assert (HmP : Zpos m = Zpos P * 2 ^ (- e)) by lia.
      pose proof (digits2_pos_shift P m (- e) ltac:(lia) HmP) as Hdm.
      rewrite (binary_round_exact false P P 0 0);
        [| lia | rewrite Z.mul_1_r; reflexivity | lia | lia].
      f_equal; [| lia].
      apply Pos2Z.inj. rewrite !mantissa53_value by lia.
      rewrite HmP, <- Z.mul_assoc, <- pow2_split by lia. f_equal. f_equal. lia.
  - assert (Hp : 0 < 10 ^ (- e10)) by (apply pow10_pos; lia).
    apply SFdiv_exact; [| exact Hd | exact Ht].
    rewrite Z2Pos.id by exact Hp. exact Hval.
Qed.

End ExactRounding.

(* ===================================================================== *)
(** * Values that six digits represent *)
(* ===================================================================== *)

Module SixDigits.
Import Cxx Text CxxFacts TextFacts PrintRead ExactRounding.

(** ** Six digits that are the number *)

Lemma pow10_lt_inv (a b : Z) : 0 <= b -> 10 ^ a < 10 ^ b -> a < b.
Proof. intros Hb H. apply (Z.pow_lt_mono_r_iff 10); [lia | exact Hb | exact H]. Qed.

(** The decimal exponent of [N * 10 ^ j], a number of six digits. *)
Lemma exp10_exact (num den N j : Z) :
  0 < num -> 0 < den -> 10 ^ 5 <= N < 10 ^ 6 ->
  (let '(dn, dd) := scaled N 10 j in dn * den = num * dd) ->
  exp10 num den = j + 5.
Proof.
  intros Hnum Hden HN Hval. unfold scaled in Hval.
  set (x := exp10 num den).
  destruct (0 <=? j) eqn:Hj; [apply Z.leb_le in Hj | apply Z.leb_gt in Hj].
  - pose proof (pow10_pos j Hj) as Hpj.
    assert (Hlo : 10 ^ (j + 5) <= N * 10 ^ j) by (rewrite pow10_split by lia; nia).
    assert (Hhi : N * 10 ^ j < 10 ^ (j + 6)) by (rewrite pow10_split by lia; nia).
    destruct (exp10_bounds num den Hnum Hden) as [(Hx & Hl & Hh) | (Hx & Hl & Hh)];
      fold x in Hx, Hl, Hh.
    + assert (H1 : 10 ^ x <= N * 10 ^ j) by nia.
      assert (H2 : N * 10 ^ j < 10 ^ (x + 1)) by nia.
      assert (x < j + 6) by (apply pow10_lt_inv; lia).
      assert (j + 5 < x + 1) by (apply pow10_lt_inv; lia).
      lia.
    + exfalso. pose proof (pow10_pos (- x - 1) ltac:(lia)).
      assert (den <= num) by nia.
      assert (num * 1 <= num * 10 ^ (- x - 1)) by (apply Z.mul_le_mono_nonneg_l; lia).
      lia.
  - pose proof (pow10_pos (- j) ltac:(lia)) as Hpj.
    destruct (exp10_bounds num den Hnum Hden) as [(Hx & Hl & Hh) | (Hx & Hl & Hh)];
      fold x in Hx, Hl, Hh.
    + pose proof (pow10_pos x Hx) as Hpx.
      assert (H1 : 10 ^ (x + - j) <= N).
      { rewrite pow10_split by lia.
        assert (den * 10 ^ x * 10 ^ (- j) <= num * 10 ^ (- j))
          by (apply Z.mul_le_mono_nonneg_r; lia).
        nia. }
      assert (H2 : N < 10 ^ (x + 1 + - j)).
      { rewrite pow10_split by lia.
        assert (num * 10 ^ (- j) < den * 10 ^ (x + 1) * 10 ^ (- j))
          by (apply Z.mul_lt_mono_pos_r; lia).
        nia. }
      assert (x + - j < 6) by (apply pow10_lt_inv; lia).
      assert (5 < x + 1 + - j) by (apply pow10_lt_inv; lia).
      lia.
    + pose proof (pow10_pos (- x - 1) ltac:(lia)) as Hpx.
      pose proof (pow10_pos (- x) ltac:(lia)) as Hpx'.
      assert (H1 : 10 ^ (- j) < 10 ^ (6 + - x)).
      { rewrite pow10_split by lia.
        assert (N * den <= N * (num * 10 ^ (- x))) by (apply Z.mul_le_mono_nonneg_l; lia).
        assert (N * 10 ^ (- x) < 10 ^ 6 * 10 ^ (- x)) by (apply Z.mul_lt_mono_pos_r; lia).
        nia. }
      assert (H2 : 10 ^ (5 + (- x - 1)) < 10 ^ (- j)).
      { rewrite pow10_split by lia.
        assert (N * (num * 10 ^ (- x - 1)) < N * den) by (apply Z.mul_lt_mono_pos_l; lia).
        assert (10 ^ 5 * 10 ^ (- x - 1) <= N * 10 ^ (- x - 1))
          by (apply Z.mul_le_mono_nonneg_r; lia).
        nia. }
      assert (- j < 6 + - x) by (apply pow10_lt_inv; lia).
      assert (5 + (- x - 1) < - j) by (apply pow10_lt_inv; lia).
      lia.
Qed.

(** Rounding [N * 10 ^ j] to six digits gives [N] and the exponent of its
    first digit. *)
Lemma significant_exact (num den N j : Z) :
  0 < num -> 0 < den -> 10 ^ 5 <= N < 10 ^ 6 ->
  (let '(dn, dd) := scaled N 10 j in dn * den = num * dd) ->
  significant 6 num den = (N, j + 5).
Proof.
  intros Hnum Hden HN Hval. unfold significant.
  rewrite (exp10_exact num den N j Hnum Hden HN Hval).
  unfold scaled in Hval.
  assert (Hq : (if 6 - 1 <=? j + 5
                then round_half_even num (den * 10 ^ (j + 5 - (6 - 1)))
                else round_half_even (num * 10 ^ (6 - 1 - (j + 5))) den) = N).
  { destruct (0 <=? j) eqn:Hj; [apply Z.leb_le in Hj | apply Z.leb_gt in Hj].
    - replace (6 - 1 <=? j + 5) with true by (symmetry; apply Z.leb_le; lia).
      replace (j + 5 - (6 - 1)) with j by lia.
      pose proof (pow10_pos j Hj).
      replace num with (N * (den * 10 ^ j)) by lia.
      apply round_half_even_exact. lia.
    - replace (6 - 1 <=? j + 5) with false by (symmetry; apply Z.leb_gt; lia).
      replace (6 - 1 - (j + 5)) with (- j) by lia.
      rewrite <- Hval. apply round_half_even_exact, Hden. }
  rewrite Hq.
  destruct (N =? 10 ^ 6) eqn:E; [apply Z.eqb_eq in E; lia | reflexivity].
Qed.

(** ** What is read is what was printed *)

Lemma strip_zeros_split (s : string) : exists z : nat, s = strip_zeros s ++ zeros z.
Proof.
  induction s as [|c s [z IH]].
  - exists 0%nat. reflexivity.
  - cbn [strip_zeros]. destruct (strip_zeros s) as [|k ks] eqn:Hs.
    + rewrite append_empty in IH.
      destruct (Ascii.eqb c "0") eqn:Hc.
      * apply Ascii.eqb_eq in Hc. subst c. exists (S z). rewrite append_empty, IH. reflexivity.
      * exists z. rewrite append_cons, append_empty, IH. reflexivity.
    + exists z. rewrite append_cons. f_equal. exact IH.
Qed.

Lemma digits_value_zeros (z : nat) (acc : Z) :
  digits_value (zeros z) acc = acc * 10 ^ Z.of_nat z.
Proof.
  revert acc. induction z as [|z IH]; intros acc.
  - unfold digits_value. cbn. lia.
  - cbn [zeros]. rewrite (digits_value_cons "0" _ acc 0) by reflexivity.
    rewrite IH, Nat2Z.inj_succ, Z.pow_succ_r by lia. lia.
Qed.

Lemma string_take_drop (n : nat) (s : string) : string_take n s ++ string_drop n s = s.
Proof.
  revert s. induction n as [|n IH]; intros [|c s]; cbn [string_take string_drop];
    rewrite ?append_empty, ?append_cons; try reflexivity.
  now rewrite IH.
Qed.

Lemma size_take (n : nat) (s : string) :
  Z.of_nat n <= size s -> size (string_take n s) = Z.of_nat n.
Proof.
  unfold size. revert s. induction n as [|n IH]; intros [|c s] Hn;
    cbn [string_take String.length] in *; try lia.
  rewrite !Nat2Z.inj_succ in *. specialize (IH s). lia.
Qed.

(** The digits of [ds] with the zeros at the end of the part after [D]
    left out. *)
Lemma digits_value_stripped (D R : string) :
  all_chars is_digit D = true -> all_chars is_digit R = true ->
  exists z : Z,
    0 <= z /\ size R = size (strip_zeros R) + z /\
    digits_value (D ++ R) 0 = digits_value (strip_zeros R) (digits_value D 0) * 10 ^ z.
Proof.
  intros HD HR. destruct (strip_zeros_split R) as [z Hz].
  exists (Z.of_nat z). split; [lia |]. split.
  - rewrite Hz at 1. rewrite size_append, size_zeros. reflexivity.
  - rewrite Hz at 1.
    rewrite digits_value_append by exact HD.
    rewrite digits_value_append by (apply all_chars_strip_zeros, HR).
    apply digits_value_zeros.
Qed.

(** What [read_number] finds in the output of [format_g] for [N * 10 ^ j]: a
    mantissa and an exponent that are the same number. *)
Lemma format_g_reads_decimal (m : positive) (e N j : Z) :
  10 ^ 5 <= N < 10 ^ 6 ->
  (let '(num, den) := scaled (Zpos m) 2 e in significant 6 num den = (N, j + 5)) ->
  exists M n e10 z,
    read_number digit_val 10 1 "e" (format_g 6 m e) = (M, n, e10) /\
    0 < n /\ 0 <= z /\ N = M * 10 ^ z /\ e10 = j + z.
Proof.
  intros HN Hsig. unfold format_g. unfold scaled in Hsig.
  destruct (if 0 <=? e then _ else _) as [num den]. rewrite Hsig. clear Hsig.
  set (x := j + 5).
  pose proof (decimal_digits N) as Hds.
  assert (Hsize : size (decimal N) = 6).
  { pose proof (decimal_size_le N 6 ltac:(lia)).
    pose proof (decimal_size_ge N 5 ltac:(lia) ltac:(lia)). lia. }
  pose proof (digits_value_decimal N ltac:(lia)) as Hval.
  destruct (decimal_head N) as (c & r & Hhead & Hc).
  set (ds := decimal N) in *.
  destruct ((x <? -4) || (6 <=? x)) eqn:Hsci.
  - (* scientific notation *)
    set (D := string_take 1 ds). set (R := string_drop 1 ds).
    assert (HD : all_chars is_digit D = true) by (apply all_chars_take, Hds).
    assert (HR : all_chars is_digit R = true) by (apply all_chars_drop, Hds).
    assert (HDne : D <> EmptyString) by (unfold D; rewrite Hhead; discriminate).
    assert (HsD : size D = 1) by (apply (size_take 1); lia).
    assert (HsR : size R = 5).
    { pose proof (string_take_drop 1 ds) as Hsplit. fold D R in Hsplit.
      rewrite <- Hsplit, size_append in Hsize. lia. }
    destruct (digits_value_stripped D R HD HR) as (z & Hz & Hsz & Hv).
    unfold D, R in Hv. rewrite string_take_drop, Hval in Hv. fold D R in Hv.
    eexists _, _, _, z. split.
    + apply read_number_fraction;
        [exact HD | apply all_chars_strip_zeros, HR | exact HDne | right; eauto].
    + rewrite exponent_after_printed.
      pose proof (size_nonneg (strip_zeros R)).
      repeat split; [lia | lia | exact Hv | unfold x; lia].
  - destruct (0 <=? x) eqn:Hpos; [apply Z.leb_le in Hpos | apply Z.leb_gt in Hpos].
    + (* fixed notation, at least 1 *)
      apply orb_false_iff in Hsci as [_ Hhigh]. apply Z.leb_gt in Hhigh.
      set (D := string_take (Z.to_nat (x + 1)) ds).
      set (R := string_drop (Z.to_nat (x + 1)) ds).
      assert (HD : all_chars is_digit D = true) by (apply all_chars_take, Hds).
      assert (HR : all_chars is_digit R = true) by (apply all_chars_drop, Hds).
      assert (HsD : size D = x + 1).
      { unfold D. rewrite size_take; lia. }
      assert (HDne : D <> EmptyString).
      { intros E. rewrite E in HsD. unfold size in HsD. cbn in HsD. lia. }
      assert (HsR : size R = 5 - x).
      { pose proof (string_take_drop (Z.to_nat (x + 1)) ds) as Hsplit. fold D R in Hsplit.
        rewrite <- Hsplit, size_append in Hsize. lia. }
      destruct (digits_value_stripped D R HD HR) as (z & Hz & Hsz & Hv).
      unfold D, R in Hv. rewrite string_take_drop, Hval in Hv. fold D R in Hv.
      eexists _, _, _, z. split.
      * rewrite <- (append_empty_r (with_point (strip_zeros R))).
        apply read_number_fraction;
          [exact HD | apply all_chars_strip_zeros, HR | exact HDne | left; reflexivity].
      * cbn [exponent_after].
        pose proof (size_nonneg (strip_zeros R)).
        repeat split; [lia | lia | exact Hv | unfold x in *; lia].
    + (* fixed notation, below 1 *)
      apply orb_false_iff in Hsci as [Hlow _]. apply Z.ltb_ge in Hlow.
      set (k := Z.to_nat (- x - 1)).
      destruct (digits_value_stripped EmptyString ds eq_refl Hds) as (z & Hz & Hsz & Hv).
      rewrite append_empty, Hval in Hv.
      change (digits_value EmptyString 0) with 0 in Hv.
      assert (HF : all_chars is_digit (zeros k ++ strip_zeros ds) = true).
      { rewrite all_chars_append, all_chars_zeros by reflexivity.
        apply all_chars_strip_zeros, Hds. }
      eexists _, _, _, z. split.
      * change (String "0" (String "." (zeros k ++ strip_zeros ds)))
          with ("0" ++ String "." (zeros k ++ strip_zeros ds)).
        rewrite <- (append_empty_r (zeros k ++ strip_zeros ds)).
        apply (read_number_point "0" _ EmptyString);
          [reflexivity | exact HF | discriminate | exact I].
      * cbn [exponent_after]. change (size "0") with 1.
        rewrite size_append, size_zeros.
        pose proof (size_nonneg (strip_zeros ds)).
        repeat split; [lia | lia | | unfold k, x in *; lia].
        rewrite digits_value_append by (apply all_chars_zeros; reflexivity).
        change (digits_value "0" 0) with 0.
        rewrite digits_value_zeros, Z.mul_0_l. exact Hv.
Qed.


(** A number of at most six digits, written with six. *)
Lemma holds_decimal_six (v : float32) (N j : Z) :
  0 < N < 10 ^ 6 -> holds_decimal v N j ->
  exists N' j', 10 ^ 5 <= N' < 10 ^ 6 /\ holds_decimal v N' j'.
Proof.
  intros HN Hv. destruct v as [s | s | | s m e]; try contradiction.
  pose proof (decimal_size_pos N) as Hs0.
  pose proof (decimal_size_le N 6 HN) as Hs6.
  pose proof (decimal_lower N ltac:(lia)) as Hlo.
  pose proof (decimal_upper N ltac:(lia)) as Hup.
  set (k := 6 - size (decimal N)) in *.
  pose proof (pow10_pos k ltac:(lia)) as Hpk.
  exists (N * 10 ^ k), (j - k). split.
  - assert (E5 : 10 ^ 5 = 10 ^ (size (decimal N) - 1) * 10 ^ k)
      by (rewrite <- pow10_split by lia; f_equal; lia).
    assert (E6 : 10 ^ 6 = 10 ^ size (decimal N) * 10 ^ k)
      by (rewrite <- pow10_split by lia; f_equal; lia).
    split.
    + rewrite E5. apply Z.mul_le_mono_nonneg_r; lia.
    + rewrite E6. apply Z.mul_lt_mono_pos_r; lia.
  - cbn [holds_decimal] in Hv |- *. unfold scaled at 1. unfold scaled at 1 in Hv.
    destruct (scaled (Zpos m) 2 e) as [bn bd].
    destruct (0 <=? j) eqn:Hj; [apply Z.leb_le in Hj | apply Z.leb_gt in Hj].
    + pose proof (pow10_pos j Hj) as Hpj.
      destruct (0 <=? j - k) eqn:Hjk; [apply Z.leb_le in Hjk | apply Z.leb_gt in Hjk].
      * assert (E : 10 ^ j = 10 ^ k * 10 ^ (j - k))
          by (rewrite <- pow10_split by lia; f_equal; lia).
        rewrite E in Hv. rewrite <- Hv. ring.
      * assert (E : 10 ^ k = 10 ^ j * 10 ^ (- (j - k)))
          by (rewrite <- pow10_split by lia; f_equal; lia).
        rewrite E.
        replace (N * (10 ^ j * 10 ^ (- (j - k))) * bd)
          with (N * 10 ^ j * bd * 10 ^ (- (j - k))) by ring.
        rewrite Hv. ring.
    + replace (0 <=? j - k) with false by (symmetry; apply Z.leb_gt; lia).
      assert (E : 10 ^ (- (j - k)) = 10 ^ k * 10 ^ (- j))
        by (rewrite <- pow10_split by lia; f_equal; lia).
      rewrite E.
      replace (bn * (10 ^ k * 10 ^ (- j))) with (bn * 10 ^ (- j) * 10 ^ k) by ring.
      rewrite <- Hv. ring.
Qed.

(** The value half of the round trip: a [float] that six significant digits
    represent is printed with the digits of its value, and the double read
    from them is that value. *)
Lemma stod_format_six_digits (v : float32) :
  binary32 v = true -> six_digits v ->
  stod (format_float v) = Ok (float_to_double v).
Proof.
  destruct v as [s | s | | s m e]; try contradiction; intros Hvalid Hsix.
  { destruct s; vm_compute; reflexivity. }
  destruct Hsix as (N0 & j0 & HN0 & Hv0).
  destruct (holds_decimal_six _ N0 j0 HN0 Hv0) as (N & j & HN & Hv).
  clear N0 j0 HN0 Hv0.
  destruct (binary32_bounds s m e Hvalid) as [Hm He].
  pose proof (exp10_binary32 m e Hm He) as Hexp.
  cbn [holds_decimal] in Hv.
  assert (Hdm : 1 <= Zpos (digits2_pos m) <= 24).
  { split; [lia |]. pose proof (digits2_pos_least m) as Hl.
    assert (Hlt : 2 ^ (Zpos (digits2_pos m) - 1) < 2 ^ 24) by lia.
    apply Z.pow_lt_mono_r_iff in Hlt; lia. }
  assert (Ht : emin64 <= e + Zpos (digits2_pos m) - 53 <= emax - prec)
    by (unfold emin64, emax, prec; lia).
  (* the digits printed *)
  assert (Hsig : let '(num, den) := scaled (Zpos m) 2 e in
                 significant 6 num den = (N, j + 5) /\ -45 <= j + 5 <= 38).
  { destruct (scaled (Zpos m) 2 e) as [num den]. destruct Hexp as (Hnum & Hden & Hx).
    assert (Hval : let '(dn, dd) := scaled N 10 j in dn * den = num * dd)
      by (destruct (scaled N 10 j); exact Hv).
    rewrite (exp10_exact num den N j Hnum Hden HN Hval) in Hx.
    split; [apply significant_exact; assumption | exact Hx]. }
  assert (Hsig' : let '(num, den) := scaled (Zpos m) 2 e in
                  significant 6 num den = (N, j + 5))
    by (destruct (scaled (Zpos m) 2 e); tauto).
  assert (Hj : -45 <= j + 5 <= 38) by (destruct (scaled (Zpos m) 2 e); tauto).
  clear Hsig.
  destruct (format_g_reads_decimal m e N j HN Hsig')
    as (M & n & e10 & z & Hread & Hn & Hz & HNM & He10).
  assert (Hpz : 0 < 10 ^ z) by (apply pow10_pos, Hz).
  assert (HM : 0 < M) by nia.
  assert (HMN : M <= N) by nia.
  assert (Hz5 : z <= 5).
  { destruct (Z.le_gt_cases z 5) as [Hle | Hgt]; [exact Hle | exfalso].
    pose proof (pow10_le 6 z ltac:(lia)). nia. }
  (* the text is read *)
  destruct (format_g_head 6 m e) as (c & rest & Htext & Hc).
  pose proof (format_g_chars 6 m e) as Hout.
  cbn [format_float float_to_double]. rewrite Htext in *.
  rewrite (stod_number s c rest Hc Hout), Hread.
  destruct (n =? 0) eqn:Hn0; [apply Z.eqb_eq in Hn0; lia |].
  rewrite (range_checked_moderate M e10 s).
  2:{ assert (H620 : 10 ^ 6 < 10 ^ 20) by reflexivity. lia. }
  2:{ lia. }
  (* and is the number *)
  rewrite (decimal_to_sf_exact M e10 m e HM); [| | lia | exact Ht].
  - rewrite (binary_round_exact s m m e e); [reflexivity | lia | | lia | exact Ht].
    rewrite Z.sub_diag. lia.
  - unfold scaled at 1. unfold scaled at 1 in Hv.
    destruct (scaled (Zpos m) 2 e) as [bn bd].
    destruct (0 <=? j) eqn:Hj0; [apply Z.leb_le in Hj0 | apply Z.leb_gt in Hj0].
    + replace (0 <=? e10) with true by (symmetry; apply Z.leb_le; lia).
      subst e10 N. rewrite pow10_split by lia.
      rewrite <- Hv. ring.
    + pose proof (pow10_pos (- j) ltac:(lia)) as Hpj.
      destruct (0 <=? e10) eqn:He0; [apply Z.leb_le in He0 | apply Z.leb_gt in He0].
      * assert (E : 10 ^ z = 10 ^ e10 * 10 ^ (- j))
          by (rewrite <- pow10_split by lia; f_equal; lia).
        apply (Z.mul_reg_r _ _ (10 ^ (- j))); [lia |].
        replace (M * 10 ^ e10 * bd * 10 ^ (- j)) with (M * (10 ^ e10 * 10 ^ (- j)) * bd) by ring.
        rewrite <- E, <- HNM, Hv. ring.
      * assert (E : 10 ^ (- j) = 10 ^ z * 10 ^ (- e10))
          by (rewrite <- pow10_split by lia; f_equal; lia).
        apply (Z.mul_reg_r _ _ (10 ^ z)); [lia |].
        replace (M * bd * 10 ^ z) with (M * 10 ^ z * bd) by ring.
        rewrite <- HNM, Hv, E. ring.
Qed.

End SixDigits.

(* ===================================================================== *)
(** * The round trip of packing and decoding *)
(* ===================================================================== *)

#[local] Set Warnings "-inexact-float".

Module RoundTrip.
Import Cxx Broadcast CxxFacts WireFormat Text TextFacts PrintRead SixDigits.

(** An identifier followed by the output of a [float] is an item that the
    decoder splits back into the identifier and the double that [std::stod]
    reads from the output. *)
Lemma packed_item_reads (id : string) (v : float32) :
  all_chars is_id_char id = true ->
  binary32 v = true -> is_finite v = true ->
  size (id ++ format_float v) < npos ->
  exists d,
    stod (format_float v) = Ok d /\
    plain_item (id ++ format_float v) /\
    extract_item (id ++ format_float v) = Ok (id, d).
Proof.
  intros Hid Hvalid Hfin Hsize.
  destruct (stod_format_float v Hvalid Hfin) as [d Hd].
  exists d. split; [exact Hd |]. apply packed_item; assumption.
Qed.

(** The [float] nearest to 72.34 is not a number of six digits: it is
    72.33999633789062.  What is read from its six printed digits is the
    double nearest to 72.34, which is another number. *)
Lemma printed_digits_are_not_the_float :
  format_float (double_to_float 72.34) = "72.34" /\
  stod (format_float (double_to_float 72.34)) = Ok 72.34%float /\
  Prim2SF (float_to_double (double_to_float 72.34))
    = S754_finite false 5090474696114176 (-46) /\
  Prim2SF 72.34 = S754_finite false 5090474953812214 (-46).
Proof. repeat split; vm_compute; reflexivity. Qed.

(** C5, as the code has it: identifiers free of the characters [0-9 . - _]
    packed with finite binary32 values come back in order, and each value
    comes back as the double that [std::stod] reads from the text that
    [operator<<] printed for it, which it reads for every such value.  For a
    value that six significant digits represent (zero, or a whole number of
    at most six digits times a power of ten) that double is the packed value.
    The constants of the GPS endpoint pack to the string of the
    specification, and that string decodes to the identifiers and values it
    names. *)
Theorem decode_inverts_pack_up_to_printing :
  (forall id1 id2 id3 id4 (v1 v2 v3 v4 : float32),
     all_chars is_id_char id1 = true -> all_chars is_id_char id2 = true ->
     all_chars is_id_char id3 = true -> all_chars is_id_char id4 = true ->
     Forall (fun v => binary32 v = true /\ is_finite v = true) [v1; v2; v3; v4] ->
     size (packData id1 v1 id2 v2 id3 v3 id4 v4) < npos ->
     exists d1 d2 d3 d4,
       extractValuesAndIds (packData id1 v1 id2 v2 id3 v3 id4 v4) [] []
         = Ok ([id1; id2; id3; id4], [d1; d2; d3; d4]) /\
       Forall2 (fun v d =>
                  stod (format_float v) = Ok d /\
                  (six_digits v -> d = float_to_double v))
         [v1; v2; v3; v4] [d1; d2; d3; d4]) /\
  packData "LAT" (double_to_float 56) "LONG" (double_to_float 78.5)
           "SAT" (double_to_float 72.34) "ALT" (double_to_float 48.2)
    = "LAT56_LONG78.5_SAT72.34_ALT48.2" /\
  extractValuesAndIds "LAT56_LONG78.5_SAT72.34_ALT48.2" [] []
    = Ok (["LAT"; "LONG"; "SAT"; "ALT"], [56; 78.5; 72.34; 48.2]%float).
Proof.
  split; [| split; vm_compute; reflexivity].
  intros id1 id2 id3 id4 v1 v2 v3 v4 Hi1 Hi2 Hi3 Hi4 Hvs Hsize.
  apply Forall_cons in Hvs as [[Hb1 Hf1] Hvs].
  apply Forall_cons in Hvs as [[Hb2 Hf2] Hvs].
  apply Forall_cons in Hvs as [[Hb3 Hf3] Hvs].
  apply Forall_cons in Hvs as [[Hb4 Hf4] _].
  rewrite packData_join in Hsize |- *.
  set (items := [id1 ++ format_float v1; id2 ++ format_float v2;
                 id3 ++ format_float v3; id4 ++ format_float v4]) in *.
  assert (Hlt : forall item, item ∈ items -> size item < npos).
  { intros item Hin. pose proof (size_join_le _ _ Hin). lia. }
  destruct (packed_item_reads id1 v1 Hi1 Hb1 Hf1) as (d1 & Hs1 & Hp1 & He1);
    [apply Hlt; subst items; set_solver |].
  destruct (packed_item_reads id2 v2 Hi2 Hb2 Hf2) as (d2 & Hs2 & Hp2 & He2);
    [apply Hlt; subst items; set_solver |].
  destruct (packed_item_reads id3 v3 Hi3 Hb3 Hf3) as (d3 & Hs3 & Hp3 & He3);
    [apply Hlt; subst items; set_solver |].
  destruct (packed_item_reads id4 v4 Hi4 Hb4 Hf4) as (d4 & Hs4 & Hp4 & He4);
    [apply Hlt; subst items; set_solver |].
  exists d1, d2, d3, d4. split.
  - unfold extractValuesAndIds.
    rewrite extract_loop_join;
      [| subst items; repeat (constructor; [assumption |]); constructor | lia].
    subst items. cbn [extract_items]. rewrite He1, He2, He3, He4. reflexivity.
  - assert (Hsix : forall v d, binary32 v = true -> stod (format_float v) = Ok d ->
              six_digits v -> d = float_to_double v).
    { intros v d Hb Hd Hv. rewrite (stod_format_six_digits v Hb Hv) in Hd. congruence. }
    repeat (constructor; [split; [assumption | apply Hsix; assumption] |]).
    constructor.
Qed.

Lemma decode_inverts_pack_witness :
  extractValuesAndIds
    (packData "WFL" (double_to_float 165) "WFR" (double_to_float 0.25)
              "WRL" (double_to_float 109.5) "WRR" (double_to_float (-112000))) [] []
    = Ok (["WFL"; "WFR"; "WRL"; "WRR"], [165; 0.25; 109.5; -112000]%float).
Proof.
  destruct (proj1 decode_inverts_pack_up_to_printing "WFL" "WFR" "WRL" "WRR"
              (double_to_float 165) (double_to_float 0.25)
              (double_to_float 109.5) (double_to_float (-112000)))
    as (d1 & d2 & d3 & d4 & Hdec & Hvals);
    [reflexivity | reflexivity | reflexivity | reflexivity | | reflexivity |].
  - repeat (constructor; [split; vm_compute; reflexivity |]). constructor.
  - apply Forall2_cons in Hvals as [[_ H1] Hvals].
    apply Forall2_cons in Hvals as [[_ H2] Hvals].
    apply Forall2_cons in Hvals as [[_ H3] Hvals].
    apply Forall2_cons in Hvals as [[_ H4] _].
    rewrite Hdec, H1, H2, H3, H4; [vm_compute; reflexivity | | | |].
    + exists 112, 3. split; [lia | vm_compute; reflexivity].
    + exists 1095, (-1). split; [lia | vm_compute; reflexivity].
    + exists 25, (-2). split; [lia | vm_compute; reflexivity].
    + exists 165, 0. split; [lia | vm_compute; reflexivity].
Defined.

End RoundTrip.

Module LoggerFacts.
Import Cxx Ptam Text Logger CxxFacts TextFacts.

(** The parsers cut out the value that follows the first marker. *)
Lemma field_found (text pre marker value rest : string) (skip : Z) :
  text = pre ++ marker ++ value ++ LF ++ rest ->
  skip = size marker -> first_at marker pre ->
  all_chars not_LF value = true -> size text < npos ->
  field text marker skip = Ok (Some value).
Proof.
  intros Htext Hskip Hfirst Hvalue Hsize.
  assert (Hlen : size text = size pre + size marker + size value + 1 + size rest).
  { rewrite Htext, !size_append. unfold LF, size. simpl. lia. }
  pose proof (size_nonneg pre). pose proof (size_nonneg marker).
  pose proof (size_nonneg value). pose proof (size_nonneg rest).
  unfold npos in Hsize.
  unfold field, find.
  destruct (size text <? 0) eqn:Hlt; [apply Z.ltb_lt in Hlt; lia | clear Hlt].
  assert (Hidx : index_of marker text = Some (String.length pre))
    by (rewrite Htext; apply Hfirst).
  change (string_drop (Z.to_nat 0) text) with text. rewrite Hidx.
  fold (size pre).
  destruct (0 + size pre =? npos) eqn:Hn; [apply Z.eqb_eq in Hn; unfold npos in Hn; lia |].
  cbn [negb]. clear Hn.
  rewrite (Z.mod_small (0 + size pre + skip)) by lia.
  destruct (size text <? 0 + size pre + skip) eqn:Hlt; [apply Z.ltb_lt in Hlt; lia | clear Hlt].
  assert (Hdrop : string_drop (Z.to_nat (0 + size pre + skip)) text
                  = value ++ LF ++ rest).
  { rewrite Htext, <- append_assoc.
    replace (Z.to_nat (0 + size pre + skip)) with (String.length (pre ++ marker)).
    - apply string_drop_append.
    - rewrite length_append. unfold size in *. lia. }
  rewrite Hdrop, (index_of_LF _ _ Hvalue). fold (size value).
  destruct (0 + size pre + skip + size value =? npos) eqn:Hn;
    [apply Z.eqb_eq in Hn; unfold npos in Hn; lia |].
  cbn [negb]. clear Hn.
  unfold substr.
  destruct (size text <? 0 + size pre + skip) eqn:Hlt; [apply Z.ltb_lt in Hlt; lia | clear Hlt].
  rewrite Hdrop.
  replace (Z.to_nat _) with (String.length value) by (unfold size in *; lia).
  now rewrite string_take_append.
Qed.

Lemma int_of_unsigned_range (n : Z) : INT_MIN <= int_of_unsigned n <= INT_MAX.
Proof.
  unfold int_of_unsigned, INT_MIN, INT_MAX.
  pose proof (Z.mod_pos_bound (n + 2 ^ 31) (2 ^ 32)). lia.
Qed.

Lemma mod_mod_256 (n : Z) : (n mod 2 ^ 32) mod 2 ^ 8 = n mod 2 ^ 8.
Proof.
  apply Z.mod_mod_divide. exists (2 ^ 24). reflexivity.
Qed.

Ltac flatten :=
  repeat (rewrite append_assoc || rewrite append_cons || rewrite append_empty);
  reflexivity.

Ltac first_at_steps :=
  repeat first
    [ apply first_at_nil
    | apply first_at_absent; [assumption | reflexivity |]
    | apply first_at_clear;
      [first [ reflexivity
             | apply clear_of_decimal; reflexivity
             | apply clear_of_itoa; reflexivity ] |] ].

Lemma stoull_decimal (n : Z) : 0 <= n < 2 ^ 64 -> stoull (decimal n) = Ok n.
Proof.
  intros Hn. rewrite <- (append_empty_r (decimal n)).
  apply stou_decimal; [exact Hn | exact I].
Qed.

Lemma stoul_state (n : Z) :
  INT_MIN <= n <= INT_MAX ->
  match stoul (itoa n) with
  | Ok v => Ok (v mod 2 ^ 8)
  | Throw e => Throw e
  end = Ok (n mod 2 ^ 8).
Proof. intros Hn. now rewrite (stoul_itoa _ Hn), mod_mod_256. Qed.

Lemma log_head_id (log_ev ID : string) (timer : Z) (body : string) :
  log_head log_ev ID timer ++ body
    = (before_ID log_ev ++ EmptyString) ++ "ID: " ++ ID ++ LF
      ++ (TAB ++ TAB ++ "TIME: " ++ to_string_uint64 (timer mod 2 ^ 64) ++ LF) ++ body.
Proof. unfold log_head, before_ID. flatten. Qed.

Lemma log_head_time (log_ev ID : string) (timer : Z) (body : string) :
  log_head log_ev ID timer ++ body
    = before_TIME log_ev ID ++ "TIME: " ++ decimal (timer mod 2 ^ 64) ++ LF ++ body.
Proof. unfold log_head, before_TIME, before_ID, to_string_uint64. flatten. Qed.

Lemma log_head_state (log_ev ID : string) (timer : Z) (value rest : string) :
  log_head log_ev ID timer ++ (TAB ++ TAB ++ "MACHINE-STATE: " ++ value ++ LF) ++ rest
    = before_STATE log_ev ID timer ++ "MACHINE-STATE: " ++ value ++ LF ++ rest.
Proof. unfold log_head, before_STATE, before_ID, to_string_uint64. flatten. Qed.

(** The identifier of an event whose log begins with [log_head]. *)
Lemma head_event_id (log_ev ID : string) (timer : Z) (body : string) :
  clear_of "ID: " (before_ID log_ev) = true ->
  all_chars not_LF ID = true ->
  size (log_head log_ev ID timer ++ body) < npos ->
  get_event_id (log_head log_ev ID timer ++ body) = Ok ID.
Proof.
  intros Hev HID Hsize. unfold get_event_id.
  erewrite field_found;
    [reflexivity | apply log_head_id | reflexivity | | exact HID | exact Hsize].
  apply first_at_clear; [exact Hev | apply first_at_nil].
Qed.

Lemma head_event_time (log_ev ID : string) (timer : Z) (body : string) :
  clear_of "TIME: " (before_ID log_ev ++ "ID: ") = true ->
  index_of "TIME: " ID = None ->
  size (log_head log_ev ID timer ++ body) < npos ->
  get_event_time (log_head log_ev ID timer ++ body) = Ok (timer mod 2 ^ 64).
Proof.
  intros Hev HID Hsize. unfold get_event_time.
  erewrite field_found;
    [ | apply log_head_time | reflexivity | | apply decimal_not_LF | exact Hsize].
  - apply stoull_decimal, Z.mod_pos_bound. lia.
  - unfold before_TIME. apply first_at_clear; [exact Hev |]. first_at_steps.
Qed.

Lemma head_event_state (log_ev ID : string) (timer state : Z) (rest : string) :
  clear_of "MACHINE-STATE: " (before_ID log_ev ++ "ID: ") = true ->
  index_of "MACHINE-STATE: " ID = None ->
  INT_MIN <= state <= INT_MAX ->
  size (log_head log_ev ID timer
        ++ (TAB ++ TAB ++ "MACHINE-STATE: " ++ to_string_int state ++ LF) ++ rest) < npos ->
  get_event_state (log_head log_ev ID timer
        ++ (TAB ++ TAB ++ "MACHINE-STATE: " ++ to_string_int state ++ LF) ++ rest)
    = Ok (state mod 2 ^ 8).
Proof.
  intros Hev HID Hstate Hsize. unfold get_event_state.
  erewrite field_found;
    [ | apply log_head_state | reflexivity | | apply itoa_not_LF | exact Hsize].
  - apply stoul_state, Hstate.
  - unfold before_STATE. apply first_at_clear; [exact Hev |]. first_at_steps.
Qed.

(** X1: [get_event_id] gives back the identifier that [EVENT_LOG_SEL] was
    called with, when the identifier has no line feed. *)
Theorem sel_event_id (obj : SharedMemory) (timer : Z) (ID : string)
    (exception_type : Z) (additional_info : string) :
  all_chars not_LF ID = true ->
  size (EVENT_LOG_SEL obj timer ID exception_type additional_info) < npos ->
  get_event_id (EVENT_LOG_SEL obj timer ID exception_type additional_info) = Ok ID.
Proof. intros HID Hsize. apply head_event_id; [reflexivity | exact HID | exact Hsize]. Qed.

Lemma sel_event_id_witness :
  get_event_id (EVENT_LOG_SEL Ptam.empty 1500 "IMU-7" 2 "gyro timeout") = Ok "IMU-7".
Proof. apply sel_event_id; vm_compute; reflexivity. Defined.

(** X2: [get_event_time] gives back the reading of the timer that the log
    was written at, when the identifier does not contain the text
    ["TIME: "]. *)
Theorem sel_event_time (obj : SharedMemory) (timer : Z) (ID : string)
    (exception_type : Z) (additional_info : string) :
  index_of "TIME: " ID = None ->
  size (EVENT_LOG_SEL obj timer ID exception_type additional_info) < npos ->
  get_event_time (EVENT_LOG_SEL obj timer ID exception_type additional_info)
    = Ok (timer mod 2 ^ 64).
Proof. intros HID Hsize. apply head_event_time; [reflexivity | exact HID | exact Hsize]. Qed.

Lemma sel_event_time_witness :
  get_event_time (EVENT_LOG_SEL Ptam.empty 1500 "IMU-7" 2 "gyro timeout") = Ok 1500.
Proof. apply (sel_event_time Ptam.empty 1500); vm_compute; reflexivity. Defined.

(** X3: [get_event_state] gives back the integer register [state] modulo
    256, when the identifier does not contain the text ["MACHINE-STATE: "]. *)
Theorem sel_event_state (obj : SharedMemory) (timer : Z) (ID : string)
    (exception_type : Z) (additional_info : string) :
  index_of "MACHINE-STATE: " ID = None ->
  size (EVENT_LOG_SEL obj timer ID exception_type additional_info) < npos ->
  get_event_state (EVENT_LOG_SEL obj timer ID exception_type additional_info)
    = Ok (state_data obj mod 2 ^ 8).
Proof.
  intros HID Hsize.
  apply head_event_state;
    [reflexivity | exact HID | apply int_of_unsigned_range | exact Hsize].
Qed.

Lemma sel_event_state_witness :
  get_event_state
    (EVENT_LOG_SEL (storeInt "state" 2 Ptam.empty) 1500 "IMU-7" 2 "gyro timeout") = Ok 2.
Proof.
  apply (sel_event_state (storeInt "state" 2 Ptam.empty)); vm_compute; reflexivity.
Defined.

(** X4: [get_event_exptn] gives back the number of the exception type
    modulo 256, when the identifier does not contain the text
    ["EXCEPTION-TYPE: "]. *)
Theorem sel_event_exptn (obj : SharedMemory) (timer : Z) (ID : string)
    (exception_type : Z) (additional_info : string) :
  index_of "EXCEPTION-TYPE: " ID = None ->
  INT_MIN <= exception_type <= INT_MAX ->
  size (EVENT_LOG_SEL obj timer ID exception_type additional_info) < npos ->
  get_event_exptn (EVENT_LOG_SEL obj timer ID exception_type additional_info)
    = Ok (exception_type mod 2 ^ 8).
Proof.
  intros HID Hty Hsize. unfold get_event_exptn.
  erewrite (field_found _
      ((before_ID "LOG_SEL" ++ "ID: ") ++ ID
       ++ String "010" ((TAB ++ TAB ++ "TIME: ") ++ decimal (timer mod 2 ^ 64)
            ++ (LF ++ TAB ++ TAB ++ "MACHINE-STATE: ") ++ itoa (state_data obj)
            ++ (LF ++ TAB ++ TAB) ++ EmptyString))
      "EXCEPTION-TYPE: " (itoa exception_type));
    [ | | reflexivity | | apply itoa_not_LF | exact Hsize].
  - apply stoul_state, Hty.
  - unfold EVENT_LOG_SEL, log_head, before_ID, to_string_uint64, to_string_int. flatten.
  - first_at_steps.
Qed.

Lemma sel_event_exptn_witness :
  get_event_exptn (EVENT_LOG_SEL Ptam.empty 1500 "IMU-7" 2 "gyro timeout") = Ok 2.
Proof. apply sel_event_exptn; vm_compute; try reflexivity. split; discriminate. Defined.

(** X5: the three parsers read a sensor data dump back: the identifier is
    the text register [stateDescript], the time the reading of the timer and
    the state the integer register [state] modulo 256, when [stateDescript]
    has no line feed and contains neither ["TIME: "] nor
    ["MACHINE-STATE: "]. *)
Theorem sdd_log_parses_back (obj : SharedMemory) (timer : Z) :
  all_chars not_LF (getLastString "stateDescript" obj) = true ->
  index_of "TIME: " (getLastString "stateDescript" obj) = None ->
  index_of "MACHINE-STATE: " (getLastString "stateDescript" obj) = None ->
  size (EVENT_LOG_SDD obj timer) < npos ->
  get_event_id (EVENT_LOG_SDD obj timer) = Ok (getLastString "stateDescript" obj) /\
  get_event_time (EVENT_LOG_SDD obj timer) = Ok (timer mod 2 ^ 64) /\
  get_event_state (EVENT_LOG_SDD obj timer) = Ok (state_data obj mod 2 ^ 8).
Proof.
  intros Hlf Htime Hstate Hsize. split; [| split].
  - apply head_event_id; [reflexivity | exact Hlf | exact Hsize].
  - apply head_event_time; [reflexivity | exact Htime | exact Hsize].
  - unfold get_event_state.
    erewrite (field_found _
      ((before_ID "LOG_SDD" ++ "ID: ") ++ getLastString "stateDescript" obj
       ++ String "010" ((TAB ++ TAB ++ "TIME: ") ++ decimal (timer mod 2 ^ 64)
            ++ (LF ++ TAB ++ TAB ++ "DATA: ") ++ itoa (state_data obj)
            ++ (LF ++ TAB ++ TAB) ++ EmptyString))
      "MACHINE-STATE: " (itoa (state_data obj)));
      [ | | reflexivity | | apply itoa_not_LF | exact Hsize].
    + apply stoul_state, int_of_unsigned_range.
    + unfold EVENT_LOG_SDD, log_head, before_ID, to_string_uint64, to_string_int. flatten.
    + first_at_steps.
Qed.

Lemma sdd_log_parses_back_witness :
  get_event_id (EVENT_LOG_SDD Broadcast.issued_store 1500) = Ok "PREP" /\
  get_event_time (EVENT_LOG_SDD Broadcast.issued_store 1500) = Ok 1500 /\
  get_event_state (EVENT_LOG_SDD Broadcast.issued_store 1500) = Ok 1.
Proof. apply (sdd_log_parses_back Broadcast.issued_store 1500); vm_compute; reflexivity. Defined.

(** X6: the three parsers read a system state log back, whatever the
    registers hold: the identifier is ["LOG_SSL_ID"], the time the reading of
    the timer and the state the integer register [state] modulo 256. *)
Theorem ssl_log_parses_back (obj : SharedMemory) (timer : Z) :
  size (EVENT_LOG_SSL obj timer) < npos ->
  get_event_id (EVENT_LOG_SSL obj timer) = Ok "LOG_SSL_ID" /\
  get_event_time (EVENT_LOG_SSL obj timer) = Ok (timer mod 2 ^ 64) /\
  get_event_state (EVENT_LOG_SSL obj timer) = Ok (state_data obj mod 2 ^ 8).
Proof.
  intros Hsize. split; [| split].
  - apply head_event_id; [reflexivity | reflexivity | exact Hsize].
  - apply head_event_time; [reflexivity | reflexivity | exact Hsize].
  - apply head_event_state;
      [reflexivity | reflexivity | apply int_of_unsigned_range | exact Hsize].
Qed.

Lemma ssl_log_parses_back_witness :
  get_event_id (EVENT_LOG_SSL Broadcast.issued_store 1500) = Ok "LOG_SSL_ID" /\
  get_event_time (EVENT_LOG_SSL Broadcast.issued_store 1500) = Ok 1500 /\
  get_event_state (EVENT_LOG_SSL Broadcast.issued_store 1500) = Ok 1.
Proof. apply (ssl_log_parses_back Broadcast.issued_store 1500); vm_compute; reflexivity. Defined.

End LoggerFacts.

(* ===================================================================== *)
(** * The decoder and the endpoints *)
(* ===================================================================== *)

Module DecoderFacts.
Import Cxx Broadcast CxxFacts WireFormat.

Lemma find_first_of_from_none (chars s : string) (i : Z) :
  all_chars (fun x => negb (mem_char x chars)) s = true ->
  find_first_of_from chars i s = npos.
Proof.
  revert i. induction s as [|c s IH]; intros i Hs; [reflexivity |].
  simpl in Hs |- *. apply andb_prop in Hs as [Hc Hs].
  apply negb_true_iff in Hc. rewrite Hc. apply IH, Hs.
Qed.

(** An item without a character of a number: [find_first_of] gives [npos]
    and the second [substr] throws. *)
Lemma extract_item_no_number (item : string) :
  all_chars not_numeric item = true -> size item < npos ->
  extract_item item = Throw (out_of_range "basic_string::substr").
Proof.
  intros Hitem Hsize. unfold extract_item, find_first_of.
  rewrite (find_first_of_from_none _ _ _ Hitem).
  unfold substr. pose proof (size_nonneg item) as Hn.
  destruct (size item <? 0) eqn:H0; [apply Z.ltb_lt in H0; lia |].
  apply Z.ltb_lt in Hsize. now rewrite Hsize.
Qed.

(** The loop does not look at what the two vectors hold. *)
Lemma extract_loop_acc (fuel : nat) (ss : string)
    (ids : list string) (values : list float) :
  extract_loop fuel ss ids values =
    match extract_loop fuel ss [] [] with
    | Ok (new_ids, new_values) => Ok ((ids ++ new_ids)%list, (values ++ new_values)%list)
    | Throw e => Throw e
    end.
Proof.
  revert ss ids values.
  induction fuel as [|f IH]; intros ss ids values.
  - simpl. now rewrite !app_nil_r.
  - rewrite !extract_loop_step.
    destruct (getline ss "_") as [[item ss']|]; [| now rewrite !app_nil_r].
    destruct (extract_item item) as [[id value]|e]; [| reflexivity].
    rewrite (IH ss' (ids ++ [id])%list), (IH ss' ([] ++ [id])%list).
    destruct (extract_loop f ss' [] []) as [[ni nv]|e]; [| reflexivity].
    now rewrite <- !app_assoc.
Qed.

Lemma extract_loop_lockstep (fuel : nat) (ss : string)
    (ids : list string) (values : list float) ids' values' :
  extract_loop fuel ss ids values = Ok (ids', values') ->
  length ids = length values -> length ids' = length values'.
Proof.
  revert ss ids values.
  induction fuel as [|f IH]; intros ss ids values.
  - simpl. now intros [= <- <-].
  - rewrite extract_loop_step.
    destruct (getline ss "_") as [[item ss']|]; [| now intros [= <- <-]].
    destruct (extract_item item) as [[id value]|e]; [| discriminate].
    intros Hrun Hlen. apply (IH _ _ _ Hrun).
    rewrite !length_app. simpl. lia.
Qed.

(** X7: [extractValuesAndIds] appends: what the two vectors held stays in
    front, the pairs read from the text follow in order, one identifier and
    one value for each, and neither the pairs nor an exception depend on what
    the vectors held. *)
Theorem decoder_appends_pairs (data : string)
    (ids : list string) (values : list float) :
  extractValuesAndIds data ids values =
    match extractValuesAndIds data [] [] with
    | Ok (new_ids, new_values) => Ok ((ids ++ new_ids)%list, (values ++ new_values)%list)
    | Throw e => Throw e
    end /\
  (forall new_ids new_values,
     extractValuesAndIds data [] [] = Ok (new_ids, new_values) ->
     length new_ids = length new_values).
Proof.
  split; [apply extract_loop_acc |].
  intros ni nv Hrun. now apply (extract_loop_lockstep _ _ _ _ _ _ Hrun).
Qed.

Lemma extract_items_throws (items : list string) (item : string)
    (ids : list string) (values : list float) :
  item ∈ items -> all_chars not_numeric item = true -> size item < npos ->
  exists e, extract_items items ids values = Throw e.
Proof.
  intros Hin Hitem Hsize. revert ids values.
  induction items as [|a items IH]; intros ids values; [by apply elem_of_nil in Hin |].
  cbn [extract_items].
  apply elem_of_cons in Hin as [<- | Hin].
  - rewrite (extract_item_no_number _ Hitem Hsize). eauto.
  - destruct (extract_item a) as [[id value]|e]; [apply (IH Hin) | eauto].
Qed.

(** A text of items joined by the separator in which one item has no
    character of a number is not decoded: the call throws. *)
Lemma decoder_throws (items : list string) (item : string)
    (ids : list string) (values : list float) :
  Forall plain_item items -> item ∈ items ->
  all_chars not_numeric item = true -> size (join items) < npos ->
  exists e, extractValuesAndIds (join items) ids values = Throw e.
Proof.
  intros Hplain Hin Hitem Hsize. unfold extractValuesAndIds.
  rewrite (extract_loop_join _ Hplain) by lia.
  apply (extract_items_throws _ item); [exact Hin | exact Hitem |].
  pose proof (size_join_le _ _ Hin). lia.
Qed.

(** The loop on a text that ends with a separator. *)
Lemma extract_loop_join_separator (items : list string) :
  Forall plain_item items -> items <> [] ->
  forall (fuel : nat) ids values,
    (String.length (join items ++ "_") < fuel)%nat ->
    extract_loop fuel (join items ++ "_") ids values = extract_items items ids values.
Proof.
  induction 1 as [|a rest [Hne Ha] Hrest IH]; intros Hnil fuel ids values Hfuel;
    [congruence |].
  destruct fuel as [|f]; [lia |].
  rewrite extract_loop_step.
  destruct rest as [|b rest].
  - change (join [a]) with a.
    rewrite (getline_append _ _ Ha). simpl extract_items.
    destruct (extract_item a) as [[id value]|e]; [| reflexivity].
    destruct f; reflexivity.
  - rewrite join_cons in Hfuel |- *. rewrite append_assoc, append_cons in Hfuel |- *.
    rewrite (getline_append _ _ Ha).
    change (extract_items (a :: b :: rest) ids values) with
      (match extract_item a with
       | Throw e => Throw e
       | Ok (id, value) =>
           extract_items (b :: rest) (ids ++ [id]) (values ++ [value])
       end).
    destruct (extract_item a) as [[id value]|e]; [| reflexivity].
    apply IH; [discriminate |]. revert Hfuel.
    generalize (join (b :: rest) ++ "_"). intros j Hfuel.
    assert (Hlen := size_append a (String "_" j)).
    unfold size in Hlen. simpl String.length in Hlen. lia.
Qed.

(** X8: a separator at the end of the text is read over: the text decodes as
    it does without it. *)
Theorem decoder_ignores_trailing_separator (items : list string)
    (ids : list string) (values : list float) :
  Forall plain_item items -> items <> [] ->
  extractValuesAndIds (join items ++ "_") ids values
    = extractValuesAndIds (join items) ids values.
Proof.
  intros Hplain Hne. unfold extractValuesAndIds.
  rewrite (extract_loop_join_separator _ Hplain Hne) by lia.
  rewrite (extract_loop_join _ Hplain) by lia. reflexivity.
Qed.

Lemma decoder_ignores_trailing_separator_witness :
  extractValuesAndIds "LAT51.5_LONG0_" [] [] = extractValuesAndIds "LAT51.5_LONG0" [] [].
Proof.
  apply (decoder_ignores_trailing_separator ["LAT51.5"; "LONG0"] [] []).
  - repeat (constructor; [split; [discriminate | reflexivity] |]). constructor.
  - discriminate.
Defined.

End DecoderFacts.

Module EndpointFacts.
Import Cxx Ptam Broadcast Endpoints Text Logger CxxFacts TextFacts LoggerFacts WireFormat
  HandlerFacts DecoderFacts.

(** ** Receiving *)

Lemma size_zero_empty (s : string) : size s = 0 -> s = EmptyString.
Proof. destruct s; [reflexivity |]. unfold size. simpl. lia. Qed.

Lemma recv_loop_reassembles (total_len : Z) (evs rest : list recv_event) (buf : string) :
  Forall (fun ev => keeps_going ev = true) evs ->
  size buf + size (delivered evs) = total_len ->
  total_len <= MAX_DATA_LEN ->
  exists rest',
    recv_loop total_len buf (evs ++ rest) = (RecvDone (buf ++ delivered evs), rest').
Proof.
  intros Hevs. revert buf.
  induction Hevs as [|ev evs Hev Hevs IH]; intros buf Hsum Hcap.
  - cbn [delivered] in *. rewrite append_empty_r. change (size EmptyString) with 0 in Hsum.
    assert (Hlt : (size buf <? total_len) = false) by (apply Z.ltb_ge; lia).
    cbn [app]. destruct rest; cbn [recv_loop]; rewrite Hlt; eauto.
  - cbn [delivered] in Hsum |- *. rewrite size_append in Hsum.
    pose proof (size_nonneg (recv_bytes ev)) as Hb.
    pose proof (size_nonneg (delivered evs)) as Hd.
    change ((ev :: evs) ++ rest)%list with (ev :: (evs ++ rest))%list.
    cbn [recv_loop].
    destruct (size buf <? total_len) eqn:Hlt.
    + destruct ev as [bytes | [| |]]; try discriminate.
      * cbn [keeps_going] in Hev. apply Z.ltb_lt in Hev.
        cbn [recv_ret recv_bytes] in *.
        destruct (size bytes <=? 0) eqn:Hle; [apply Z.leb_le in Hle; lia |].
        destruct (MAX_DATA_LEN <? size buf + size bytes) eqn:Hmax;
          [apply Z.ltb_lt in Hmax; lia |].
        destruct (IH (buf ++ bytes)) as (rest' & ->);
          [rewrite size_append; lia | exact Hcap |].
        rewrite append_assoc. eauto.
      * cbn [recv_ret recv_bytes]. rewrite append_empty.
        change (HTTPD_SOCK_ERR_TIMEOUT <=? 0) with true.
        change (HTTPD_SOCK_ERR_TIMEOUT =? HTTPD_SOCK_ERR_TIMEOUT) with true.
        cbv iota.
        change (size (recv_bytes (SockErr SOCK_ERR_TIMEOUT))) with 0 in Hsum.
        apply IH; [lia | exact Hcap].
    + apply Z.ltb_ge in Hlt.
      assert (Hb0 : recv_bytes ev = EmptyString) by (apply size_zero_empty; lia).
      assert (Hd0 : delivered evs = EmptyString) by (apply size_zero_empty; lia).
      rewrite Hb0, Hd0, append_empty, append_empty_r. eauto.
Qed.

Lemma recv_loop_fails (total_len : Z) (evs : list recv_event) (ev : recv_event)
    (rest : list recv_event) (buf : string) :
  Forall (fun ev => keeps_going ev = true) evs ->
  size buf + size (delivered evs) < total_len ->
  total_len <= MAX_DATA_LEN ->
  ends_request ev = true ->
  recv_loop total_len buf (evs ++ ev :: rest) = (RecvFail, rest).
Proof.
  intros Hevs. revert buf.
  induction Hevs as [|e evs He Hevs IH]; intros buf Hsum Hcap Hend.
  - cbn [delivered] in Hsum. change (size EmptyString) with 0 in Hsum.
    cbn [app recv_loop].
    destruct (size buf <? total_len) eqn:Hlt; [| apply Z.ltb_ge in Hlt; lia].
    destruct ev as [bytes | [| |]]; try discriminate; try reflexivity.
    cbn [ends_request] in Hend. apply Z.eqb_eq in Hend.
    cbn [recv_ret]. rewrite Hend. reflexivity.
  - cbn [delivered] in Hsum. rewrite size_append in Hsum.
    pose proof (size_nonneg (recv_bytes e)) as Hb.
    pose proof (size_nonneg (delivered evs)) as Hd.
    change ((e :: evs) ++ ev :: rest)%list with (e :: (evs ++ ev :: rest))%list.
    cbn [recv_loop].
    destruct (size buf <? total_len) eqn:Hlt; [| apply Z.ltb_ge in Hlt; lia].
    destruct e as [bytes | [| |]]; try discriminate.
    + cbn [keeps_going] in He. apply Z.ltb_lt in He.
      cbn [recv_ret recv_bytes] in *.
      destruct (size bytes <=? 0) eqn:Hle; [apply Z.leb_le in Hle; lia |].
      destruct (MAX_DATA_LEN <? size buf + size bytes) eqn:Hmax;
        [apply Z.ltb_lt in Hmax; lia |].
      apply IH; [rewrite size_append; lia | exact Hcap | exact Hend].
    + cbn [recv_ret recv_bytes] in *.
      change (HTTPD_SOCK_ERR_TIMEOUT <=? 0) with true.
      change (HTTPD_SOCK_ERR_TIMEOUT =? HTTPD_SOCK_ERR_TIMEOUT) with true.
      cbv iota. change (size EmptyString) with 0 in Hsum.
      apply IH; [lia | exact Hcap | exact Hend].
Qed.

(** X9: a body that the socket delivers in pieces, with timeouts in
    between, is received in full: the buffer holds the pieces in order, as
    many bytes as the request declared. *)
Theorem body_in_pieces_is_received (req : httpd_req_t) (w : world)
    (evs rest : list recv_event) :
  method req = HTTP_POST ->
  rx w = (evs ++ rest)%list ->
  Forall (fun ev => keeps_going ev = true) evs ->
  int_of_size_t (content_len req) = size (delivered evs) ->
  size (delivered evs) < MAX_DATA_LEN ->
  exists rest', body_received req w (delivered evs) rest'.
Proof.
  intros Hpost Hrx Hevs Hlen Hcap.
  destruct (recv_loop_reassembles (size (delivered evs)) evs rest EmptyString Hevs)
    as (rest' & Hloop); [reflexivity | lia |].
  exists rest'. unfold body_received. rewrite Hlen, Hrx.
  rewrite append_empty in Hloop. repeat split; assumption.
Qed.

Lemma body_in_pieces_witness :
  exists rest',
    body_received {| method := HTTP_POST; content_len := 6 |}
      (quiet issued_store [Received "ABC"; SockErr SOCK_ERR_TIMEOUT; Received "123"])
      "ABC123" rest'.
Proof.
  apply (body_in_pieces_is_received {| method := HTTP_POST; content_len := 6 |}
           (quiet issued_store [Received "ABC"; SockErr SOCK_ERR_TIMEOUT; Received "123"])
           [Received "ABC"; SockErr SOCK_ERR_TIMEOUT; Received "123"] []).
  - reflexivity.
  - reflexivity.
  - repeat (constructor; [reflexivity |]). constructor.
  - reflexivity.
  - reflexivity.
Defined.

Lemma receive_fails (total_len : Z) (w : world) (rest : list recv_event) :
  recv_loop total_len EmptyString (rx w) = (RecvFail, rest) ->
  receive total_len w = (Done None, after_reading w rest).
Proof. intros Hloop. unfold receive. now rewrite Hloop. Qed.

(** X10: when the connection is closed or the socket fails before the
    declared length has arrived, the four ingestion handlers return
    [ESP_FAIL]: no register is written, the state machine is not called and
    no response is sent. *)
Theorem broken_transfer_changes_nothing (req : httpd_req_t) (w : world)
    (evs : list recv_event) (ev : recv_event) (rest : list recv_event) :
  method req = HTTP_POST ->
  int_of_size_t (content_len req) < MAX_DATA_LEN ->
  rx w = (evs ++ ev :: rest)%list ->
  Forall (fun ev => keeps_going ev = true) evs ->
  size (delivered evs) < int_of_size_t (content_len req) ->
  ends_request ev = true ->
  handle_SWP_incoming req w = (Done ESP_FAIL, after_reading w rest) /\
  handle_SYS_incoming req w = (Done ESP_FAIL, after_reading w rest) /\
  handle_STATE_incoming req w = (Done ESP_FAIL, after_reading w rest) /\
  handle_AUTH_incoming req w = (Done ESP_FAIL, after_reading w rest).
Proof.
  intros Hpost Hcap Hrx Hevs Hshort Hend.
  assert (Hrecv : receive (int_of_size_t (content_len req)) w
                  = (Done None, after_reading w rest)).
  { apply receive_fails. rewrite Hrx.
    apply recv_loop_fails; [exact Hevs | exact Hshort | lia | exact Hend]. }
  unfold handle_SWP_incoming, handle_SYS_incoming, handle_STATE_incoming,
    handle_AUTH_incoming.
  rewrite (post_is_post _ Hpost), (under_cap _ Hcap).
  unfold bind. rewrite Hrecv. repeat split.
Qed.

Lemma broken_transfer_witness :
  handle_AUTH_incoming {| method := HTTP_POST; content_len := 6 |}
      (quiet issued_store [Received "ABC"; Received EmptyString])
    = (Done ESP_FAIL, after_reading (quiet issued_store [Received "ABC"; Received EmptyString]) []).
Proof.
  apply (broken_transfer_changes_nothing {| method := HTTP_POST; content_len := 6 |}
           (quiet issued_store [Received "ABC"; Received EmptyString])
           [Received "ABC"] (Received EmptyString) []).
  - reflexivity.
  - reflexivity.
  - reflexivity.
  - repeat (constructor; [reflexivity |]). constructor.
  - reflexivity.
  - reflexivity.
Defined.

(** ** Commands *)

Lemma swp_first_five (req : httpd_req_t) (w : world) buf rest ids v0 v1 v2 v3 v4 more :
  body_received req w buf rest ->
  extractValuesAndIds (c_str buf) [] [] = Ok (ids, v0 :: v1 :: v2 :: v3 :: v4 :: more) ->
  exists w', handle_SWP_incoming req w = (Done ESP_OK, w') /\
    mem w' = registers_after SWP_registers [v0; v1; v2; v3; v4] (mem w) /\
    tx w' = tx w.
Proof.
  intros Hrecv Hdec. unfold handle_SWP_incoming.
  run_ingest Hrecv Hdec.
  eexists. split; [reflexivity |]. cbn. repeat split.
Qed.

Lemma sys_first_five (req : httpd_req_t) (w : world) buf rest ids v0 v1 v2 v3 v4 more :
  body_received req w buf rest ->
  extractValuesAndIds (c_str buf) [] [] = Ok (ids, v0 :: v1 :: v2 :: v3 :: v4 :: more) ->
  exists w', handle_SYS_incoming req w = (Done ESP_OK, w') /\
    mem w' = registers_after SYS_registers [v0; v1; v2; v3; v4] (mem w) /\
    tx w' = tx w.
Proof.
  intros Hrecv Hdec. unfold handle_SYS_incoming.
  run_ingest Hrecv Hdec.
  eexists. split; [reflexivity |]. cbn. repeat split.
Qed.

(** X11: of a command with five pairs or more, the SWP and the SYS handler
    use the first five values, by position: the identifiers are not looked
    at and what follows the fifth pair is ignored.  Both return [ESP_OK] and
    send no response. *)
Theorem commands_are_read_by_position
    (req : httpd_req_t) (w : world) buf rest ids v0 v1 v2 v3 v4 more :
  body_received req w buf rest ->
  extractValuesAndIds (c_str buf) [] [] = Ok (ids, v0 :: v1 :: v2 :: v3 :: v4 :: more) ->
  (fst (handle_SWP_incoming req w) = Done ESP_OK /\
   mem (snd (handle_SWP_incoming req w))
     = registers_after SWP_registers [v0; v1; v2; v3; v4] (mem w) /\
   tx (snd (handle_SWP_incoming req w)) = tx w) /\
  (fst (handle_SYS_incoming req w) = Done ESP_OK /\
   mem (snd (handle_SYS_incoming req w))
     = registers_after SYS_registers [v0; v1; v2; v3; v4] (mem w) /\
   tx (snd (handle_SYS_incoming req w)) = tx w).
Proof.
  intros Hrecv Hdec. split.
  - destruct (swp_first_five _ _ _ _ _ _ _ _ _ _ _ Hrecv Hdec) as (w' & -> & Hmem & Htx).
    repeat split; assumption.
  - destruct (sys_first_five _ _ _ _ _ _ _ _ _ _ _ Hrecv Hdec) as (w' & -> & Hmem & Htx).
    repeat split; assumption.
Qed.

Lemma commands_are_read_by_position_witness :
  mem (snd (handle_SWP_incoming {| method := HTTP_POST; content_len := 29 |}
              (quiet Ptam.empty [Received "VEL5_ALT4_X3_Y2_LAT1_EXTRA9.5"])))
    = registers_after SWP_registers [5; 4; 3; 2; 1]%float Ptam.empty.
Proof.
  refine (proj1 (proj2 (proj1
            (commands_are_read_by_position
               {| method := HTTP_POST; content_len := 29 |}
               (quiet Ptam.empty [Received "VEL5_ALT4_X3_Y2_LAT1_EXTRA9.5"])
               "VEL5_ALT4_X3_Y2_LAT1_EXTRA9.5" []
               ["VEL"; "ALT"; "X"; "Y"; "LAT"; "EXTRA"]
               5%float 4%float 3%float 2%float 1%float [9.5%float] _ _)))).
  - repeat split; vm_compute; reflexivity.
  - vm_compute. reflexivity.
Defined.

Lemma swp_short (req : httpd_req_t) (w : world) buf rest ids values :
  body_received req w buf rest ->
  extractValuesAndIds (c_str buf) [] [] = Ok (ids, values) ->
  (length values < 5)%nat ->
  exists w',
    handle_SWP_incoming req w
      = (Fault (VectorOutOfRange (Z.of_nat (length values)) (Z.of_nat (length values))), w') /\
    mem w' = registers_after SWP_registers values (mem w) /\ tx w' = tx w.
Proof.
  intros (Hpost & Hcap & Hloop & Hsize) Hdec Hlen. unfold handle_SWP_incoming.
  rewrite (post_is_post _ Hpost), (under_cap _ Hcap).
  unfold bind at 1; rewrite (receive_done _ _ _ _ Hloop Hsize).
  unfold bind at 1; rewrite (decode_ok _ _ _ _ Hdec).
  destruct values as [|v0 [|v1 [|v2 [|v3 [|v4 more]]]]];
    [ | | | | | simpl in Hlen; lia ];
    unfold bind, at_index; cbn [snd lookup list_lookup ret raise];
    rewrite ?update_register_run; cbn [length Z.of_nat];
    (eexists; split; [reflexivity |]); cbn; split; reflexivity.
Qed.

Lemma sys_short (req : httpd_req_t) (w : world) buf rest ids values :
  body_received req w buf rest ->
  extractValuesAndIds (c_str buf) [] [] = Ok (ids, values) ->
  (length values < 5)%nat ->
  exists w',
    handle_SYS_incoming req w
      = (Fault (VectorOutOfRange (Z.of_nat (length values)) (Z.of_nat (length values))), w') /\
    mem w' = registers_after SYS_registers values (mem w) /\ tx w' = tx w.
Proof.
  intros (Hpost & Hcap & Hloop & Hsize) Hdec Hlen. unfold handle_SYS_incoming.
  rewrite (post_is_post _ Hpost), (under_cap _ Hcap).
  unfold bind at 1; rewrite (receive_done _ _ _ _ Hloop Hsize).
  unfold bind at 1; rewrite (decode_ok _ _ _ _ Hdec).
  destruct values as [|v0 [|v1 [|v2 [|v3 [|v4 more]]]]];
    [ | | | | | simpl in Hlen; lia ];
    unfold bind, at_index; cbn [snd lookup list_lookup ret raise];
    rewrite ?update_register_run; cbn [length Z.of_nat];
    (eexists; split; [reflexivity |]); cbn; split; reflexivity.
Qed.

(** X12: a command with fewer than five pairs is applied as far as it goes:
    when the SWP or the SYS handler reads past the end of the values, the
    registers of the pairs that the command has are already written (zero
    leaving a register as it was), and no response has been sent. *)
Theorem short_command_is_applied_in_part
    (req : httpd_req_t) (w : world) buf rest ids values :
  body_received req w buf rest ->
  extractValuesAndIds (c_str buf) [] [] = Ok (ids, values) ->
  (length values < 5)%nat ->
  (fst (handle_SWP_incoming req w)
     = Fault (VectorOutOfRange (Z.of_nat (length values)) (Z.of_nat (length values))) /\
   mem (snd (handle_SWP_incoming req w)) = registers_after SWP_registers values (mem w) /\
   tx (snd (handle_SWP_incoming req w)) = tx w) /\
  (fst (handle_SYS_incoming req w)
     = Fault (VectorOutOfRange (Z.of_nat (length values)) (Z.of_nat (length values))) /\
   mem (snd (handle_SYS_incoming req w)) = registers_after SYS_registers values (mem w) /\
   tx (snd (handle_SYS_incoming req w)) = tx w).
Proof.
  intros Hrecv Hdec Hlen. split.
  - destruct (swp_short _ _ _ _ _ _ Hrecv Hdec Hlen) as (w' & -> & Hmem & Htx).
    repeat split; assumption.
  - destruct (sys_short _ _ _ _ _ _ Hrecv Hdec Hlen) as (w' & -> & Hmem & Htx).
    repeat split; assumption.
Qed.

Lemma short_command_witness :
  mem (snd (handle_SWP_incoming {| method := HTTP_POST; content_len := 13 |}
              (quiet Ptam.empty [Received "LAT51.5_LONG7"])))
    = registers_after SWP_registers [51.5; 7]%float Ptam.empty.
Proof.
  refine (proj1 (proj2 (proj1
            (short_command_is_applied_in_part
               {| method := HTTP_POST; content_len := 13 |}
               (quiet Ptam.empty [Received "LAT51.5_LONG7"])
               "LAT51.5_LONG7" [] ["LAT"; "LONG"] [51.5; 7]%float _ _ _)))).
  - repeat split; vm_compute; reflexivity.
  - vm_compute. reflexivity.
  - simpl. lia.
Defined.

Lemma decode_throws (data : string) (e : exn) (w : world) :
  extractValuesAndIds data [] [] = Throw e -> decode data w = (Fault (Uncaught e), w).
Proof. intros H. unfold decode. now rewrite H. Qed.

(** X13: a command in which one item has no character of a number is not
    answered with an error: the exception that the decoder throws leaves the
    SWP, the SYS and the STATE handler uncaught, before any register is
    written. *)
Theorem unreadable_command_is_not_caught (req : httpd_req_t) (w : world)
    buf rest (items : list string) (item : string) :
  body_received req w buf rest ->
  c_str buf = join items ->
  Forall plain_item items -> item ∈ items ->
  all_chars not_numeric item = true ->
  exists e,
    handle_SWP_incoming req w = (Fault (Uncaught e), after_reading w rest) /\
    handle_SYS_incoming req w = (Fault (Uncaught e), after_reading w rest) /\
    handle_STATE_incoming req w = (Fault (Uncaught e), after_reading w rest).
Proof.
  intros Hrecv Hbuf Hplain Hin Hitem.
  assert (Hlen : size (join items) < npos).
  { rewrite <- Hbuf. destruct Hrecv as (_ & _ & _ & Hsize).
    assert (Hc : size (c_str buf) <= size buf).
    { clear. unfold size. induction buf as [|c buf IH]; simpl; [lia |].
      destruct (Ascii.eqb c zero); simpl; lia. }
    unfold MAX_DATA_LEN, npos in *. lia. }
  destruct (decoder_throws items item [] [] Hplain Hin Hitem Hlen) as (e & Hthrow).
  rewrite <- Hbuf in Hthrow. exists e.
  unfold handle_SWP_incoming, handle_SYS_incoming, handle_STATE_incoming.
  destruct Hrecv as (Hpost & Hcap & Hloop & Hsize).
  rewrite (post_is_post _ Hpost), (under_cap _ Hcap).
  unfold bind. rewrite (receive_done _ _ _ _ Hloop Hsize).
  rewrite (decode_throws _ _ _ Hthrow). repeat split.
Qed.

Lemma unreadable_command_witness :
  exists e,
    handle_SWP_incoming {| method := HTTP_POST; content_len := 9 |}
        (quiet Ptam.empty [Received "LAT1_LONG"])
      = (Fault (Uncaught e), after_reading (quiet Ptam.empty [Received "LAT1_LONG"]) []) /\
    handle_SYS_incoming {| method := HTTP_POST; content_len := 9 |}
        (quiet Ptam.empty [Received "LAT1_LONG"])
      = (Fault (Uncaught e), after_reading (quiet Ptam.empty [Received "LAT1_LONG"]) []) /\
    handle_STATE_incoming {| method := HTTP_POST; content_len := 9 |}
        (quiet Ptam.empty [Received "LAT1_LONG"])
      = (Fault (Uncaught e), after_reading (quiet Ptam.empty [Received "LAT1_LONG"]) []).
Proof.
  apply (unreadable_command_is_not_caught {| method := HTTP_POST; content_len := 9 |}
           (quiet Ptam.empty [Received "LAT1_LONG"]) "LAT1_LONG" []
           ["LAT1"; "LONG"] "LONG").
  - repeat split; vm_compute; reflexivity.
  - reflexivity.
  - repeat (constructor; [split; [discriminate | reflexivity] |]). constructor.
  - apply (bool_decide_unpack _). vm_compute. exact I.
  - reflexivity.
Defined.

(** ** The token *)

Lemma c_str_up_to_NUL (text junk : string) :
  all_chars not_NUL text = true -> c_str (text ++ String zero junk) = text.
Proof.
  induction text as [|c text IH]; intros Htext.
  - reflexivity.
  - simpl in Htext. apply andb_prop in Htext as [Hc Htext].
    unfold not_NUL in Hc. apply negb_true_iff in Hc.
    rewrite append_cons. cbn [c_str]. rewrite Hc, (IH Htext). reflexivity.
Qed.

Lemma c_str_no_NUL (text : string) :
  all_chars not_NUL text = true -> c_str text = text.
Proof.
  induction text as [|c text IH]; intros Htext; [reflexivity |].
  simpl in Htext. apply andb_prop in Htext as [Hc Htext].
  unfold not_NUL in Hc. apply negb_true_iff in Hc.
  cbn [c_str]. rewrite Hc, (IH Htext). reflexivity.
Qed.

Lemma alnum_not_NUL (c : ascii) : is_alnum c = true -> not_NUL c = true.
Proof.
  unfold not_NUL. destruct (Ascii.eqb_spec c zero) as [-> |]; [discriminate | reflexivity].
Qed.

Lemma auth_match (req : httpd_req_t) (w : world) buf rest :
  body_received req w buf rest ->
  c_str buf = getLastString "arm_token" (mem w) ->
  handle_AUTH_incoming req w = (Done ESP_OK, armed_world w rest).
Proof.
  intros (Hpost & Hcap & Hloop & Hsize) Heq.
  rewrite (auth_verdict _ _ _ _ Hpost Hcap Hloop Hsize).
  apply String.eqb_eq in Heq. now rewrite Heq.
Qed.

(** X14: the token is compared as a C string: a body that holds the stored
    token, a NUL and anything after it arms the vehicle. *)
Theorem token_is_compared_up_to_NUL (req : httpd_req_t) (w : world)
    (junk : string) rest :
  all_chars not_NUL (getLastString "arm_token" (mem w)) = true ->
  body_received req w (getLastString "arm_token" (mem w) ++ String zero junk) rest ->
  handle_AUTH_incoming req w = (Done ESP_OK, armed_world w rest).
Proof.
  intros Htoken Hrecv. apply (auth_match _ _ _ _ Hrecv).
  apply c_str_up_to_NUL, Htoken.
Qed.

Lemma token_is_compared_up_to_NUL_witness :
  handle_AUTH_incoming {| method := HTTP_POST; content_len := 12 |}
      (quiet issued_store [Received ("ABC123" ++ String zero "WRONG")])
    = (Done ESP_OK,
       armed_world (quiet issued_store [Received ("ABC123" ++ String zero "WRONG")]) []).
Proof.
  apply (token_is_compared_up_to_NUL {| method := HTTP_POST; content_len := 12 |}
           (quiet issued_store [Received ("ABC123" ++ String zero "WRONG")]) "WRONG" []).
  - reflexivity.
  - repeat split; vm_compute; reflexivity.
Defined.

Lemma arm_ops_keep_token (m : SharedMemory) :
  getLastString "arm_token" (apply_ops m arm_ops) = getLastString "arm_token" m.
Proof. unfold getLastString. cbn. by simplify_map_eq. Qed.

(** X15: arming does not use the token up: after a request that was
    answered ["STATE-CHANGE-SUCCESS"] the same token is still stored, and a
    later request with the same body arms again. *)
Theorem token_is_not_used_up (req : httpd_req_t) (w : world) buf rest :
  body_received req w buf rest ->
  tx (snd (handle_AUTH_incoming req w)) = (tx w ++ [Response "STATE-CHANGE-SUCCESS"])%list ->
  getLastString "arm_token" (mem (snd (handle_AUTH_incoming req w)))
    = getLastString "arm_token" (mem w) /\
  forall (req' : httpd_req_t) (w' : world) rest',
    mem w' = mem (snd (handle_AUTH_incoming req w)) ->
    body_received req' w' buf rest' ->
    handle_AUTH_incoming req' w' = (Done ESP_OK, armed_world w' rest').
Proof.
  intros Hrecv Hsent.
  assert (Heq : c_str buf = getLastString "arm_token" (mem w)).
  { destruct Hrecv as (Hpost & Hcap & Hloop & Hsize).
    rewrite (auth_verdict _ _ _ _ Hpost Hcap Hloop Hsize) in Hsent.
    destruct (String.eqb_spec (c_str buf) (getLastString "arm_token" (mem w)));
      [assumption |].
    cbn in Hsent. apply snoc_inj in Hsent. discriminate. }
  rewrite (auth_match _ _ _ _ Hrecv Heq). cbn [snd mem armed_world].
  split; [apply arm_ops_keep_token |].
  intros req' w' rest' Hmem Hrecv'. apply (auth_match _ _ _ _ Hrecv').
  rewrite Hmem, arm_ops_keep_token. exact Heq.
Qed.

Lemma token_is_not_used_up_witness :
  getLastString "arm_token"
    (mem (snd (handle_AUTH_incoming {| method := HTTP_POST; content_len := 6 |}
                 (quiet issued_store [Received "ABC123"]))))
    = getLastString "arm_token" (mem (quiet issued_store [Received "ABC123"])).
Proof.
  refine (proj1 (token_is_not_used_up {| method := HTTP_POST; content_len := 6 |}
                   (quiet issued_store [Received "ABC123"]) "ABC123" [] _ _)).
  - repeat split; vm_compute; reflexivity.
  - vm_compute. reflexivity.
Defined.

(** What [handle_arm_token_request] does with a POST. *)
Lemma token_run (cobj : CONTROLLER_TASKS) (req : httpd_req_t) (w : world) :
  method req = HTTP_POST ->
  handle_arm_token_request cobj req w =
    if negb (verifyFlightConfiguration cobj =? 0) then
      let token := generateRandomAlphanumericToken cobj
                     (entropy w (draws w) mod 2 ^ 32)
                     (entropy w (S (draws w)) mod 2 ^ 32) 6 in
      (Done ESP_OK,
       {| mem := storeString "arm_token" token (clearData "arm_token" (mem w));
          oplog := (oplog w ++ [OpClear "arm_token"; OpStoreString "arm_token" token])%list;
          rx := rx w; tx := (tx w ++ [Response token])%list; sm_calls := sm_calls w;
          entropy := entropy w; draws := S (S (draws w)) |})
    else
      (Done ESP_OK,
       {| mem := mem w; oplog := oplog w; rx := rx w; tx := tx w;
          sm_calls := sm_calls w; entropy := entropy w; draws := S (S (draws w)) |}).
Proof.
  intros Hpost. unfold handle_arm_token_request. rewrite (post_is_post _ Hpost).
  unfold bind, esp_random. cbn [mem oplog rx tx sm_calls entropy draws].
  destruct (negb (verifyFlightConfiguration cobj =? 0)).
  - unfold sharedMemory, httpd_resp_send, respond, ret. cbn.
    rewrite <- app_assoc. reflexivity.
  - reflexivity.
Qed.

(** X16: the token that the token endpoint sends is the one that the AUTH
    endpoint accepts next: a request whose body is the text of the response
    arms the vehicle, and any other C string is answered
    ["STATE-CHANGE-FAIL"]. *)
Theorem issued_token_arms (cobj : CONTROLLER_TASKS) (req : httpd_req_t) (w : world) :
  token_contract cobj ->
  verifyFlightConfiguration cobj <> 0 ->
  method req = HTTP_POST ->
  exists token,
    tx (snd (handle_arm_token_request cobj req w)) = (tx w ++ [Response token])%list /\
    forall (req' : httpd_req_t) (w' : world) buf rest',
      mem w' = mem (snd (handle_arm_token_request cobj req w)) ->
      body_received req' w' buf rest' ->
      (c_str buf = token ->
         handle_AUTH_incoming req' w' = (Done ESP_OK, armed_world w' rest')) /\
      (c_str buf <> token ->
         tx (snd (handle_AUTH_incoming req' w'))
           = (tx w' ++ [Response "STATE-CHANGE-FAIL"])%list /\
         mem (snd (handle_AUTH_incoming req' w')) = mem w').
Proof.
  intros Hcontract Hnz Hpost.
  rewrite (token_run _ _ _ Hpost).
  apply Z.eqb_neq in Hnz. rewrite Hnz. cbn [negb snd tx mem].
  eexists. split; [reflexivity |].
  intros req' w' buf rest' Hmem Hrecv.
  assert (Hget : getLastString "arm_token" (mem w')
                 = generateRandomAlphanumericToken cobj
                     (entropy w (draws w) mod 2 ^ 32)
                     (entropy w (S (draws w)) mod 2 ^ 32) 6).
  { rewrite Hmem. unfold getLastString. cbn. by simplify_map_eq. }
  split.
  - intros Heq. apply (auth_match _ _ _ _ Hrecv). now rewrite Hget.
  - intros Hne. destruct Hrecv as (Hpost' & Hcap & Hloop & Hsize).
    rewrite (auth_verdict _ _ _ _ Hpost' Hcap Hloop Hsize).
    rewrite <- Hget in Hne. apply String.eqb_neq in Hne. rewrite Hne.
    split; reflexivity.
Qed.

Lemma issued_token_arms_witness :
  exists token,
    tx (snd (handle_arm_token_request (digit_tasks 1)
               {| method := HTTP_POST; content_len := 0 |} (quiet Ptam.empty [])))
      = ([] ++ [Response token])%list /\
    forall (req' : httpd_req_t) (w' : world) buf rest',
      mem w' = mem (snd (handle_arm_token_request (digit_tasks 1)
                           {| method := HTTP_POST; content_len := 0 |}
                           (quiet Ptam.empty []))) ->
      body_received req' w' buf rest' ->
      (c_str buf = token ->
         handle_AUTH_incoming req' w' = (Done ESP_OK, armed_world w' rest')) /\
      (c_str buf <> token ->
         tx (snd (handle_AUTH_incoming req' w'))
           = (tx w' ++ [Response "STATE-CHANGE-FAIL"])%list /\
         mem (snd (handle_AUTH_incoming req' w')) = mem w').
Proof.
  apply (issued_token_arms (digit_tasks 1)
           {| method := HTTP_POST; content_len := 0 |} (quiet Ptam.empty [])).
  - apply AuthGate.digit_tasks_contract.
  - discriminate.
  - reflexivity.
Defined.

(** ** Telemetry *)

(** X17: the IMU1, the IMU2 and the W1 endpoint answer a POST with one
    response and change nothing else; the text of each response is one that
    [extractValuesAndIds] reads back as the four labels and the four
    constants of the handler. *)
Theorem telemetry_answers_decode (req : httpd_req_t) (w : world) :
  method req = HTTP_POST ->
  (exists body,
     handle_IMU1_request req w = (Done ESP_OK, answered w (Response body)) /\
     extractValuesAndIds body [] []
       = Ok (["PITCH"; "ROLL"; "YAW"; "GYROY"], [98; 42; 87; 22]%float)) /\
  (exists body,
     handle_IMU2_request req w = (Done ESP_OK, answered w (Response body)) /\
     extractValuesAndIds body [] []
       = Ok (["ACCX"; "ACCY"; "ACCZ"; "GYROX"], [98; 42; 87; 22]%float)) /\
  (exists body,
     handle_W1_request req w = (Done ESP_OK, answered w (Response body)) /\
     extractValuesAndIds body [] []
       = Ok (["WFL"; "WFR"; "WRL"; "WRR"], [165; 148; 109; 112]%float)).
Proof.
  intros Hpost.
  unfold handle_IMU1_request, handle_IMU2_request, handle_W1_request.
  rewrite (post_is_post _ Hpost).
  repeat split; eexists; (split; [reflexivity | vm_compute; reflexivity]).
Qed.

Lemma telemetry_answers_witness :
  exists body,
    handle_W1_request {| method := HTTP_POST; content_len := 0 |} (quiet Ptam.empty [])
      = (Done ESP_OK, answered (quiet Ptam.empty []) (Response body)) /\
    extractValuesAndIds body [] []
      = Ok (["WFL"; "WFR"; "WRL"; "WRR"], [165; 148; 109; 112]%float).
Proof.
  refine (proj2 (proj2 (telemetry_answers_decode
            {| method := HTTP_POST; content_len := 0 |} (quiet Ptam.empty []) _))).
  reflexivity.
Defined.

Lemma amb_run (power : BATTERY) (req : httpd_req_t) (live : nat) (w : world) :
  exists r,
    handle_AMB_request power req live w
      = (Done (ESP_OK, if is_post req then S live else live), answered w r).
Proof.
  unfold handle_AMB_request. destruct (is_post req); eexists; reflexivity.
Qed.

Lemma battery_run (power : BATTERY) (req : httpd_req_t) (live : nat) (w : world) :
  exists r,
    handle_battery_request power req live w
      = (Done (ESP_OK, if is_post req then S live else live), answered w r).
Proof.
  unfold handle_battery_request. destruct (is_post req); eexists; reflexivity.
Qed.

Lemma serve_counts (h : httpd_req_t -> nat -> handler (esp_err_t * nat)) :
  (forall req live w, exists r,
     h req live w = (Done (ESP_OK, if is_post req then S live else live), answered w r)) ->
  forall reqs live w,
    fst (serve h reqs live w) = Done (live + length (filter is_post reqs))%nat.
Proof.
  intros Hh reqs. induction reqs as [|req reqs IH]; intros live w.
  - cbn. f_equal. lia.
  - cbn [serve]. unfold bind. destruct (Hh req live w) as (r & ->).
    cbn [snd]. rewrite IH. f_equal.
    rewrite filter_cons. destruct (is_post req) eqn:Hp.
    + rewrite decide_True by exact I. simpl. lia.
    + rewrite decide_False by exact id. lia.
Qed.

(** X18: the [BATTERY] object that the AMB and the battery endpoint create
    on entry is deleted on the path of a request that is not a POST only:
    after any sequence of requests, as many objects are left as there were
    POST requests. *)
Theorem battery_objects_are_left_behind (power : BATTERY)
    (reqs : list httpd_req_t) (live : nat) (w : world) :
  fst (serve (handle_AMB_request power) reqs live w)
    = Done (live + length (filter is_post reqs))%nat /\
  fst (serve (handle_battery_request power) reqs live w)
    = Done (live + length (filter is_post reqs))%nat.
Proof.
  split; apply serve_counts; intros; [apply amb_run | apply battery_run].
Qed.

(** ** The log of an armed vehicle *)

Lemma armed_state_data (m : SharedMemory) :
  state_data (apply_ops m arm_ops) = 0 /\
  getLastString "stateDescript" (apply_ops m arm_ops) = "ARMED".
Proof.
  destruct (arm_ops_registers m) as (_ & _ & H32 & _ & Hs).
  unfold state_data, getLastInt, getLastString. rewrite H32, Hs. split; reflexivity.
Qed.

(** X19: the system state log written after a request that armed the
    vehicle names the state ["ARMED"] next to the machine state 0, and
    [get_event_state] reads 0 from it: the handler keeps the code 2 in the
    floating-point register, the logger reads the integer register. *)
Theorem log_of_an_armed_vehicle (req : httpd_req_t) (w : world) buf rest (timer : Z) :
  body_received req w buf rest ->
  c_str buf = getLastString "arm_token" (mem w) ->
  size (EVENT_LOG_SSL (mem (snd (handle_AUTH_incoming req w))) timer) < npos ->
  EVENT_LOG_SSL (mem (snd (handle_AUTH_incoming req w))) timer
    = log_head "LOG_SSL" "LOG_SSL_ID" timer
      ++ (TAB ++ TAB ++ "MACHINE-STATE: " ++ "0" ++ LF)
      ++ (TAB ++ TAB ++ "STATE: " ++ "ARMED" ++ LF)
      ++ log_foot /\
  get_event_state (EVENT_LOG_SSL (mem (snd (handle_AUTH_incoming req w))) timer) = Ok 0.
Proof.
  intros Hrecv Heq. rewrite (auth_match _ _ _ _ Hrecv Heq).
  cbn [snd mem armed_world]. intros Hsize.
  destruct (armed_state_data (mem w)) as [Hstate Hlabel].
  assert (Hlog : EVENT_LOG_SSL (apply_ops (mem w) arm_ops) timer
                 = log_head "LOG_SSL" "LOG_SSL_ID" timer
                   ++ (TAB ++ TAB ++ "MACHINE-STATE: " ++ to_string_int 0 ++ LF)
                   ++ (TAB ++ TAB ++ "STATE: " ++ "ARMED" ++ LF) ++ log_foot).
  { unfold EVENT_LOG_SSL. now rewrite Hstate, Hlabel. }
  split; [exact Hlog |].
  rewrite Hlog in Hsize |- *.
  apply (head_event_state "LOG_SSL" "LOG_SSL_ID" timer 0);
    [reflexivity | reflexivity | split; discriminate | exact Hsize].
Qed.

Lemma log_of_an_armed_vehicle_witness :
  get_event_state
    (EVENT_LOG_SSL
       (mem (snd (handle_AUTH_incoming {| method := HTTP_POST; content_len := 6 |}
                    (quiet issued_store [Received "ABC123"])))) 1500) = Ok 0.
Proof.
  refine (proj2 (log_of_an_armed_vehicle {| method := HTTP_POST; content_len := 6 |}
                   (quiet issued_store [Received "ABC123"]) "ABC123" [] 1500 _ _ _)).
  - repeat split; vm_compute; reflexivity.
  - reflexivity.
  - vm_compute. reflexivity.
Defined.

End EndpointFacts.

(* ===================================================================== *)
(** * Firmware update *)
(* ===================================================================== *)

Module OtaFacts.
Import Cxx Broadcast Endpoints Ota CxxFacts TextFacts EndpointFacts.

Lemma take_drop (n : nat) (s : string) : string_take n s ++ string_drop n s = s.
Proof.
  revert s. induction n as [|n IH]; intros [|c s]; try reflexivity.
  cbn [string_take string_drop]. rewrite append_cons. f_equal. apply IH.
Qed.

Lemma length_drop (n : nat) (s : string) :
  String.length (string_drop n s) = (String.length s - n)%nat.
Proof.
  revert s. induction n as [|n IH]; intros [|c s]; try reflexivity.
  cbn [string_drop]. simpl String.length. apply IH.
Qed.

Lemma length_take (n : nat) (s : string) :
  (n <= String.length s)%nat -> String.length (string_take n s) = n.
Proof.
  revert s. induction n as [|n IH]; intros [|c s] Hn; try reflexivity; simpl in Hn.
  - lia.
  - cbn [string_take]. simpl String.length. f_equal. apply IH. lia.
Qed.

Lemma backlog_app (a b : list recv_event) :
  backlog (a ++ b) = (backlog a + backlog b)%nat.
Proof. induction a as [|ev a IH]; [reflexivity |]. simpl. rewrite IH. lia. Qed.

Lemma image_app (a b : list ota_call) : image (a ++ b) = image a ++ image b.
Proof.
  induction a as [|c a IH]; [reflexivity |].
  destruct c; simpl; rewrite IH; try reflexivity.
  now rewrite append_assoc.
Qed.

Lemma image_writes (pieces : list string) : image (map OtaWrite pieces) = glue pieces.
Proof. induction pieces as [|p pieces IH]; [reflexivity |]. simpl. now rewrite IH. Qed.

(** What has been written when the calls of the handler follow the writes. *)
Lemma image_written (d : device) (pending : list recv_event) (pieces : list string)
    (after : list ota_call) :
  image after = EmptyString ->
  image (ota_log (written d pending pieces) ++ after) = image (ota_log d) ++ glue pieces.
Proof.
  intros Hafter. cbn [written ota_log].
  change (OtaBegin :: map OtaWrite pieces) with ([OtaBegin] ++ map OtaWrite pieces)%list.
  rewrite !image_app, image_writes, Hafter. cbn [image].
  now rewrite append_empty, append_empty_r.
Qed.

(** One turn of the loop that takes a chunk, or a part of it. *)
Lemma ota_loop_chunk (api : ota_api) (f : nat) (remaining : Z) (d : device)
    (bytes : string) (pending : list recv_event) :
  (forall log data, esp_ota_write api log data = ESP_OK) ->
  rx (net d) = Received bytes :: pending ->
  0 < size bytes -> 0 < remaining ->
  exists piece left,
    bytes = piece ++ left /\ 0 < size piece <= remaining /\
    (left = EmptyString \/ 0 < size left) /\
    ota_loop api (S f) remaining d
      = ota_loop api f (remaining - size piece)
          (call (OtaWrite piece)
             (unread (if 0 <? size left then Received left :: pending else pending) d)).
Proof.
  intros Hwrite Hrx Hbytes Hrem.
  cbn [ota_loop]. apply Z.ltb_lt in Hrem as Hrem'. rewrite Hrem'. rewrite Hrx.
  cbn [httpd_req_recv].
  assert (Hmin : 0 < Z.min remaining 1000) by lia.
  destruct (Z.min remaining 1000 <? size bytes) eqn:Hsplit.
  - apply Z.ltb_lt in Hsplit.
    set (n := Z.to_nat (Z.min remaining 1000)).
    assert (Hn : (n <= String.length bytes)%nat) by (unfold size in Hsplit; lia).
    assert (Htake : size (string_take n bytes) = Z.min remaining 1000).
    { unfold size. rewrite (length_take _ _ Hn). lia. }
    assert (Hdrop : 0 < size (string_drop n bytes)).
    { unfold size in *. rewrite length_drop. lia. }
    exists (string_take n bytes), (string_drop n bytes).
    split; [symmetry; apply take_drop |]. split; [lia |]. split; [right; exact Hdrop |].
    cbn [recv_ret recv_bytes]. rewrite Htake.
    destruct (Z.min remaining 1000 =? HTTPD_SOCK_ERR_TIMEOUT) eqn:Ht;
      [apply Z.eqb_eq in Ht; unfold HTTPD_SOCK_ERR_TIMEOUT in Ht; lia |].
    destruct (Z.min remaining 1000 <=? 0) eqn:Hle; [apply Z.leb_le in Hle; lia |].
    rewrite Hwrite. apply Z.ltb_lt in Hdrop. now rewrite Hdrop.
  - apply Z.ltb_ge in Hsplit.
    exists bytes, EmptyString.
    split; [now rewrite append_empty_r |]. split; [lia |]. split; [left; reflexivity |].
    cbn [recv_ret recv_bytes].
    destruct (size bytes =? HTTPD_SOCK_ERR_TIMEOUT) eqn:Ht;
      [apply Z.eqb_eq in Ht; unfold HTTPD_SOCK_ERR_TIMEOUT in Ht; lia |].
    destruct (size bytes <=? 0) eqn:Hle; [apply Z.leb_le in Hle; lia |].
    rewrite Hwrite. reflexivity.
Qed.

Lemma ota_loop_timeout (api : ota_api) (f : nat) (remaining : Z) (d : device)
    (pending : list recv_event) :
  rx (net d) = SockErr SOCK_ERR_TIMEOUT :: pending -> 0 < remaining ->
  ota_loop api (S f) remaining d = ota_loop api f remaining (unread pending d).
Proof.
  intros Hrx Hrem. cbn [ota_loop]. apply Z.ltb_lt in Hrem. rewrite Hrem, Hrx.
  reflexivity.
Qed.

(** The loop on a body that arrives in full. *)
Lemma ota_loop_receives (api : ota_api) (fuel : nat) :
  (forall log data, esp_ota_write api log data = ESP_OK) ->
  forall (evs rest : list recv_event) (d : device) (remaining : Z),
    Forall (fun ev => keeps_going ev = true) evs ->
    rx (net d) = (evs ++ rest)%list ->
    remaining = size (delivered evs) ->
    (backlog evs < fuel)%nat ->
    exists pending pieces,
      glue pieces = delivered evs /\
      ota_loop api fuel remaining d
        = (Finished, {| net := after_reading (net d) pending;
                        ota_log := ota_log d ++ map OtaWrite pieces |}).
Proof.
  intros Hwrite. induction fuel as [|f IH]; intros evs rest d remaining Hevs Hrx Hrem Hfuel;
    [lia |].
  destruct (Z.ltb_spec 0 remaining) as [Hpos | Hzero].
  - destruct Hevs as [|ev evs Hev Hevs];
      [cbn [delivered] in Hrem; change (size EmptyString) with 0 in Hrem; lia |].
    cbn [delivered] in Hrem. rewrite size_append in Hrem.
    cbn [backlog] in Hfuel.
    change ((ev :: evs) ++ rest)%list with (ev :: (evs ++ rest))%list in Hrx.
    destruct ev as [bytes | [| |]]; try discriminate.
    + cbn [keeps_going] in Hev. apply Z.ltb_lt in Hev. cbn [recv_bytes] in *.
      destruct (ota_loop_chunk api f remaining d bytes _ Hwrite Hrx Hev Hpos)
        as (piece & left & Hsplit & Hpiece & Hleft & ->).
      assert (Hsz : size bytes = size piece + size left)
        by (rewrite Hsplit; apply size_append).
      destruct Hleft as [-> | Hleft].
      * change (0 <? size EmptyString) with false. cbv iota.
        rewrite append_empty_r in Hsplit. subst piece.
        destruct (IH evs rest
                    (call (OtaWrite bytes) (unread (evs ++ rest)%list d))
                    (remaining - size bytes) Hevs)
          as (pending & pieces & Hglue & ->); [reflexivity | lia | lia |].
        exists pending, (bytes :: pieces). split; [cbn; now rewrite Hglue |].
        cbn. rewrite <- app_assoc. reflexivity.
      * apply Z.ltb_lt in Hleft as Hleft'. rewrite Hleft'.
        destruct (IH (Received left :: evs) rest
                    (call (OtaWrite piece)
                       (unread (Received left :: (evs ++ rest))%list d))
                    (remaining - size piece))
          as (pending & pieces & Hglue & ->).
        -- constructor; [exact Hleft' | exact Hevs].
        -- reflexivity.
        -- cbn [delivered recv_bytes]. rewrite size_append. lia.
        -- cbn [backlog recv_bytes]. unfold size in *. lia.
        -- exists pending, (piece :: pieces). split.
           ++ cbn [glue]. rewrite Hglue. cbn [delivered recv_bytes].
              rewrite Hsplit. now rewrite append_assoc.
           ++ cbn. rewrite <- app_assoc. reflexivity.
    + rewrite (ota_loop_timeout api f remaining d _ Hrx Hpos).
      change (size (recv_bytes (SockErr SOCK_ERR_TIMEOUT))) with 0 in Hrem.
      destruct (IH evs rest (unread (evs ++ rest)%list d) remaining Hevs)
        as (pending & pieces & Hglue & ->); [reflexivity | lia | cbn in Hfuel; lia |].
      exists pending, pieces. split; [cbn; now rewrite Hglue |]. reflexivity.
  - assert (Hd0 : delivered evs = EmptyString).
    { apply size_zero_empty. pose proof (size_nonneg (delivered evs)). lia. }
    exists (rx (net d)), []. split; [now rewrite Hd0 |].
    cbn [ota_loop]. apply Z.ltb_ge in Hzero. rewrite Hzero.
    cbn. rewrite app_nil_r. destruct d as [[] ?]; reflexivity.
Qed.

(** The loop on a body that breaks off. *)
Lemma ota_loop_breaks_off (api : ota_api) (fuel : nat) :
  (forall log data, esp_ota_write api log data = ESP_OK) ->
  forall (evs : list recv_event) (ev : recv_event) (rest : list recv_event)
         (d : device) (remaining : Z),
    Forall (fun ev => keeps_going ev = true) evs ->
    ends_request ev = true ->
    rx (net d) = (evs ++ ev :: rest)%list ->
    size (delivered evs) < remaining ->
    (backlog evs < fuel)%nat ->
    exists pieces,
      glue pieces = delivered evs /\
      ota_loop api fuel remaining d
        = (GaveUp,
           send (ErrorResponse HTTPD_500_INTERNAL_SERVER_ERROR "Protocol Error")
             {| net := after_reading (net d) rest;
                ota_log := ota_log d ++ map OtaWrite pieces |}).
Proof.
  intros Hwrite.
  induction fuel as [|f IH]; intros evs ev rest d remaining Hevs Hend Hrx Hrem Hfuel;
    [lia |].
  pose proof (size_nonneg (delivered evs)) as Hnn.
  assert (Hpos : 0 < remaining) by lia.
  destruct Hevs as [|e evs He Hevs].
  - cbn [app] in Hrx. exists []. split; [reflexivity |].
    cbn [ota_loop]. apply Z.ltb_lt in Hpos as Hpos'. rewrite Hpos', Hrx.
    cbn [map]. rewrite app_nil_r.
    destruct ev as [bytes | [| |]]; try discriminate.
    + cbn [ends_request] in Hend. apply Z.eqb_eq in Hend.
      cbn [httpd_req_recv]. rewrite Hend.
      destruct (Z.min remaining 1000 <? 0) eqn:Hm; [apply Z.ltb_lt in Hm; lia |].
      cbn [recv_ret]. rewrite Hend. reflexivity.
    + reflexivity.
    + reflexivity.
  - cbn [delivered] in Hrem. rewrite size_append in Hrem.
    pose proof (size_nonneg (delivered evs)) as Hnn'.
    cbn [backlog] in Hfuel.
    change ((e :: evs) ++ ev :: rest)%list with (e :: (evs ++ ev :: rest))%list in Hrx.
    destruct e as [bytes | [| |]]; try discriminate.
    + cbn [keeps_going] in He. apply Z.ltb_lt in He. cbn [recv_bytes] in *.
      destruct (ota_loop_chunk api f remaining d bytes _ Hwrite Hrx He Hpos)
        as (piece & left & Hsplit & Hpiece & Hleft & ->).
      assert (Hsz : size bytes = size piece + size left)
        by (rewrite Hsplit; apply size_append).
      destruct Hleft as [-> | Hleft].
      * change (0 <? size EmptyString) with false. cbv iota.
        rewrite append_empty_r in Hsplit. subst piece.
        destruct (IH evs ev rest
                    (call (OtaWrite bytes) (unread (evs ++ ev :: rest)%list d))
                    (remaining - size bytes) Hevs Hend)
          as (pieces & Hglue & ->); [reflexivity | lia | lia |].
        exists (bytes :: pieces). split; [cbn; now rewrite Hglue |].
        cbn. rewrite <- app_assoc. reflexivity.
      * apply Z.ltb_lt in Hleft as Hleft'. rewrite Hleft'.
        destruct (IH (Received left :: evs) ev rest
                    (call (OtaWrite piece)
                       (unread (Received left :: (evs ++ ev :: rest))%list d))
                    (remaining - size piece))
          as (pieces & Hglue & ->).
        -- constructor; [exact Hleft' | exact Hevs].
        -- exact Hend.
        -- reflexivity.
        -- cbn [delivered recv_bytes]. rewrite size_append. lia.
        -- cbn [backlog recv_bytes]. unfold size in *. lia.
        -- exists (piece :: pieces). split.
           ++ cbn [glue]. rewrite Hglue. cbn [delivered recv_bytes].
              rewrite Hsplit. now rewrite append_assoc.
           ++ cbn. rewrite <- app_assoc. reflexivity.
    + rewrite (ota_loop_timeout api f remaining d _ Hrx Hpos).
      change (size (recv_bytes (SockErr SOCK_ERR_TIMEOUT))) with 0 in Hrem.
      destruct (IH evs ev rest (unread (evs ++ ev :: rest)%list d) remaining Hevs Hend)
        as (pieces & Hglue & ->); [reflexivity | lia | cbn in Hfuel; lia |].
      exists pieces. split; [cbn; now rewrite Hglue |]. reflexivity.
Qed.

(** After a body that arrived in full, the handler goes on to validate what
    it has written. *)
Lemma ota_received (api : ota_api) (req : httpd_req_t) (d : device)
    (evs rest : list recv_event) :
  (forall log, esp_ota_begin api log = ESP_OK) ->
  (forall log data, esp_ota_write api log data = ESP_OK) ->
  rx (net d) = (evs ++ rest)%list ->
  Forall (fun ev => keeps_going ev = true) evs ->
  int_of_size_t (content_len req) = size (delivered evs) ->
  exists pending pieces,
    glue pieces = delivered evs /\
    handle_OTA_incoming api req d = ota_finish api (written d pending pieces).
Proof.
  intros Hbegin Hwrite Hrx Hevs Hlen. unfold handle_OTA_incoming.
  rewrite Hbegin.
  destruct (ota_loop_receives api (S (backlog (rx (net d)))) Hwrite evs rest
              (call OtaBegin d) (int_of_size_t (content_len req)) Hevs)
    as (pending & pieces & Hglue & ->);
    [exact Hrx | exact Hlen | rewrite Hrx, backlog_app; lia |].
  exists pending, pieces. split; [exact Hglue |].
  unfold written. cbn. rewrite <- app_assoc. reflexivity.
Qed.

(** X20: when the body arrives in full, in chunks of any size with timeouts
    in between, and the update API accepts it, the handler has written the
    bytes of the body to the update partition in order, ended the update, set
    the boot partition, sent the message of completion and restarted; it does
    not return. *)
Theorem ota_writes_the_body_and_restarts (api : ota_api) (req : httpd_req_t)
    (d : device) (evs rest : list recv_event) :
  (forall log, esp_ota_begin api log = ESP_OK) ->
  (forall log data, esp_ota_write api log data = ESP_OK) ->
  (forall log, esp_ota_end api log = ESP_OK) ->
  (forall log, esp_ota_set_boot_partition api log = ESP_OK) ->
  rx (net d) = (evs ++ rest)%list ->
  Forall (fun ev => keeps_going ev = true) evs ->
  int_of_size_t (content_len req) = size (delivered evs) ->
  exists pending pieces,
    glue pieces = delivered evs /\
    handle_OTA_incoming api req d
      = (Restarted,
         call OtaRestart
           (send (Response complete_message)
              (call OtaSetBoot (call OtaEnd (written d pending pieces))))) /\
    image (ota_log (snd (handle_OTA_incoming api req d)))
      = image (ota_log d) ++ delivered evs.
Proof.
  intros Hbegin Hwrite Hend Hboot Hrx Hevs Hlen.
  destruct (ota_received api req d evs rest Hbegin Hwrite Hrx Hevs Hlen)
    as (pending & pieces & Hglue & Hrun).
  exists pending, pieces. split; [exact Hglue |].
  rewrite Hrun. unfold ota_finish. rewrite Hend, Hboot.
  split; [reflexivity |].
  cbn [snd call send ota_log]. rewrite <- !app_assoc.
  rewrite <- Hglue. now apply image_written.
Qed.

Lemma ota_writes_the_body_witness :
  exists pending pieces,
    glue pieces = "firmware" /\
    handle_OTA_incoming willing {| method := HTTP_POST; content_len := 8 |}
        (idle [Received "firm"; SockErr SOCK_ERR_TIMEOUT; Received "ware"])
      = (Restarted,
         call OtaRestart
           (send (Response complete_message)
              (call OtaSetBoot
                 (call OtaEnd
                    (written (idle [Received "firm"; SockErr SOCK_ERR_TIMEOUT;
                                    Received "ware"]) pending pieces))))) /\
    image (ota_log (snd (handle_OTA_incoming willing
                           {| method := HTTP_POST; content_len := 8 |}
                           (idle [Received "firm"; SockErr SOCK_ERR_TIMEOUT;
                                  Received "ware"]))))
      = image [] ++ "firmware".
Proof.
  apply (ota_writes_the_body_and_restarts willing
           {| method := HTTP_POST; content_len := 8 |}
           (idle [Received "firm"; SockErr SOCK_ERR_TIMEOUT; Received "ware"])
           [Received "firm"; SockErr SOCK_ERR_TIMEOUT; Received "ware"] []);
    try reflexivity.
  repeat (constructor; [reflexivity |]). constructor.
Defined.

(** X21: when the connection is closed or the socket fails before the
    declared length has arrived, the handler answers 500 ["Protocol Error"]
    and returns [ESP_FAIL]; what had arrived has been written to the update
    partition, and the update is neither ended nor activated, nor is the
    system restarted. *)
Theorem ota_broken_transfer (api : ota_api) (req : httpd_req_t) (d : device)
    (evs : list recv_event) (ev : recv_event) (rest : list recv_event) :
  (forall log, esp_ota_begin api log = ESP_OK) ->
  (forall log data, esp_ota_write api log data = ESP_OK) ->
  rx (net d) = (evs ++ ev :: rest)%list ->
  Forall (fun ev => keeps_going ev = true) evs ->
  size (delivered evs) < int_of_size_t (content_len req) ->
  ends_request ev = true ->
  exists pieces,
    glue pieces = delivered evs /\
    handle_OTA_incoming api req d
      = (Returned ESP_FAIL,
         send (ErrorResponse HTTPD_500_INTERNAL_SERVER_ERROR "Protocol Error")
           (written d rest pieces)).
Proof.
  intros Hbegin Hwrite Hrx Hevs Hshort Hend. unfold handle_OTA_incoming.
  rewrite Hbegin.
  destruct (ota_loop_breaks_off api (S (backlog (rx (net d)))) Hwrite evs ev rest
              (call OtaBegin d) (int_of_size_t (content_len req)) Hevs Hend)
    as (pieces & Hglue & ->);
    [exact Hrx | exact Hshort | rewrite Hrx, backlog_app; lia |].
  exists pieces. split; [exact Hglue |].
  unfold written, send. cbn. rewrite <- app_assoc. reflexivity.
Qed.

Lemma ota_broken_transfer_witness :
  exists pieces,
    glue pieces = "firm" /\
    handle_OTA_incoming willing {| method := HTTP_POST; content_len := 8 |}
        (idle [Received "firm"; Received EmptyString])
      = (Returned ESP_FAIL,
         send (ErrorResponse HTTPD_500_INTERNAL_SERVER_ERROR "Protocol Error")
           (written (idle [Received "firm"; Received EmptyString]) [] pieces)).
Proof.
  apply (ota_broken_transfer willing {| method := HTTP_POST; content_len := 8 |}
           (idle [Received "firm"; Received EmptyString])
           [Received "firm"] (Received EmptyString) []); try reflexivity.
  repeat (constructor; [reflexivity |]). constructor.
Defined.

(** X22: when the image is not validated, or validated and not activated,
    the handler answers 500 and returns [ESP_FAIL], having called
    [esp_ota_end] a second time on the same handle and
    [esp_ota_set_boot_partition] once more: the boot partition is asked for
    even after [esp_ota_end] has failed. *)
Theorem ota_failure_repeats_the_calls (api : ota_api) (req : httpd_req_t)
    (d : device) (evs rest : list recv_event) :
  (forall log, esp_ota_begin api log = ESP_OK) ->
  (forall log data, esp_ota_write api log data = ESP_OK) ->
  rx (net d) = (evs ++ rest)%list ->
  Forall (fun ev => keeps_going ev = true) evs ->
  int_of_size_t (content_len req) = size (delivered evs) ->
  exists pending pieces,
    glue pieces = delivered evs /\
    ((forall log, esp_ota_end api log = ESP_FAIL) ->
       fst (handle_OTA_incoming api req d) = Returned ESP_FAIL /\
       ota_log (snd (handle_OTA_incoming api req d))
         = (ota_log (written d pending pieces) ++ [OtaEnd; OtaEnd; OtaSetBoot])%list) /\
    ((forall log, esp_ota_end api log = ESP_OK) ->
     (forall log, esp_ota_set_boot_partition api log = ESP_FAIL) ->
       fst (handle_OTA_incoming api req d) = Returned ESP_FAIL /\
       ota_log (snd (handle_OTA_incoming api req d))
         = (ota_log (written d pending pieces)
            ++ [OtaEnd; OtaSetBoot; OtaEnd; OtaSetBoot])%list) /\
    ((forall log, esp_ota_end api log = ESP_FAIL) \/
     (forall log, esp_ota_set_boot_partition api log = ESP_FAIL) ->
       tx (net (snd (handle_OTA_incoming api req d)))
         = (tx (net d) ++ [ErrorResponse HTTPD_500_INTERNAL_SERVER_ERROR
                             "Validation / Activation Error"])%list).
Proof.
  intros Hbegin Hwrite Hrx Hevs Hlen.
  destruct (ota_received api req d evs rest Hbegin Hwrite Hrx Hevs Hlen)
    as (pending & pieces & Hglue & Hrun).
  exists pending, pieces. split; [exact Hglue |].
  rewrite Hrun. unfold ota_finish, validation_error. split; [| split].
  - intros Hend. rewrite Hend. cbn. rewrite <- !app_assoc. split; reflexivity.
  - intros Hend Hboot. rewrite Hend, Hboot. cbn. rewrite <- !app_assoc.
    split; reflexivity.
  - intros [Hend | Hboot].
    + rewrite Hend. reflexivity.
    + rewrite Hboot. destruct (esp_ota_end api _); reflexivity.
Qed.

Lemma ota_failure_repeats_witness :
  exists pending pieces,
    glue pieces = "firmware" /\
    fst (handle_OTA_incoming invalid_image {| method := HTTP_POST; content_len := 8 |}
           (idle [Received "firmware"])) = Returned ESP_FAIL /\
    ota_log (snd (handle_OTA_incoming invalid_image
                    {| method := HTTP_POST; content_len := 8 |}
                    (idle [Received "firmware"])))
      = (ota_log (written (idle [Received "firmware"]) pending pieces)
         ++ [OtaEnd; OtaEnd; OtaSetBoot])%list.
Proof.
  destruct (ota_failure_repeats_the_calls invalid_image
              {| method := HTTP_POST; content_len := 8 |}
              (idle [Received "firmware"]) [Received "firmware"] [])
    as (pending & pieces & Hglue & Hend & _); try reflexivity.
  { repeat (constructor; [reflexivity |]). constructor. }
  exists pending, pieces. split; [exact Hglue |]. apply Hend. reflexivity.
Defined.

End OtaFacts.

(* ===================================================================== *)
(** * The former store, past the first pair *)
(* ===================================================================== *)

Module LegacyTableFacts.
Import Cxx LegacyPtam LegacyTables CxxFacts TextFacts.

(** The loop comes to the end of an array in which no slot with an even
    index holds the pointer. *)
Lemma scan_from_miss (length : Z) (arr : list ptr) (baseID : ptr) :
  Z.of_nat (List.length arr) = length -> length <= 254 ->
  unused_below length arr baseID ->
  forall (n fuel : nat) (i : nat),
    (n < fuel)%nat -> length <= Z.of_nat (2 * i + 2 * n) ->
    scan_from length fuel arr baseID (Z.of_nat (2 * i)) = Done None.
Proof.
  unfold unused_below. intros Harr Hcap Hun.
  induction n as [|n IH]; intros fuel i Hfuel Hend;
    (destruct fuel as [|f]; [lia |]); cbn [scan_from]; unfold ptr in *.
  - destruct (Z.of_nat (2 * i) <? length) eqn:Hlt; [apply Z.ltb_lt in Hlt; lia |].
    reflexivity.
  - destruct (Z.of_nat (2 * i) <? length) eqn:Hlt; [| reflexivity].
    apply Z.ltb_lt in Hlt. rewrite Nat2Z.id.
    destruct (arr !! (2 * i)%nat) as [p|] eqn:Hp.
    2:{ apply lookup_ge_None in Hp. lia. }
    destruct (p =? baseID) eqn:Heq.
    { apply Z.eqb_eq in Heq. subst p. exfalso. apply (Hun i); [lia | exact Hp]. }
    replace ((Z.of_nat (2 * i) + 2) mod 2 ^ 8) with (Z.of_nat (2 * S i))
      by (rewrite Z.mod_small; lia).
    apply IH; lia.
Qed.

Lemma find_data_miss (length : Z) (t : table) (baseID : ptr) :
  Z.of_nat (List.length (slots t)) = length -> length <= 254 ->
  unused_below length (slots t) baseID ->
  find_data length t baseID = Fault IndeterminatePointer.
Proof.
  intros Harr Hcap Hun. unfold find_data.
  pose proof (scan_from_miss length (slots t) baseID Harr Hcap Hun 127 128 0) as Hscan.
  change (Z.of_nat (2 * 0)) with 0 in Hscan. rewrite Hscan; [reflexivity | lia | lia].
Qed.

(** X23: a retrieval for a pointer that no slot with an even index holds
    ends the loop without a match and goes on with the uninitialised
    [temp_data]: each of the four retrieval functions uses an indeterminate
    pointer. *)
Theorem legacy_miss_uses_indeterminate_pointer (length : Z) (st : memory) (baseID : ptr) :
  length <= 254 ->
  Forall (fun t => Z.of_nat (List.length (slots t)) = length /\
                   unused_below length (slots t) baseID)
    [floatingP st; eight_bit st; thirtytwo_bit st; character st] ->
  PTAM_RETRIEVE_BASE_DOUBLE length baseID st = Fault IndeterminatePointer /\
  PTAM_RETRIEVE_BASE_8 length baseID st = Fault IndeterminatePointer /\
  PTAM_RETRIEVE_BASE_32 length baseID st = Fault IndeterminatePointer /\
  PTAM_RETRIEVE_BASE_CHAR length baseID st = Fault IndeterminatePointer.
Proof.
  intros Hcap Htables.
  unfold PTAM_RETRIEVE_BASE_DOUBLE, PTAM_RETRIEVE_BASE_8, PTAM_RETRIEVE_BASE_32,
    PTAM_RETRIEVE_BASE_CHAR.
  apply Forall_cons in Htables as [[Hf1 Hf2] Htables].
  apply Forall_cons in Htables as [[He1 He2] Htables].
  apply Forall_cons in Htables as [[Ht1 Ht2] Htables].
  apply Forall_cons in Htables as [[Hc1 Hc2] _].
  rewrite !find_data_miss by assumption. repeat split.
Qed.

Lemma legacy_miss_witness :
  PTAM_RETRIEVE_BASE_DOUBLE 10 100 (one_pair_each 10 ∅) = Fault IndeterminatePointer /\
  PTAM_RETRIEVE_BASE_8 10 100 (one_pair_each 10 ∅) = Fault IndeterminatePointer /\
  PTAM_RETRIEVE_BASE_32 10 100 (one_pair_each 10 ∅) = Fault IndeterminatePointer /\
  PTAM_RETRIEVE_BASE_CHAR 10 100 (one_pair_each 10 ∅) = Fault IndeterminatePointer.
Proof.
  apply (legacy_miss_uses_indeterminate_pointer 10 (one_pair_each 10 ∅) 100).
  - lia.
  - repeat (constructor;
            [split; [reflexivity |];
             intros k Hk; cbn [one_pair_each floatingP eight_bit thirtytwo_bit
                                character slots];
             rewrite lookup_replicate_2 by lia; discriminate |]).
    constructor.
Defined.

End LegacyTableFacts.

(* ===================================================================== *)
(** * The relay and the servos *)
(* ===================================================================== *)

Module HalFacts.
Import Cxx Hal.

Lemma toggles_snoc (n : nat) (level : Z) :
  (toggles n level ++ [(RELAY_GPIO_PIN, if Nat.even n then level else 1 - level)])%list
    = toggles (S n) level.
Proof.
  revert level. induction n as [|n IH]; intros level; [reflexivity |].
  change (toggles (S (S n)) level)
    with ((RELAY_GPIO_PIN, level) :: toggles (S n) (1 - level)).
  change (toggles (S n) level) with ((RELAY_GPIO_PIN, level) :: toggles n (1 - level)).
  cbn [app]. f_equal. rewrite <- (IH (1 - level)).
  f_equal. f_equal. f_equal.
  rewrite Nat.even_succ, <- Nat.negb_even.
  destruct (Nat.even n); cbn [negb]; lia.
Qed.

Lemma coolSierra_task_in_step (sierraTemp : float) (r : relay) :
  in_step r -> in_step (coolSierra_task sierraTemp r).
Proof.
  intros (n & Hg & Hf). unfold coolSierra_task. cbv zeta.
  destruct (PrimFloat.ltb 45 sierraTemp && negb (fanIsOn r)) eqn:Hon.
  - apply andb_prop in Hon as [_ Hoff]. apply negb_true_iff in Hoff.
    exists (S n). cbn [set_fanIsOn fan_relay_on gpio_set_level gpio fanIsOn].
    rewrite Hg. rewrite Hoff in Hf.
    rewrite <- toggles_snoc, Nat.odd_succ.
    rewrite <- Nat.negb_odd, <- Hf. split; reflexivity.
  - destruct (PrimFloat.ltb sierraTemp 35 && fanIsOn r) eqn:Hoff; [| exists n; tauto].
    apply andb_prop in Hoff as [_ Hison].
    exists (S n). cbn [set_fanIsOn fan_relay_off gpio_set_level gpio fanIsOn].
    rewrite Hg. rewrite Hison in Hf.
    rewrite <- toggles_snoc, Nat.odd_succ.
    rewrite <- Nat.negb_odd, <- Hf. split; reflexivity.
Qed.

(** X25: whatever the readings, the relay is switched only when the flag
    changes: from the start of the program the levels written to the pin of
    the relay alternate, beginning with 1, and [fanIsOn] is true exactly when
    the last level written is 1. *)
Theorem relay_follows_the_flag (readings : list float) :
  exists n : nat,
    gpio (regulate readings relay_at_start) = toggles n 1 /\
    fanIsOn (regulate readings relay_at_start) = Nat.odd n.
Proof.
  change (in_step (regulate readings relay_at_start)).
  assert (H : in_step relay_at_start) by (exists O; split; reflexivity).
  revert H. generalize relay_at_start. unfold regulate.
  induction readings as [|t readings IH]; intros r Hr; [exact Hr |].
  cbn [fold_left]. apply IH, coolSierra_task_in_step, Hr.
Qed.

(** X26: a position stored for one of the pins 0 to 3 is the one read back
    for that pin and leaves the three other positions as they were; for any
    other pin nothing is stored and 0 is read. *)
Theorem servo_position_round_trip (pin pin' updatedValue : Z) (s : positions) :
  GET_SERVO_POS pin' (UPDATE_SERVO_POS pin updatedValue s)
    = (if (pin' =? pin) && (0 <=? pin) && (pin <=? 3) then updatedValue
       else GET_SERVO_POS pin' s) /\
  (pin < 0 \/ 3 < pin ->
     UPDATE_SERVO_POS pin updatedValue s = s /\ GET_SERVO_POS pin s = 0).
Proof.
  split.
  - destruct (Z.eqb_spec pin' pin) as [-> | Hne]; cbn [andb].
    + destruct pin as [|[[|[]|]|[|[]|]|]|]; reflexivity.
    + destruct pin as [|[[|[]|]|[|[]|]|]|]; try reflexivity;
        destruct pin' as [|[[|[]|]|[|[]|]|]|]; try reflexivity; congruence.
  - intros Hout. destruct pin as [|[[|[]|]|[|[]|]|]|]; try lia; split; reflexivity.
Qed.

(** ** Driving a servo *)

Lemma servo_control_whole (n : Z) (pin : Z) (hw : servo) :
  servo_control (int_to_double n) pin hw =
    match whole_degrees n with
    | Some (result, updatedValue, duty) =>
        Some (result,
              {| pos := UPDATE_SERVO_POS pin updatedValue (pos hw);
                 ledc := ledc hw ++ [(pin, duty)] |})
    | None => None
    end.
Proof.
  unfold servo_control, whole_degrees, actuateServo. cbv zeta.
  destruct (duty_of _) as [duty|]; [| reflexivity].
  destruct (double_to_uint8 (int_to_double n)) as [u|]; [| reflexivity].
  destruct (double_to_uint8 _) as [r|]; reflexivity.
Qed.

Lemma whole_degrees_checked : forallb whole_degrees_ok (seq 0 256) = true.
Proof. vm_compute. reflexivity. Qed.

(** X27: for a target of a whole number of degrees from 0 to 255,
    [servo_control] sets a duty between 24 and 616, stores the target as the
    position of the pin, and returns the pulse width in milliseconds cut
    down to an integer: 0 below 166 degrees and 1 from there, not the
    position. *)
Theorem servo_control_returns_the_pulse_width (n : Z) (pin : Z) (hw : servo) :
  0 <= n <= 255 ->
  exists duty,
    24 <= duty <= 616 /\
    servo_control (int_to_double n) pin hw
      = Some (if n <? 166 then 0 else 1,
              {| pos := UPDATE_SERVO_POS pin n (pos hw);
                 ledc := ledc hw ++ [(pin, duty)] |}).
Proof.
  intros Hn. rewrite servo_control_whole.
  pose proof whole_degrees_checked as Hall.
  rewrite forallb_forall in Hall.
  specialize (Hall (Z.to_nat n)).
  assert (Hin : In (Z.to_nat n) (seq 0 256)) by (apply in_seq; lia).
  apply Hall in Hin. unfold whole_degrees_ok in Hin.
  rewrite Z2Nat.id in Hin by lia.
  destruct (whole_degrees n) as [[[r u] duty]|]; [| discriminate].
  apply andb_prop in Hin as [Hin Hhi]. apply andb_prop in Hin as [Hin Hlo].
  apply andb_prop in Hin as [Hr Hu].
  apply Z.eqb_eq in Hr, Hu. apply Z.leb_le in Hlo, Hhi. subst r u.
  exists duty. split; [lia | reflexivity].
Qed.

Lemma servo_control_witness :
  exists duty,
    24 <= duty <= 616 /\
    servo_control (int_to_double 90) 1 {| pos := mkPositions 0 0 0 0; ledc := [] |}
      = Some (if 90 <? 166 then 0 else 1,
              {| pos := UPDATE_SERVO_POS 1 90 (mkPositions 0 0 0 0);
                 ledc := [] ++ [(1, duty)] |}).
Proof.
  apply (servo_control_returns_the_pulse_width 90 1
           {| pos := mkPositions 0 0 0 0; ledc := [] |}).
  lia.
Defined.

(** A mantissa of [d] binary digits is at least 2^(d-1). *)
Lemma digits2_pos_lower (m : positive) :
  2 ^ (Zpos (digits2_pos m) - 1) <= Zpos m.
Proof.
  induction m as [m IH | m IH |]; cbn [digits2_pos]; [| | simpl; lia].
  - rewrite Pos2Z.inj_succ.
    replace (Z.succ (Zpos (digits2_pos m)) - 1) with (Z.succ (Zpos (digits2_pos m) - 1)) by lia.
    rewrite Z.pow_succ_r by lia. lia.
  - rewrite Pos2Z.inj_succ.
    replace (Z.succ (Zpos (digits2_pos m)) - 1) with (Z.succ (Zpos (digits2_pos m) - 1)) by lia.
    rewrite Z.pow_succ_r by lia. lia.
Qed.

(** A [double] that is at least 256 is not a [uint8_t] after truncation. *)
Lemma double_to_uint8_above (d : float) :
  PrimFloat.leb 256 d = true -> double_to_uint8 d = None.
Proof.
  rewrite leb_spec. pose proof (Prim2SF_valid d) as Hvalid.
  unfold double_to_uint8.
  change (Prim2SF 256) with (S754_finite false 4503599627370496 (-44)).
  destruct (Prim2SF d) as [s | s | | s m e]; try discriminate; try reflexivity.
  unfold SFleb, SFcompare. destruct s; [discriminate |].
  cbn [valid_binary] in Hvalid. unfold bounded, canonical_mantissa in Hvalid.
  apply andb_prop in Hvalid as [Hcanon _].
  apply Z.eqb_eq in Hcanon. unfold fexp, emin, prec, emax in Hcanon.
  pose proof (digits2_pos_lower m) as Hm.
  intros Hcmp.
  assert (He : -44 <= e).
  { destruct (Z.compare_spec (-44) e); try lia; discriminate. }
  assert (Hdigits : Zpos (digits2_pos m) = 53) by lia.
  rewrite Hdigits in Hm. change (2 ^ (53 - 1)) with 4503599627370496 in Hm.
  assert (Hmag : 256 <= (if 0 <=? e then Zpos m * 2 ^ e else Zpos m / 2 ^ (- e))).
  { destruct (0 <=? e) eqn:Hpos.
    - apply Z.leb_le in Hpos.
      assert (1 <= 2 ^ e) by (apply Z.pow_pos_nonneg with (a := 2) in Hpos; lia).
      nia.
    - apply Z.leb_gt in Hpos.
      assert (Hpow : 0 < 2 ^ (- e) <= 2 ^ 44).
      { split; [apply Z.pow_pos_nonneg; lia | apply Z.pow_le_mono_r; lia]. }
      change (2 ^ 44) with 17592186044416 in Hpow.
      apply Z.div_le_lower_bound; [lia |]. nia. }
  cbv zeta.
  destruct ((0 <=? _) && (_ <=? 255)) eqn:Hr; [| reflexivity].
  apply andb_prop in Hr as [_ Hr]. apply Z.leb_le in Hr. lia.
Qed.

(** X28: for a target of 256 degrees or more, which the interpolation from
    0 to 360 degrees provides for, the conversion of the target to the
    [uint8_t] position is undefined. *)
Theorem servo_control_undefined_from_256 (target : float) (pin : Z) (hw : servo) :
  PrimFloat.leb 256 target = true -> servo_control target pin hw = None.
Proof.
  intros Htarget. unfold servo_control. cbv zeta.
  destruct (actuateServo _ pin hw) as [hw1|]; [| reflexivity].
  now rewrite (double_to_uint8_above _ Htarget).
Qed.

Lemma servo_control_undefined_witness :
  servo_control 300 0 {| pos := mkPositions 0 0 0 0; ledc := [] |} = None.
Proof. apply servo_control_undefined_from_256. reflexivity. Defined.

End HalFacts.
